(** * CivicSentinel API server: the claim verification pipeline

    A shallow embedding of the fact-checking part of [server.js] (v3.0) and
    of its predecessor (v2.0): citation extraction, recovery of the
    candidate claims from the model's text, cross-reference of every
    candidate against the citations, the two-stage live probe, and the
    response with its transcript and counts.

    What the JavaScript platform provides ([URL], [JSON.parse], string
    conversion, [fetch], [Date.now]) is a parameter of the development, of
    type [platform]; the code of the repository is translated function by
    function on top of it.  The handler is followed from the point where
    the answer of the model has arrived ([allContent]); the validation of
    the request and the call of the model come before and are left out.

    The rate limiter and the TDEC data store (the upload, the statistics
    and the conversion of the records to feed items) follow, each in a
    module of its own. *)

From stdpp Require Import base list strings pretty gmap.
From Stdlib Require Import Ascii String NArith Sorted.

Set Warnings "-register-all".
Local Open Scope string_scope.
Local Open Scope list_scope.

(** ** JavaScript values and exceptions *)

(** The values [JSON.parse] can return.  A number is kept as an integer:
    the code tests numbers for truthiness, where a fractional or infinite
    one behaves as any non-zero integer does, and hands them to the string
    conversion of the platform. *)
Inductive json : Type :=
  | JNull
  | JBool (b : bool)
  | JNum (n : Z)
  | JStr (s : string)
  | JArr (elems : list json)
  | JObj (props : list (string * json)).

Inductive exn : Type :=
  | TypeError
  | SyntaxError
  | AbortError.

(** The result of running a piece of code that may throw. *)
Inductive completion (A : Type) : Type :=
  | Normal (a : A)
  | Throw (e : exn).
Arguments Normal {A} a.
Arguments Throw {A} e.

#[global] Instance completion_ret : MRet completion := fun A a => Normal a.

#[global] Instance completion_bind : MBind completion := fun A B k c =>
  match c with
  | Normal a => k a
  | Throw e => Throw e
  end.

(** [try { body } catch { handler }] *)
Definition try_catch {A} (body : completion A) (handler : exn -> completion A)
  : completion A :=
  match body with
  | Normal a => Normal a
  | Throw e => handler e
  end.

(** A piece of code that calls [fetch]: the requests it hands to [fetch],
    in order, and its result.  The trace is not something the code keeps;
    it is there to say which requests were made. *)
Inductive traced (R A : Type) : Type :=
  | Traced (sent : list R) (result : completion A).
Arguments Traced {R A} sent result.

Definition sent {R A} (c : traced R A) : list R :=
  match c with Traced t _ => t end.

Definition result {R A} (c : traced R A) : completion A :=
  match c with Traced _ r => r end.

#[global] Instance traced_ret {R} : MRet (traced R) := fun A a => Traced [] (Normal a).

#[global] Instance traced_bind {R} : MBind (traced R) := fun A B k c =>
  match c with
  | Traced t (Normal a) => Traced (t ++ sent (k a)) (result (k a))
  | Traced t (Throw e) => Traced t (Throw e)
  end.

(** [try { body } catch { handler }] around code that calls [fetch]. *)
Definition try_traced {R A} (body : traced R A) (handler : exn -> traced R A)
  : traced R A :=
  match body with
  | Traced t (Normal a) => Traced t (Normal a)
  | Traced t (Throw e) => Traced (t ++ sent (handler e)) (result (handler e))
  end.

(** Truthiness, as [!v], [v || d] and [c ? a : b] see it. *)
Definition truthy (v : json) : bool :=
  match v with
  | JNull => false
  | JBool b => b
  | JNum n => negb (n =? 0)%Z
  | JStr s => negb (String.eqb s EmptyString)
  | JArr _ => true
  | JObj _ => true
  end.

Fixpoint lookupProp (k : string) (props : list (string * json)) : option json :=
  match props with
  | [] => None
  | (k', v) :: rest => if String.eqb k k' then Some v else lookupProp k rest
  end.

(** [it.k] for the property names the handler reads ([title], [summary],
    [source], [url], [timestamp], [category], [severity], [location]):
    reading a property of [null] throws; an object gives its own property;
    none of these names is defined on the prototypes of strings, numbers,
    booleans or arrays, so every other value gives [undefined] ([None]). *)
Definition getProp (it : json) (k : string) : completion (option json) :=
  match it with
  | JNull => Throw TypeError
  | JObj props => Normal (lookupProp k props)
  | _ => Normal None
  end.

(** [v || d] where [v] is the result of a property read. *)
Definition orDefault (v : option json) (d : json) : json :=
  match v with
  | Some x => if truthy x then x else d
  | None => d
  end.

(** [s || d] on strings. *)
Definition strOr (s d : string) : string :=
  if String.eqb s EmptyString then d else s.

(** ** String operations used by the handler *)

(** [s.startsWith(p)] *)
Definition startsWith (s p : string) : bool := String.prefix p s.

(** [s.includes(x)] *)
Fixpoint includes (s x : string) : bool :=
  String.prefix x s ||
  match s with
  | EmptyString => false
  | String _ rest => includes rest x
  end.

Fixpoint dropChars (n : nat) (s : string) : string :=
  match n, s with
  | O, _ => s
  | S n', String _ rest => dropChars n' rest
  | S _, EmptyString => EmptyString
  end.

(** [s.replace(pat, rep)] with a string pattern: only the first occurrence
    of [pat], wherever it is, is replaced. *)
Fixpoint replaceFirst (pat rep s : string) : string :=
  if String.prefix pat s then rep +:+ dropChars (String.length pat) s
  else match s with
       | EmptyString => EmptyString
       | String c rest => String c (replaceFirst pat rep rest)
       end.

(** [s.replace(/```json|```/g, '')] *)
Fixpoint stripFences (s : string) : string :=
  match s with
  | String "`" (String "`" (String "`" rest)) =>
      match rest with
      | String "j" (String "s" (String "o" (String "n" rest'))) => stripFences rest'
      | _ => stripFences rest
      end
  | String c rest => String c (stripFences rest)
  | EmptyString => EmptyString
  end.

Definition isSpace (c : ascii) : bool :=
  let n := nat_of_ascii c in
  (n =? 32)%nat || ((9 <=? n)%nat && (n <=? 13)%nat).

Fixpoint trimStart (s : string) : string :=
  match s with
  | String c rest => if isSpace c then trimStart rest else s
  | EmptyString => EmptyString
  end.

Fixpoint trimEnd (s : string) : string :=
  match s with
  | String c rest =>
      match trimEnd rest with
      | EmptyString => if isSpace c then EmptyString else String c EmptyString
      | t => String c t
      end
  | EmptyString => EmptyString
  end.

(** [s.trim()], on the ASCII white space characters. *)
Definition trim (s : string) : string := trimEnd (trimStart s).

(** The prefix of [s] that ends at its last ["]"], if it has one. *)
Fixpoint throughLastBracket (s : string) : option string :=
  match s with
  | EmptyString => None
  | String c rest =>
      match throughLastBracket rest with
      | Some p => Some (String c p)
      | None => if Ascii.eqb c "]" then Some (String c EmptyString) else None
      end
  end.

(** [s.match(/\[[\s\S]*\]/)]: the greedy match runs from the first ["["]
    that has a ["]"] after it to the last ["]"] of the text. *)
Fixpoint matchArray (s : string) : option string :=
  match s with
  | EmptyString => None
  | String c rest =>
      if Ascii.eqb c "["
      then match throughLastBracket rest with
           | Some p => Some (String c p)
           | None => None
           end
      else matchArray rest
  end.

(** [parts.join(sep)] *)
Fixpoint join (sep : string) (parts : list string) : string :=
  match parts with
  | [] => EmptyString
  | [p] => p
  | p :: rest => p +:+ sep +:+ join sep rest
  end.

Definition dquote : string := String "034" EmptyString.
Definition newline : string := String "010" EmptyString.

(** ** The platform *)

(** The two components of a parsed URL that the code reads. *)
Record parsedURL : Type := {
  hostname : string;
  pathname : string
}.

(** A [fetch] call as the probe issues it.  [abortAfter] is the delay, in
    milliseconds, after which the probe's own timer aborts the request. *)
Record request : Type := {
  method : string;
  target : string;
  headers : list (string * string);
  redirect : string;
  abortAfter : N
}.

(** The two members of a [fetch] response that the probe reads. *)
Record fetchResponse : Type := {
  ok : bool;
  status : N
}.

(** What Node provides.  [URL s] is [None] when [new URL(s)] throws.
    [JSON_parse s] is [JSON.parse(s)] for a text [s] that starts with an
    opening bracket, which is an array whenever it is a value; [None] when
    it throws.  [ToString v] is the conversion a template literal applies.
    [fetch i rq] is what the network answers to [rq] while the [i]-th
    candidate is being checked: a response, or a rejection (of which the
    abort by the timer is one).  [Date_now i] is the clock when the [i]-th
    item is built. *)
Record platform : Type := {
  URL : string -> option parsedURL;
  JSON_parse : string -> option (list json);
  ToString : json -> completion string;
  fetch : nat -> request -> completion fetchResponse;
  Date_now : nat -> N
}.

(** [await fetch(...)]: the request is handed to the network, whose answer
    is the result. *)
Definition await (net : request -> completion fetchResponse) (rq : request)
  : traced request fetchResponse :=
  Traced [rq] (net rq).

(** ** Data of the pipeline *)

Module Citation.
Record t : Type := {
  title : string;
  url : string;
  snippet : string;
  source : string;
  publishedDate : string
}.
End Citation.

(** A claim.  The fields copied from a candidate are whatever values the
    model's array held. *)
Module Item.
Record t : Type := {
  id : string;
  title : json;
  summary : json;
  source : json;
  url : json;
  timestamp : json;
  category : json;
  severity : json;
  location : json;
  verified : bool;
  verificationNote : string
}.

(** [item.verified = true] *)
Definition setVerified (item : t) : t :=
  {| id := id item; title := title item; summary := summary item;
     source := source item; url := url item; timestamp := timestamp item;
     category := category item; severity := severity item;
     location := location item;
     verified := true; verificationNote := verificationNote item |}.

(** [item.verificationNote = note] *)
Definition setNote (item : t) (note : string) : t :=
  {| id := id item; title := title item; summary := summary item;
     source := source item; url := url item; timestamp := timestamp item;
     category := category item; severity := severity item;
     location := location item;
     verified := verified item; verificationNote := note |}.
End Item.

Module Stats.
Record t : Type := {
  totalFound : nat;
  verified : nat;
  rejected : nat
}.
End Stats.

(** The body of a successful answer of [/api/search]. *)
Record searchResponse : Type := {
  items : list Item.t;
  rawResponse : string;
  verifiedSources : list Citation.t;
  stats : Stats.t
}.

(** One entry of a search tool result.  A field the service left out is
    [None]. *)
Module SearchResult.
Record t : Type := {
  title : option string;
  url : option string;
  encrypted_content : option string;
  page_snippet : option string;
  page_age : option string
}.
End SearchResult.

Inductive resultItem : Type :=
  | WebSearchResult (r : SearchResult.t)
  | OtherItem.

(** A content block of the model's answer.  The content of a tool result
    is the list of its items; the form it takes when the search failed, an
    error object, is in [Raw]. *)
Inductive block : Type :=
  | TextBlock (text : string)
  | WebSearchToolResult (content : list resultItem)
  | OtherBlock.

(** [o || d] for a field of a search result. *)
Definition optOr (o : option string) (d : string) : string :=
  match o with
  | Some s => strOr s d
  | None => d
  end.

(** The state of the cross-reference loop: the two lists the code pushes
    to, and a trace of the calls of [verifyUrl] (candidate index and URL),
    which the code does not keep. *)
Record loopState : Type := {
  verifiedItems : list Item.t;
  rejectedItems : list Item.t;
  probes : list (nat * string)
}.

Definition accept (st : loopState) (item : Item.t) : loopState :=
  {| verifiedItems := verifiedItems st ++ [item];
     rejectedItems := rejectedItems st;
     probes := probes st |}.

Definition reject (st : loopState) (item : Item.t) : loopState :=
  {| verifiedItems := verifiedItems st;
     rejectedItems := rejectedItems st ++ [item];
     probes := probes st |}.

Definition probing (st : loopState) (i : nat) (u : string) : loopState :=
  {| verifiedItems := verifiedItems st;
     rejectedItems := rejectedItems st;
     probes := probes st ++ [(i, u)] |}.

Definition emptyStats : Stats.t :=
  {| Stats.totalFound := 0; Stats.verified := 0; Stats.rejected := 0 |}.

(** The verification notes. *)
Definition noteNoURL : string := "REJECTED — No valid URL".
Definition noteConfirmed : string := "Confirmed — URL found in web search results".
Definition noteLiveKnown : string :=
  "Verified — URL responds (domain from search results)".
Definition noteDead : string := "REJECTED — URL does not respond".
Definition noteLive : string := "Verified — URL responds".
Definition noteFabricated : string :=
  "REJECTED — URL does not exist (likely fabricated)".
Definition noteDirect : string := "Direct from web search results".

(** ** server.js (v3.0) *)

Module V3.

(** *** URL verification *)

Definition headRequest (u : string) : request :=
  {| method := "HEAD";
     target := u;
     headers := [("User-Agent", "CivicSentinel/3.0 (community watchdog)")];
     redirect := "follow";
     abortAfter := 5000 |}.

Definition rangeRequest (u : string) : request :=
  {| method := "GET";
     target := u;
     headers := [("User-Agent", "CivicSentinel/3.0"); ("Range", "bytes=0-0")];
     redirect := "follow";
     abortAfter := 5000 |}.

Definition verifyUrl (net : request -> completion fetchResponse) (u : string)
  : traced request bool :=
  try_traced
    (r ← await net (headRequest u);
     mret (ok r || (status r =? 403)%N || (status r =? 405)%N))
    (fun _ =>
       try_traced
         (r2 ← await net (rangeRequest u);
          mret (ok r2 || (status r2 =? 206)%N || (status r2 =? 403)%N))
         (fun _ => mret false)).

Section Pipeline.

Variable P : platform.

Definition extractDomain (u : string) : string :=
  match URL P u with
  | Some parsed => replaceFirst "www." EmptyString (hostname parsed)
  | None => "Unknown"
  end.

(** *** Citations *)

Definition citationOf (r : SearchResult.t) : Citation.t :=
  {| Citation.title := optOr (SearchResult.title r) EmptyString;
     Citation.url := optOr (SearchResult.url r) EmptyString;
     Citation.snippet :=
       if String.eqb (optOr (SearchResult.encrypted_content r) EmptyString) EmptyString
       then optOr (SearchResult.page_snippet r) EmptyString
       else "[Content at source]";
     Citation.source := extractDomain (optOr (SearchResult.url r) EmptyString);
     Citation.publishedDate := optOr (SearchResult.page_age r) EmptyString |}.

Fixpoint citationsOfItems (content : list resultItem) : list Citation.t :=
  match content with
  | [] => []
  | WebSearchResult r :: rest => citationOf r :: citationsOfItems rest
  | OtherItem :: rest => citationsOfItems rest
  end.

Fixpoint extractCitations (content : list block) : list Citation.t :=
  match content with
  | [] => []
  | WebSearchToolResult inner :: rest =>
      citationsOfItems inner ++ extractCitations rest
  | _ :: rest => extractCitations rest
  end.

(** *** The lookup structures *)

(** [hostname + pathname] of a URL that parses. *)
Definition hostPath (u : string) : option string :=
  match URL P u with
  | Some parsed => Some (hostname parsed +:+ pathname parsed)
  | None => None
  end.

Definition realUrlSet (realCitations : list Citation.t) : gset string :=
  foldl (fun acc c =>
           let acc' := match hostPath (Citation.url c) with
                       | Some key => {[ key ]} ∪ acc
                       | None => acc
                       end in
           {[ Citation.url c ]} ∪ acc')
        ∅ realCitations.

Definition realDomainSet (realCitations : list Citation.t) : gset string :=
  list_to_set (map Citation.source realCitations).

(** [urlKey] for the url [u] of an item: host and path, or [u] itself
    when it does not parse. *)
Definition urlKey (u : string) : string :=
  match hostPath u with
  | Some key => key
  | None => u
  end.

(** *** The cross-reference loop *)

Section Loop.

Variable city : json.
Variable realCitations : list Citation.t.

(** The object literal that opens the loop body. *)
Definition newItem (i : nat) (it : json) : completion Item.t :=
  title ← getProp it "title";
  summary ← getProp it "summary";
  source ← getProp it "source";
  url ← getProp it "url";
  timestamp ← getProp it "timestamp";
  category ← getProp it "category";
  severity ← getProp it "severity";
  location ← getProp it "location";
  mret {| Item.id := "l" +:+ pretty (Date_now P i) +:+ "_" +:+ pretty i;
          Item.title := orDefault title (JStr EmptyString);
          Item.summary := orDefault summary (JStr EmptyString);
          Item.source := orDefault source (JStr "Unknown");
          Item.url := orDefault url (JStr EmptyString);
          Item.timestamp := orDefault timestamp (JStr "Recent");
          Item.category := orDefault category (JStr "other");
          Item.severity := orDefault severity (JStr "medium");
          Item.location := orDefault location city;
          Item.verified := false;
          Item.verificationNote := EmptyString |}.

(** The part of the loop body that follows the scheme check, for an item
    whose url is the string [u]. *)
Definition crossCheck (i : nat) (item : Item.t) (u : string) (st : loopState)
  : completion loopState :=
  if bool_decide (urlKey u ∈ realUrlSet realCitations)
     || bool_decide (u ∈ realUrlSet realCitations)
  then mret (accept st (Item.setNote (Item.setVerified item) noteConfirmed))
  else if bool_decide (extractDomain u ∈ realDomainSet realCitations)
  then
    exists_ ← result (verifyUrl (fetch P i) u);
    let st := probing st i u in
    if exists_ : bool
    then mret (accept st (Item.setNote (Item.setVerified item) noteLiveKnown))
    else mret (reject st (Item.setNote item noteDead))
  else
    exists_ ← result (verifyUrl (fetch P i) u);
    let st := probing st i u in
    if exists_ : bool
    then mret (accept st (Item.setNote (Item.setVerified item) noteLive))
    else mret (reject st (Item.setNote item noteFabricated)).

(** One turn of the loop, for the candidate [it] at index [i].  A url that
    is truthy and not a string has no [startsWith] method, and calling it
    throws. *)
Definition checkItem (i : nat) (it : json) (st : loopState)
  : completion loopState :=
  item ← newItem i it;
  if negb (truthy (Item.url item))
  then mret (reject st (Item.setNote item noteNoURL))
  else match Item.url item with
       | JStr u =>
           if negb (startsWith u "http")
           then mret (reject st (Item.setNote item noteNoURL))
           else crossCheck i item u st
       | _ => Throw TypeError
       end.

Fixpoint checkItems (i : nat) (parsedItems : list json) (st : loopState)
  : completion loopState :=
  match parsedItems with
  | [] => mret st
  | it :: rest =>
      st' ← checkItem i it st;
      checkItems (S i) rest st'
  end.

Definition initialState : loopState :=
  {| verifiedItems := []; rejectedItems := []; probes := [] |}.

End Loop.

(** *** The transcript *)

Definition textOf (b : block) : option string :=
  match b with
  | TextBlock text => Some text
  | _ => None
  end.

Definition isSearchPart (b : block) : bool :=
  match b with
  | WebSearchToolResult _ => true
  | _ => false
  end.

Definition citationLine (i : nat) (c : Citation.t) : string :=
  pretty (i + 1) +:+ ". " +:+ Citation.title c +:+ newline +:+
  "   " +:+ Citation.url c +:+ newline +:+
  "   " +:+ Citation.source c +:+ " | " +:+
  strOr (Citation.publishedDate c) "Date unknown".

(** [rawParts] as it stands when the text is examined. *)
Definition transcript (searchParts : list block) (realCitations : list Citation.t)
    (textParts : list string) : list string :=
  (if bool_decide (0 < List.length searchParts)
   then ["[Web searches performed: " +:+ pretty (List.length searchParts) +:+ "]"]
   else []) ++
  (if bool_decide (0 < List.length realCitations)
   then ["[Source URLs found: " +:+ pretty (List.length realCitations) +:+ "]"]
   else []) ++
  textParts ++
  (if bool_decide (0 < List.length realCitations)
   then (newline +:+ "--- VERIFIED SOURCE URLS ---") :: imap citationLine realCitations
   else []).

(** The line of a rejected item; converting the title can throw. *)
Definition rejectedLine (r : Item.t) : completion string :=
  t ← ToString P (Item.title r);
  u ← ToString P (Item.url r);
  mret (dquote +:+ t +:+ dquote +:+ " — " +:+ Item.verificationNote r +:+
        newline +:+ "   URL: " +:+ u).

(** [rejectedItems.forEach(r => rawParts.push(...))]: the array keeps what
    was pushed before a throw. *)
Fixpoint pushRejected (rs : list Item.t) (rawParts : list string)
  : list string * completion () :=
  match rs with
  | [] => (rawParts, Normal ())
  | r :: rest =>
      match rejectedLine r with
      | Normal line => pushRejected rest (rawParts ++ [line])
      | Throw e => (rawParts, Throw e)
      end
  end.

Definition emptyResponse (rawParts : list string) (realCitations : list Citation.t)
  : searchResponse :=
  {| items := [];
     rawResponse := join (newline +:+ newline) rawParts;
     verifiedSources := realCitations;
     stats := emptyStats |}.

(** *** The cross-reference branch *)

(** The body of the inner [try]: the parse, the loop, the rejected section
    of the transcript and the answer.  The first component is [rawParts] as
    the body leaves it, which is what the [catch] joins when the body
    throws. *)
Definition crossReference (city : json) (realCitations : list Citation.t)
    (rawParts : list string) (matched : string)
  : list string * completion searchResponse :=
  match JSON_parse P matched with
  | None => (rawParts, Throw SyntaxError)
  | Some parsedItems =>
      match checkItems city realCitations 0 parsedItems initialState with
      | Throw e => (rawParts, Throw e)
      | Normal st =>
          let '(rawParts', pushed) :=
            if bool_decide (0 < List.length (rejectedItems st))
            then pushRejected (rejectedItems st)
                   (rawParts ++ [newline +:+ "--- REJECTED (FAILED VERIFICATION) ---"])
            else (rawParts, Normal ()) in
          match pushed with
          | Throw e => (rawParts', Throw e)
          | Normal _ =>
              (rawParts',
               Normal {| items := verifiedItems st;
                         rawResponse := join (newline +:+ newline) rawParts';
                         verifiedSources := realCitations;
                         stats := {| Stats.totalFound := List.length parsedItems;
                                     Stats.verified := List.length (verifiedItems st);
                                     Stats.rejected := List.length (rejectedItems st) |} |})
          end
      end
  end.

(** *** Claims synthesized from the citations *)

Definition synthesized (city : json) (i : nat) (c : Citation.t) : Item.t :=
  {| Item.id := "v" +:+ pretty (Date_now P i) +:+ "_" +:+ pretty i;
     Item.title := JStr (Citation.title c);
     Item.summary :=
       JStr (strOr (Citation.snippet c)
               "Click source link to read the original article.");
     Item.source := JStr (Citation.source c);
     Item.url := JStr (Citation.url c);
     Item.timestamp := JStr (strOr (Citation.publishedDate c) "Recent");
     Item.category := JStr "other";
     Item.severity := JStr "medium";
     Item.location := city;
     Item.verified := true;
     Item.verificationNote := noteDirect |}.

(** [c.url && c.title] *)
Definition usable (c : Citation.t) : bool :=
  negb (String.eqb (Citation.url c) EmptyString)
  && negb (String.eqb (Citation.title c) EmptyString).

Definition fromCitations (city : json) (realCitations : list Citation.t)
    (rawParts : list string) : searchResponse :=
  let items := imap (synthesized city) (filter (fun c => usable c = true) realCitations) in
  {| items := items;
     rawResponse := join (newline +:+ newline) rawParts;
     verifiedSources := realCitations;
     stats := {| Stats.totalFound := List.length items;
                 Stats.verified := List.length items;
                 Stats.rejected := 0 |} |}.

(** *** The handler, from the model's answer on *)

Definition noResultsToken : string := dquote +:+ "no_results" +:+ dquote.

(** [fullText.replace(/```json|```/g, '').trim()] *)
Definition cleanedText (textParts : list string) : string :=
  trim (stripFences (join newline textParts)).

Definition search (city : json) (allContent : list block) : searchResponse :=
  let textParts := omap textOf allContent in
  let searchParts := filter (fun b => isSearchPart b = true) allContent in
  let realCitations := extractCitations allContent in
  let rawParts := transcript searchParts realCitations textParts in
  let cleaned := cleanedText textParts in
  if includes cleaned noResultsToken
  then emptyResponse rawParts realCitations
  else match matchArray cleaned with
       | None =>
           if bool_decide (0 < List.length realCitations)
           then fromCitations city realCitations rawParts
           else emptyResponse rawParts realCitations
       | Some matched =>
           match crossReference city realCitations rawParts matched with
           | (_, Normal answer) => answer
           | (rawParts', Throw _) => emptyResponse rawParts' realCitations
           end
       end.

End Pipeline.

End V3.

(** ** The previous version of the server (v2.0, Fact-Checked Edition) *)

Module V2.

(** *** URL verification *)

Definition headRequest (u : string) : request :=
  {| method := "HEAD";
     target := u;
     headers := [("User-Agent", "CivicSentinel/2.0 (community watchdog)")];
     redirect := "follow";
     abortAfter := 5000 |}.

Definition rangeRequest (u : string) : request :=
  {| method := "GET";
     target := u;
     headers := [("User-Agent", "CivicSentinel/2.0"); ("Range", "bytes=0-0")];
     redirect := "follow";
     abortAfter := 5000 |}.

Definition verifyUrl (net : request -> completion fetchResponse) (u : string)
  : traced request bool :=
  try_traced
    (r ← await net (headRequest u);
     mret (ok r || (status r =? 403)%N || (status r =? 405)%N))
    (fun _ =>
       try_traced
         (r2 ← await net (rangeRequest u);
          mret (ok r2 || (status r2 =? 206)%N || (status r2 =? 403)%N))
         (fun _ => mret false)).

Section Pipeline.

Variable P : platform.

Definition extractDomain (u : string) : string :=
  match URL P u with
  | Some parsed => replaceFirst "www." EmptyString (hostname parsed)
  | None => "Unknown"
  end.

(** *** Citations *)

Definition citationOf (r : SearchResult.t) : Citation.t :=
  {| Citation.title := optOr (SearchResult.title r) EmptyString;
     Citation.url := optOr (SearchResult.url r) EmptyString;
     Citation.snippet :=
       if String.eqb (optOr (SearchResult.encrypted_content r) EmptyString) EmptyString
       then optOr (SearchResult.page_snippet r) EmptyString
       else "[Content at source]";
     Citation.source := extractDomain (optOr (SearchResult.url r) EmptyString);
     Citation.publishedDate := optOr (SearchResult.page_age r) EmptyString |}.

Fixpoint citationsOfItems (content : list resultItem) : list Citation.t :=
  match content with
  | [] => []
  | WebSearchResult r :: rest => citationOf r :: citationsOfItems rest
  | OtherItem :: rest => citationsOfItems rest
  end.

Fixpoint extractCitations (content : list block) : list Citation.t :=
  match content with
  | [] => []
  | WebSearchToolResult inner :: rest =>
      citationsOfItems inner ++ extractCitations rest
  | _ :: rest => extractCitations rest
  end.

(** *** The lookup structures *)

(** [hostname + pathname] of a URL that parses. *)
Definition hostPath (u : string) : option string :=
  match URL P u with
  | Some parsed => Some (hostname parsed +:+ pathname parsed)
  | None => None
  end.

Definition realUrlSet (realCitations : list Citation.t) : gset string :=
  foldl (fun acc c =>
           let acc' := match hostPath (Citation.url c) with
                       | Some key => {[ key ]} ∪ acc
                       | None => acc
                       end in
           {[ Citation.url c ]} ∪ acc')
        ∅ realCitations.

Definition realDomainSet (realCitations : list Citation.t) : gset string :=
  list_to_set (map Citation.source realCitations).

(** [urlKey] for the url [u] of an item: host and path, or [u] itself
    when it does not parse. *)
Definition urlKey (u : string) : string :=
  match hostPath u with
  | Some key => key
  | None => u
  end.

(** *** The cross-reference loop *)

Section Loop.

Variable city : json.
Variable realCitations : list Citation.t.

(** The object literal that opens the loop body. *)
Definition newItem (i : nat) (it : json) : completion Item.t :=
  title ← getProp it "title";
  summary ← getProp it "summary";
  source ← getProp it "source";
  url ← getProp it "url";
  timestamp ← getProp it "timestamp";
  category ← getProp it "category";
  severity ← getProp it "severity";
  location ← getProp it "location";
  mret {| Item.id := "l" +:+ pretty (Date_now P i) +:+ "_" +:+ pretty i;
          Item.title := orDefault title (JStr EmptyString);
          Item.summary := orDefault summary (JStr EmptyString);
          Item.source := orDefault source (JStr "Unknown");
          Item.url := orDefault url (JStr EmptyString);
          Item.timestamp := orDefault timestamp (JStr "Recent");
          Item.category := orDefault category (JStr "other");
          Item.severity := orDefault severity (JStr "medium");
          Item.location := orDefault location city;
          Item.verified := false;
          Item.verificationNote := EmptyString |}.

(** The part of the loop body that follows the scheme check, for an item
    whose url is the string [u]. *)
Definition crossCheck (i : nat) (item : Item.t) (u : string) (st : loopState)
  : completion loopState :=
  if bool_decide (urlKey u ∈ realUrlSet realCitations)
     || bool_decide (u ∈ realUrlSet realCitations)
  then mret (accept st (Item.setNote (Item.setVerified item) noteConfirmed))
  else if bool_decide (extractDomain u ∈ realDomainSet realCitations)
  then
    exists_ ← result (verifyUrl (fetch P i) u);
    let st := probing st i u in
    if exists_ : bool
    then mret (accept st (Item.setNote (Item.setVerified item) noteLiveKnown))
    else mret (reject st (Item.setNote item noteDead))
  else
    exists_ ← result (verifyUrl (fetch P i) u);
    let st := probing st i u in
    if exists_ : bool
    then mret (accept st (Item.setNote (Item.setVerified item) noteLive))
    else mret (reject st (Item.setNote item noteFabricated)).

(** One turn of the loop, for the candidate [it] at index [i].  A url that
    is truthy and not a string has no [startsWith] method, and calling it
    throws. *)
Definition checkItem (i : nat) (it : json) (st : loopState)
  : completion loopState :=
  item ← newItem i it;
  if negb (truthy (Item.url item))
  then mret (reject st (Item.setNote item noteNoURL))
  else match Item.url item with
       | JStr u =>
           if negb (startsWith u "http")
           then mret (reject st (Item.setNote item noteNoURL))
           else crossCheck i item u st
       | _ => Throw TypeError
       end.

Fixpoint checkItems (i : nat) (parsedItems : list json) (st : loopState)
  : completion loopState :=
  match parsedItems with
  | [] => mret st
  | it :: rest =>
      st' ← checkItem i it st;
      checkItems (S i) rest st'
  end.

Definition initialState : loopState :=
  {| verifiedItems := []; rejectedItems := []; probes := [] |}.

End Loop.

(** *** The transcript *)

Definition textOf (b : block) : option string :=
  match b with
  | TextBlock text => Some text
  | _ => None
  end.

Definition isSearchPart (b : block) : bool :=
  match b with
  | WebSearchToolResult _ => true
  | _ => false
  end.

Definition citationLine (i : nat) (c : Citation.t) : string :=
  pretty (i + 1) +:+ ". " +:+ Citation.title c +:+ newline +:+
  "   " +:+ Citation.url c +:+ newline +:+
  "   " +:+ Citation.source c +:+ " | " +:+
  strOr (Citation.publishedDate c) "Date unknown".

(** [rawParts] as it stands when the text is examined. *)
Definition transcript (searchParts : list block) (realCitations : list Citation.t)
    (textParts : list string) : list string :=
  (if bool_decide (0 < List.length searchParts)
   then ["[Web searches performed: " +:+ pretty (List.length searchParts) +:+ "]"]
   else []) ++
  (if bool_decide (0 < List.length realCitations)
   then ["[Source URLs found: " +:+ pretty (List.length realCitations) +:+ "]"]
   else []) ++
  textParts ++
  (if bool_decide (0 < List.length realCitations)
   then (newline +:+ "--- VERIFIED SOURCE URLS ---") :: imap citationLine realCitations
   else []).

(** The line of a rejected item; converting the title can throw. *)
Definition rejectedLine (r : Item.t) : completion string :=
  t ← ToString P (Item.title r);
  u ← ToString P (Item.url r);
  mret ("❌ " +:+ dquote +:+ t +:+ dquote +:+ " — " +:+ Item.verificationNote r +:+
        newline +:+ "   URL: " +:+ u).

(** [rejectedItems.forEach(r => rawParts.push(...))]: the array keeps what
    was pushed before a throw. *)
Fixpoint pushRejected (rs : list Item.t) (rawParts : list string)
  : list string * completion () :=
  match rs with
  | [] => (rawParts, Normal ())
  | r :: rest =>
      match rejectedLine r with
      | Normal line => pushRejected rest (rawParts ++ [line])
      | Throw e => (rawParts, Throw e)
      end
  end.

Definition emptyResponse (rawParts : list string) (realCitations : list Citation.t)
  : searchResponse :=
  {| items := [];
     rawResponse := join (newline +:+ newline) rawParts;
     verifiedSources := realCitations;
     stats := emptyStats |}.

(** The summary that closes the transcript when something was verified. *)
Definition verificationSummary (st : loopState) : list string :=
  if bool_decide (0 < List.length (verifiedItems st))
  then [newline +:+ "--- VERIFICATION SUMMARY ---";
        "✅ " +:+ pretty (List.length (verifiedItems st)) +:+
          " results passed verification"] ++
       (if bool_decide (0 < List.length (rejectedItems st))
        then ["❌ " +:+ pretty (List.length (rejectedItems st)) +:+
                " results REJECTED (fabricated or broken URLs)"]
        else [])
  else [].

(** *** The cross-reference branch *)

(** The body of the inner [try]: the parse, the loop, the rejected section
    of the transcript and the answer.  The first component is [rawParts] as
    the body leaves it, which is what the [catch] joins when the body
    throws. *)
Definition crossReference (city : json) (realCitations : list Citation.t)
    (rawParts : list string) (matched : string)
  : list string * completion searchResponse :=
  match JSON_parse P matched with
  | None => (rawParts, Throw SyntaxError)
  | Some parsedItems =>
      match checkItems city realCitations 0 parsedItems initialState with
      | Throw e => (rawParts, Throw e)
      | Normal st =>
          let '(rawParts', pushed) :=
            if bool_decide (0 < List.length (rejectedItems st))
            then pushRejected (rejectedItems st)
                   (rawParts ++ [newline +:+ "--- REJECTED (FAILED VERIFICATION) ---"])
            else (rawParts, Normal ()) in
          match pushed with
          | Throw e => (rawParts', Throw e)
          | Normal _ =>
              let rawParts' := rawParts' ++ verificationSummary st in
              (rawParts',
               Normal {| items := verifiedItems st;
                         rawResponse := join (newline +:+ newline) rawParts';
                         verifiedSources := realCitations;
                         stats := {| Stats.totalFound := List.length parsedItems;
                                     Stats.verified := List.length (verifiedItems st);
                                     Stats.rejected := List.length (rejectedItems st) |} |})
          end
      end
  end.

(** *** Claims synthesized from the citations *)

Definition synthesized (city : json) (i : nat) (c : Citation.t) : Item.t :=
  {| Item.id := "v" +:+ pretty (Date_now P i) +:+ "_" +:+ pretty i;
     Item.title := JStr (Citation.title c);
     Item.summary :=
       JStr (strOr (Citation.snippet c)
               "Click source link to read the original article.");
     Item.source := JStr (Citation.source c);
     Item.url := JStr (Citation.url c);
     Item.timestamp := JStr (strOr (Citation.publishedDate c) "Recent");
     Item.category := JStr "other";
     Item.severity := JStr "medium";
     Item.location := city;
     Item.verified := true;
     Item.verificationNote := noteDirect |}.

(** [c.url && c.title] *)
Definition usable (c : Citation.t) : bool :=
  negb (String.eqb (Citation.url c) EmptyString)
  && negb (String.eqb (Citation.title c) EmptyString).

Definition fromCitations (city : json) (realCitations : list Citation.t)
    (rawParts : list string) : searchResponse :=
  let items := imap (synthesized city) (filter (fun c => usable c = true) realCitations) in
  {| items := items;
     rawResponse := join (newline +:+ newline) rawParts;
     verifiedSources := realCitations;
     stats := {| Stats.totalFound := List.length items;
                 Stats.verified := List.length items;
                 Stats.rejected := 0 |} |}.

(** *** The handler, from the model's answer on *)

Definition noResultsToken : string := dquote +:+ "no_results" +:+ dquote.

(** [fullText.replace(/```json|```/g, '').trim()] *)
Definition cleanedText (textParts : list string) : string :=
  trim (stripFences (join newline textParts)).

Definition search (city : json) (allContent : list block) : searchResponse :=
  let textParts := omap textOf allContent in
  let searchParts := filter (fun b => isSearchPart b = true) allContent in
  let realCitations := extractCitations allContent in
  let rawParts := transcript searchParts realCitations textParts in
  let cleaned := cleanedText textParts in
  if includes cleaned noResultsToken
  then emptyResponse rawParts realCitations
  else match matchArray cleaned with
       | None =>
           if bool_decide (0 < List.length realCitations)
           then fromCitations city realCitations rawParts
           else emptyResponse rawParts realCitations
       | Some matched =>
           match crossReference city realCitations rawParts matched with
           | (_, Normal answer) => answer
           | (rawParts', Throw _) => emptyResponse rawParts' realCitations
           end
       end.

End Pipeline.

End V2.


(** ** A platform to run the code on

    The theorems below hold for every platform.  To evaluate the code on
    concrete inputs, here is one: a URL parser for the plain shape
    [scheme://host/path?query#fragment] over the schemes [http], [https]
    and [ftp] (no credentials, port, escapes or dot segments; anything else
    is taken as unparsable), a JSON parser, the string conversion of JSON
    values, a small network, and a clock that stands still. *)
Module Example.

Definition lower (c : ascii) : ascii :=
  let n := nat_of_ascii c in
  if (65 <=? n)%nat && (n <=? 90)%nat then ascii_of_nat (n + 32) else c.

Definition hostChar (c : ascii) : bool :=
  let n := nat_of_ascii c in
  ((97 <=? n)%nat && (n <=? 122)%nat) || ((65 <=? n)%nat && (n <=? 90)%nat)
  || ((48 <=? n)%nat && (n <=? 57)%nat) || (n =? 45)%nat || (n =? 46)%nat.

Definition endsAuthority (c : ascii) : bool :=
  Ascii.eqb c "/" || Ascii.eqb c "?" || Ascii.eqb c "#".

Definition endsPath (c : ascii) : bool :=
  Ascii.eqb c "?" || Ascii.eqb c "#".

(** The longest prefix of [s] without a character of [stop], and the rest. *)
Fixpoint splitAt (stop : ascii -> bool) (s : string) : string * string :=
  match s with
  | EmptyString => (EmptyString, EmptyString)
  | String c rest =>
      if stop c then (EmptyString, s)
      else let '(a, b) := splitAt stop rest in (String c a, b)
  end.

Fixpoint allChars (p : ascii -> bool) (s : string) : bool :=
  match s with
  | EmptyString => true
  | String c rest => p c && allChars p rest
  end.

Fixpoint mapChars (f : ascii -> ascii) (s : string) : string :=
  match s with
  | EmptyString => EmptyString
  | String c rest => String (f c) (mapChars f rest)
  end.

Definition afterScheme (s : string) : option string :=
  if String.prefix "https://" s then Some (dropChars 8 s)
  else if String.prefix "http://" s then Some (dropChars 7 s)
  else if String.prefix "ftp://" s then Some (dropChars 6 s)
  else None.

Definition parseURL (s : string) : option parsedURL :=
  match afterScheme s with
  | None => None
  | Some rest =>
      let '(host, tail) := splitAt endsAuthority rest in
      if String.eqb host EmptyString || negb (allChars hostChar host) then None
      else
        let '(path, _) := splitAt endsPath tail in
        Some {| hostname := mapChars lower host;
                pathname := if String.eqb path EmptyString then "/" else path |}
  end.

Definition hasOwn (k : string) (props : list (string * json)) : bool :=
  match lookupProp k props with
  | Some _ => true
  | None => false
  end.

(** String conversion: an array joins its elements with commas, [null]
    elements giving the empty string; an object answers through
    [Object.prototype.toString], unless a property of its own named
    [toString] hides that method, in which case the conversion throws. *)
Fixpoint toString (v : json) : completion string :=
  match v with
  | JNull => Normal "null"
  | JBool true => Normal "true"
  | JBool false => Normal "false"
  | JNum n => Normal (pretty n)
  | JStr s => Normal s
  | JArr elems =>
      (fix joinAll (l : list json) : completion string :=
         match l with
         | [] => Normal EmptyString
         | e :: rest =>
             match (match e with JNull => Normal EmptyString | _ => toString e end) with
             | Throw x => Throw x
             | Normal s =>
                 match rest with
                 | [] => Normal s
                 | _ => match joinAll rest with
                        | Normal t => Normal (s +:+ "," +:+ t)
                        | Throw x => Throw x
                        end
                 end
             end
         end) elems
  | JObj props =>
      if hasOwn "toString" props then Throw TypeError
      else Normal "[object Object]"
  end.

(** [JSON.parse] for the texts of the examples: objects, arrays, strings
    with the single-character escapes, integers, [true], [false] and
    [null].  Fractions, exponents and [\u] escapes are taken as errors.  Of
    two properties of the same name the later value is kept, at the place
    of the first. *)
Fixpoint setProp (k : string) (v : json) (props : list (string * json))
  : list (string * json) :=
  match props with
  | [] => [(k, v)]
  | (k', v') :: rest =>
      if String.eqb k k' then (k, v) :: rest else (k', v') :: setProp k v rest
  end.

Definition isDigit (c : ascii) : bool :=
  let n := nat_of_ascii c in (48 <=? n)%nat && (n <=? 57)%nat.

Fixpoint skipWs (s : string) : string :=
  match s with
  | String c rest =>
      let n := nat_of_ascii c in
      if (n =? 32)%nat || (n =? 9)%nat || (n =? 10)%nat || (n =? 13)%nat
      then skipWs rest else s
  | EmptyString => EmptyString
  end.

Definition unescape (c : ascii) : option ascii :=
  if Ascii.eqb c "034" then Some "034"%char
  else if Ascii.eqb c "\" then Some "\"%char
  else if Ascii.eqb c "/" then Some "/"%char
  else if Ascii.eqb c "b" then Some "008"%char
  else if Ascii.eqb c "f" then Some "012"%char
  else if Ascii.eqb c "n" then Some "010"%char
  else if Ascii.eqb c "r" then Some "013"%char
  else if Ascii.eqb c "t" then Some "009"%char
  else None.

(** The characters of a string literal after its opening quote, and what
    follows the closing quote. *)
Fixpoint parseChars (s : string) : option (string * string) :=
  match s with
  | EmptyString => None
  | String c rest =>
      if Ascii.eqb c "034" then Some (EmptyString, rest)
      else if Ascii.eqb c "\" then
        match rest with
        | String e rest' =>
            match unescape e, parseChars rest' with
            | Some c', Some (body, after) => Some (String c' body, after)
            | _, _ => None
            end
        | EmptyString => None
        end
      else if (nat_of_ascii c <? 32)%nat then None
      else match parseChars rest with
           | Some (body, after) => Some (String c body, after)
           | None => None
           end
  end.

Fixpoint parseDigits (acc : Z) (s : string) : Z * string :=
  match s with
  | String c rest =>
      if isDigit c
      then parseDigits (10 * acc + Z.of_nat (nat_of_ascii c - 48))%Z rest
      else (acc, s)
  | EmptyString => (acc, s)
  end.

Definition startsFraction (s : string) : bool :=
  match s with
  | String c _ => Ascii.eqb c "." || Ascii.eqb c "e" || Ascii.eqb c "E"
  | EmptyString => false
  end.

(** An integer literal without its sign. *)
Definition parseNat (s : string) : option (Z * string) :=
  match s with
  | String c rest =>
      if Ascii.eqb c "0"
      then match rest with
           | String c' _ => if isDigit c' || startsFraction rest then None
                            else Some (0%Z, rest)
           | EmptyString => Some (0%Z, rest)
           end
      else if isDigit c
      then let '(n, after) := parseDigits 0 s in
           if startsFraction after then None else Some (n, after)
      else None
  | EmptyString => None
  end.

Fixpoint parseValue (fuel : nat) (s : string) : option (json * string) :=
  match fuel with
  | O => None
  | S fuel' =>
      match skipWs s with
      | String "{" rest =>
          match skipWs rest with
          | String "}" after => Some (JObj [], after)
          | _ => parseMembers fuel' rest []
          end
      | String "[" rest =>
          match skipWs rest with
          | String "]" after => Some (JArr [], after)
          | _ => parseElements fuel' rest []
          end
      | String "034" rest =>
          match parseChars rest with
          | Some (body, after) => Some (JStr body, after)
          | None => None
          end
      | String "-" rest =>
          match parseNat rest with
          | Some (n, after) => Some (JNum (- n), after)
          | None => None
          end
      | t =>
          if String.prefix "true" t then Some (JBool true, dropChars 4 t)
          else if String.prefix "false" t then Some (JBool false, dropChars 5 t)
          else if String.prefix "null" t then Some (JNull, dropChars 4 t)
          else match parseNat t with
               | Some (n, after) => Some (JNum n, after)
               | None => None
               end
      end
  end
with parseElements (fuel : nat) (s : string) (acc : list json)
  : option (json * string) :=
  match fuel with
  | O => None
  | S fuel' =>
      match parseValue fuel' s with
      | Some (v, after) =>
          match skipWs after with
          | String "," rest => parseElements fuel' rest (v :: acc)
          | String "]" rest => Some (JArr (rev (v :: acc)), rest)
          | _ => None
          end
      | None => None
      end
  end
with parseMembers (fuel : nat) (s : string) (acc : list (string * json))
  : option (json * string) :=
  match fuel with
  | O => None
  | S fuel' =>
      match skipWs s with
      | String "034" rest =>
          match parseChars rest with
          | Some (k, after) =>
              match skipWs after with
              | String ":" rest' =>
                  match parseValue fuel' rest' with
                  | Some (v, after') =>
                      match skipWs after' with
                      | String "," rest'' => parseMembers fuel' rest'' (setProp k v acc)
                      | String "}" rest'' => Some (JObj (setProp k v acc), rest'')
                      | _ => None
                      end
                  | None => None
                  end
              | _ => None
              end
          | None => None
          end
      | _ => None
      end
  end.

Definition parseArray (s : string) : option (list json) :=
  match parseValue (2 * String.length s + 2) s with
  | Some (JArr elems, after) =>
      match skipWs after with
      | EmptyString => Some elems
      | _ => None
      end
  | _ => None
  end.

(** The network: one host answers every request; one refuses [HEAD]
    requests and serves ranges; one answers 404; one lets every request
    time out; one lets [HEAD] requests time out and answers 500 to the
    others; nothing else can be reached. *)
Definition net (rq : request) : completion fetchResponse :=
  if String.prefix "https://example.com/" (target rq)
  then Normal {| ok := true; status := 200 |}
  else if String.prefix "https://nohead.example.org/" (target rq)
  then if String.eqb (method rq) "HEAD" then Throw TypeError
       else Normal {| ok := true; status := 206 |}
  else if String.prefix "https://gone.example.net/" (target rq)
  then Normal {| ok := false; status := 404 |}
  else if String.prefix "https://slow.example.net/" (target rq)
  then Throw AbortError
  else if String.prefix "https://flaky.example.net/" (target rq)
  then if String.eqb (method rq) "HEAD" then Throw AbortError
       else Normal {| ok := false; status := 500 |}
  else Throw TypeError.

Definition node : platform :=
  {| URL := parseURL;
     JSON_parse := parseArray;
     ToString := toString;
     fetch := fun _ => net;
     Date_now := fun _ => 1762128000000%N |}.

End Example.

(** ** Auxiliary notions for the statements *)

(** The state [st] after the pushes recorded in [d]. *)
Definition appendState (st d : loopState) : loopState :=
  {| verifiedItems := verifiedItems st ++ verifiedItems d;
     rejectedItems := rejectedItems st ++ rejectedItems d;
     probes := probes st ++ probes d |}.

(** [x] is [item] up to the two fields the verification assigns. *)
Definition sameClaim (item x : Item.t) : Prop :=
  Item.id x = Item.id item /\ Item.title x = Item.title item /\
  Item.summary x = Item.summary item /\ Item.source x = Item.source item /\
  Item.url x = Item.url item /\ Item.timestamp x = Item.timestamp item /\
  Item.category x = Item.category item /\ Item.severity x = Item.severity item /\
  Item.location x = Item.location item.

(** The verification outcomes of the specification, read off the note. *)
Inductive VerificationOutcome : Type :=
  | NoURL
  | Confirmed
  | VerifiedLive
  | RejectedDead
  | RejectedFabricated.

Definition outcomeOf (x : Item.t) : option VerificationOutcome :=
  let note := Item.verificationNote x in
  if String.eqb note noteNoURL then Some NoURL
  else if String.eqb note noteConfirmed then Some Confirmed
  else if String.eqb note noteLiveKnown || String.eqb note noteLive then Some VerifiedLive
  else if String.eqb note noteDead then Some RejectedDead
  else if String.eqb note noteFabricated then Some RejectedFabricated
  else None.

(** [it.k] when the read does not throw. *)
Definition propOf (it : json) (k : string) : option json :=
  match it with
  | JObj props => lookupProp k props
  | _ => None
  end.

(** A candidate the loop can check: it is not [null], and its url, when it
    is truthy, is a string. *)
Definition wellFormed (it : json) : bool :=
  match it with
  | JNull => false
  | _ =>
      match orDefault (propOf it "url") (JStr EmptyString) with
      | JStr _ => true
      | _ => false
      end
  end.

(** *** The turns of the loop *)

Section Turns.

Variable P : platform.
Variable city : json.
Variable cs : list Citation.t.

(** What one turn of the loop pushes, case by case. *)
Inductive turn (i : nat) (it : json) : loopState -> Prop :=
  | turn_noURL item s :
      V3.newItem P city i it = Normal item ->
      Item.url item = JStr s ->
      startsWith s "http" = false ->
      turn i it {| verifiedItems := [];
                   rejectedItems := [Item.setNote item noteNoURL];
                   probes := [] |}
  | turn_confirmed item u :
      V3.newItem P city i it = Normal item ->
      Item.url item = JStr u ->
      startsWith u "http" = true ->
      V3.urlKey P u ∈ V3.realUrlSet P cs \/ u ∈ V3.realUrlSet P cs ->
      turn i it {| verifiedItems := [Item.setNote (Item.setVerified item) noteConfirmed];
                   rejectedItems := [];
                   probes := [] |}
  | turn_probed item u (alive known : bool) :
      V3.newItem P city i it = Normal item ->
      Item.url item = JStr u ->
      startsWith u "http" = true ->
      V3.urlKey P u ∉ V3.realUrlSet P cs ->
      u ∉ V3.realUrlSet P cs ->
      known = bool_decide (V3.extractDomain P u ∈ V3.realDomainSet cs) ->
      result (V3.verifyUrl (fetch P i) u) = Normal alive ->
      turn i it
        {| verifiedItems :=
             if alive
             then [Item.setNote (Item.setVerified item)
                     (if known then noteLiveKnown else noteLive)]
             else [];
           rejectedItems :=
             if alive then []
             else [Item.setNote item (if known then noteDead else noteFabricated)];
           probes := [(i, u)] |}.

(** The turns of a run of the loop over [its], from index [i] on. *)
Inductive turns : nat -> list json -> list loopState -> Prop :=
  | turns_nil i : turns i [] []
  | turns_cons i it rest d ds :
      turn i it d -> turns (S i) rest ds -> turns i (it :: rest) (d :: ds).

End Turns.

(** What a list of turns pushed, in all. *)
Definition pushedBy (ds : list loopState) : loopState :=
  foldr (fun d acc => appendState d acc) V3.initialState ds.

(** The vocabularies the prompt asks the model to use. *)
Definition categoryVocabulary : list string :=
  ["karst_sinkholes"; "geothermal"; "water_wells"; "foundation"; "construction";
   "environment"; "infrastructure"; "traffic"; "waste"; "education"; "safety";
   "government"; "housing"; "water_sewer"; "other"].

Definition severityLevels : list string := ["critical"; "high"; "medium"; "low"].

(** Domain extraction as the specification words it: the host without a
    leading [www.] prefix. *)
Definition stripLeadingWww (host : string) : string :=
  if String.prefix "www." host then dropChars 4 host else host.


(** ** Sample data *)

Module Sample.

Definition city : json := JStr "Murfreesboro, Tennessee".

Definition quoted (s : string) : string := dquote +:+ s +:+ dquote.

(** Three search results: a page, a result whose url does not parse, and a
    result without a title. *)
Definition page : SearchResult.t :=
  {| SearchResult.title := Some "Sinkhole closes road";
     SearchResult.url := Some "https://www.example.com/news/sinkhole?ref=rss";
     SearchResult.encrypted_content := Some "EqcBCioIARgC";
     SearchResult.page_snippet := None;
     SearchResult.page_age := Some "March 3, 2025" |}.

Definition broken : SearchResult.t :=
  {| SearchResult.title := Some "Cached copy";
     SearchResult.url := Some "https://";
     SearchResult.encrypted_content := None;
     SearchResult.page_snippet := Some "A cached copy of the page.";
     SearchResult.page_age := None |}.

Definition untitled : SearchResult.t :=
  {| SearchResult.title := None;
     SearchResult.url := Some "https://example.com/b";
     SearchResult.encrypted_content := None;
     SearchResult.page_snippet := None;
     SearchResult.page_age := None |}.

Definition results : list block :=
  [WebSearchToolResult [WebSearchResult page; WebSearchResult broken]].

Definition citations : list Citation.t :=
  Eval vm_compute in V3.extractCitations Example.node results.

(** The candidates, as [JSON.parse] returns them. *)
Definition confirmedCandidate : json :=
  JObj [("title", JStr "Sinkhole closes road");
        ("url", JStr "https://www.example.com/news/sinkhole");
        ("category", JStr "karst_sinkholes");
        ("severity", JStr "high")].

Definition linklessCandidate : json :=
  JObj [("title", JStr "Neighbors report cracks")].

Definition inventedCandidate : json :=
  JObj [("title", JStr "Gone"); ("url", JStr "https://gone.example.net/x")].

Definition sameSiteCandidate : json :=
  JObj [("title", JStr "More"); ("url", JStr "https://example.com/other")].

Definition garbledCandidate : json :=
  JObj [("title", JStr "Odd"); ("url", JStr "https://exa mple.com/a")].

Definition candidates : list json :=
  [confirmedCandidate; linklessCandidate; inventedCandidate; sameSiteCandidate;
   garbledCandidate].

(** The same candidates, as the model writes them. *)
Definition member (k v : string) : string := quoted k +:+ ": " +:+ quoted v.

Definition candidatesText : string :=
  "[{" +:+ member "title" "Sinkhole closes road" +:+ ", " +:+
           member "url" "https://www.example.com/news/sinkhole" +:+ ", " +:+
           member "category" "karst_sinkholes" +:+ ", " +:+
           member "severity" "high" +:+ "}," +:+ newline +:+
  " {" +:+ member "title" "Neighbors report cracks" +:+ "}," +:+ newline +:+
  " {" +:+ member "title" "Gone" +:+ ", " +:+
           member "url" "https://gone.example.net/x" +:+ "}," +:+ newline +:+
  " {" +:+ member "title" "More" +:+ ", " +:+
           member "url" "https://example.com/other" +:+ "}," +:+ newline +:+
  " {" +:+ member "title" "Odd" +:+ ", " +:+
           member "url" "https://exa mple.com/a" +:+ "}]".

(** The answer of the model that holds them. *)
Definition answerBlocks : list block :=
  results ++ [TextBlock ("```json" +:+ newline +:+ candidatesText +:+ newline +:+ "```")].

(** The item the loop builds for a candidate that gives no summary, source,
    timestamp or location. *)
Definition fresh (id title url category severity : string) : Item.t :=
  {| Item.id := id;
     Item.title := JStr title;
     Item.summary := JStr EmptyString;
     Item.source := JStr "Unknown";
     Item.url := JStr url;
     Item.timestamp := JStr "Recent";
     Item.category := JStr category;
     Item.severity := JStr severity;
     Item.location := city;
     Item.verified := false;
     Item.verificationNote := EmptyString |}.

Definition confirmedItem : Item.t :=
  fresh "l1762128000000_0" "Sinkhole closes road"
    "https://www.example.com/news/sinkhole" "karst_sinkholes" "high".

Definition linklessItem : Item.t :=
  fresh "l1762128000000_1" "Neighbors report cracks" EmptyString "other" "medium".

Definition garbledItem : Item.t :=
  fresh "l1762128000000_4" "Odd" "https://exa mple.com/a" "other" "medium".

Definition stateOf (run : completion loopState) : loopState :=
  match run with
  | Normal st => st
  | Throw _ => V3.initialState
  end.

Definition final : loopState :=
  Eval vm_compute in
  stateOf (V3.checkItems Example.node city citations 0 candidates V3.initialState).


(** The transcript before and after the cross-reference of that answer,
    and the answer of the handler. *)
Definition before : list string :=
  Eval vm_compute in
  V3.transcript (filter (fun b => V3.isSearchPart b = true) answerBlocks) citations
    (omap V3.textOf answerBlocks).

Definition after : list string :=
  Eval vm_compute in
  (V3.crossReference Example.node city citations before candidatesText).1.

Definition answer : searchResponse :=
  Eval vm_compute in V3.search Example.node city answerBlocks.

(** An answer of the model in the requested format, with a category and a
    severity of its own making. *)
Definition offVocabularyText : string :=
  "```json" +:+ newline +:+
  "[{" +:+ member "title" "Sinkhole closes road" +:+ ", " +:+
           member "url" "https://www.example.com/news/sinkhole" +:+ ", " +:+
           member "category" "ufo_sightings" +:+ ", " +:+
           member "severity" "catastrophic" +:+ "}]" +:+ newline +:+
  "```".

Definition offVocabularyAnswer : list block :=
  results ++ [TextBlock offVocabularyText].

Definition offVocabularyItem : Item.t :=
  Item.setNote
    (Item.setVerified
       (fresh "l1762128000000_0" "Sinkhole closes road"
          "https://www.example.com/news/sinkhole" "ufo_sightings" "catastrophic"))
    noteConfirmed.

(** An answer in prose, after a search whose results are a page and a
    result without a title. *)
Definition proseAnswer : list block :=
  [WebSearchToolResult [WebSearchResult page; WebSearchResult untitled];
   TextBlock "Here is what I found about the sinkhole."].

Definition proseAnswerUntitled : list block :=
  [WebSearchToolResult [WebSearchResult untitled];
   TextBlock "I found one page about this."].

(** The no-results answer of the model, after a search that returned the
    page. *)
Definition noResultsAnswer : list block :=
  [WebSearchToolResult [WebSearchResult page];
   TextBlock ("{" +:+ quoted "no_results" +:+ ": true, " +:+
              member "searched_for" "Murfreesboro sinkhole" +:+ "}")].

(** The scenarios of the specification: one citation [A]; the candidates
    of scenarios A, B and D. *)
Definition scenarioResults : list block :=
  [WebSearchToolResult
     [WebSearchResult {| SearchResult.title := Some "A";
                         SearchResult.url := Some "https://example.com/a";
                         SearchResult.encrypted_content := None;
                         SearchResult.page_snippet := None;
                         SearchResult.page_age := None |}]].

Definition scenarioA : list block :=
  scenarioResults ++
  [TextBlock ("[{" +:+ member "url" "https://example.com/a" +:+ ", " +:+
              member "title" "A" +:+ "}]")].

Definition scenarioB : list block :=
  scenarioResults ++
  [TextBlock ("[{" +:+ member "url" EmptyString +:+ ", " +:+
              member "title" "B" +:+ "}]")].

Definition scenarioC : list block :=
  scenarioResults ++ [TextBlock (quoted "no_results")].

Definition scenarioD : list block :=
  scenarioResults ++
  [TextBlock ("[{" +:+ member "url" "https://flaky.example.net/d" +:+ ", " +:+
              member "title" "D" +:+ "}]")].

(** A document served over FTP, cited by the search and by the model. *)
Definition ftpCitation : Citation.t :=
  {| Citation.title := "Annual report";
     Citation.url := "ftp://ftp.example.com/report.pdf";
     Citation.snippet := EmptyString;
     Citation.source := "ftp.example.com";
     Citation.publishedDate := EmptyString |}.

Definition ftpCandidate : json :=
  JObj [("title", JStr "Annual report");
        ("url", JStr "ftp://ftp.example.com/report.pdf")].

Definition ftpRejected : Item.t :=
  Item.setNote
    (fresh "l1762128000000_0" "Annual report" "ftp://ftp.example.com/report.pdf"
       "other" "medium")
    noteNoURL.

(** The result whose url does not parse, cited by the model as it is. *)
Definition brokenResults : list block :=
  [WebSearchToolResult [WebSearchResult broken]].

Definition brokenCandidate : json :=
  JObj [("title", JStr "Cached copy"); ("url", JStr "https://")].

Definition brokenConfirmed : Item.t :=
  Item.setNote
    (Item.setVerified (fresh "l1762128000000_0" "Cached copy" "https://" "other" "medium"))
    noteConfirmed.

End Sample.

(** ** The rate limiter *)

Module RateLimit.

(** A value of the [rateLimits] map. *)
Record record : Type := {
  windowStart : Z;
  count : nat
}.

Section Limiter.

(** The keys of the map: what the handler finds as the address of the
    client. *)
Context {K : Type} `{Countable K}.

(** [checkRateLimit(ip)] at the time [now]: the answer and the map as the
    call leaves it. *)
Definition checkRateLimit (rateLimits : gmap K record) (ip : K) (now : Z)
  : bool * gmap K record :=
  match rateLimits !! ip with
  | None => (true, <[ip := {| windowStart := now; count := 1 |}]> rateLimits)
  | Some r =>
      if bool_decide (now - windowStart r > 60000)%Z
      then (true, <[ip := {| windowStart := now; count := 1 |}]> rateLimits)
      else if bool_decide (5 <= count r)
      then (false, rateLimits)
      else (true, <[ip := {| windowStart := windowStart r;
                             count := S (count r) |}]> rateLimits)
  end.

(** The body of the [setInterval] callback, run at the time [now]. *)
Definition prune (rateLimits : gmap K record) (now : Z) : gmap K record :=
  filter (fun entry => ~ (now - windowStart entry.2 > 120000)%Z) rateLimits.

(** A series of calls, each with its key and its time: the answers, in
    order, and the final map. *)
Fixpoint serve (rateLimits : gmap K record) (calls : list (K * Z))
  : list bool * gmap K record :=
  match calls with
  | [] => ([], rateLimits)
  | (ip, now) :: rest =>
      let '(allowed, rateLimits') := checkRateLimit rateLimits ip now in
      let '(answers, final) := serve rateLimits' rest in
      (allowed :: answers, final)
  end.

(** The answers given to the calls of [ip] among [calls]. *)
Fixpoint answersTo (ip : K) (calls : list (K * Z)) (answers : list bool) : list bool :=
  match calls, answers with
  | (ip', _) :: calls', a :: answers' =>
      if decide (ip' = ip) then a :: answersTo ip calls' answers'
      else answersTo ip calls' answers'
  | _, _ => []
  end.

(** How many calls were let through. *)
Definition allowedCount (answers : list bool) : nat :=
  List.length (filter (fun a => a = true) answers).

(** What happens to the map, in order: calls of [checkRateLimit] and runs
    of the cleanup. *)
Inductive event : Type :=
  | Call (ip : K) (now : Z)
  | Cleanup (now : Z).

Definition timeOf (e : event) : Z :=
  match e with
  | Call _ now => now
  | Cleanup now => now
  end.

Definition callOf (e : event) : option (K * Z) :=
  match e with
  | Call ip now => Some (ip, now)
  | Cleanup _ => None
  end.

(** The answers to the calls among [events], in order, and the final map. *)
Fixpoint run (rateLimits : gmap K record) (events : list event)
  : list bool * gmap K record :=
  match events with
  | [] => ([], rateLimits)
  | Call ip now :: rest =>
      let '(allowed, rateLimits') := checkRateLimit rateLimits ip now in
      let '(answers, final) := run rateLimits' rest in
      (allowed :: answers, final)
  | Cleanup now :: rest => run (prune rateLimits now) rest
  end.

(** The times of [events] never go back. *)
Fixpoint clockAdvances (start : Z) (events : list event) : Prop :=
  match events with
  | [] => True
  | e :: rest => (start <= timeOf e)%Z /\ clockAdvances (timeOf e) rest
  end.

(** [m1] is [m2] without some records whose window was over at [t]. *)
Definition cleaned (t : Z) (m1 m2 : gmap K record) : Prop :=
  forall ip,
    m1 !! ip = m2 !! ip \/
    (m1 !! ip = None /\
     exists r, m2 !! ip = Some r /\ (t - windowStart r > 60000)%Z).

(** The counts of a map are between one and five. *)
Definition countsInRange (m : gmap K record) : Prop :=
  map_Forall (fun _ r => 1 <= count r <= 5) m.

End Limiter.

End RateLimit.

(** ** The TDEC data store *)

Module Tdec.

(** One of the five data sets of [tdecStore]. *)
Record dataset : Type := {
  records : list json;
  lastUpdated : option string;
  statewide : json
}.

Definition emptyDataset : dataset :=
  {| records := []; lastUpdated := None; statewide := JNum 0 |}.

(** An object whose keys are kept in the order of their first assignment. *)
Fixpoint assign {A} (k : string) (v : A) (obj : list (string * A)) : list (string * A) :=
  match obj with
  | [] => [(k, v)]
  | (k', v') :: rest =>
      if String.eqb k k' then (k, v) :: rest else (k', v') :: assign k v rest
  end.

Fixpoint member {A} (k : string) (obj : list (string * A)) : option A :=
  match obj with
  | [] => None
  | (k', v) :: rest => if String.eqb k k' then Some v else member k rest
  end.

Definition tdecStore : list (string * dataset) :=
  [("complaints", emptyDataset); ("permits", emptyDataset);
   ("inspections", emptyDataset); ("wells", emptyDataset);
   ("drillers", emptyDataset)].

Definition validTypes : list string :=
  ["complaints"; "permits"; "inspections"; "wells"; "drillers"].

(** [process.env.UPLOAD_KEY || 'civicsentinel2026'] *)
Definition UPLOAD_KEY (env : option string) : string := optOr env "civicsentinel2026".

(** The four members of the body that the upload handler reads; a member
    the body does not have is [None]. *)
Record uploadBody : Type := {
  key : option json;
  type : option json;
  body_records : option json;
  body_statewide : option json
}.

(** What the client of [/api/tdec-upload] gets: status 403, status 400, the
    success object, or the answer of the framework to a handler that
    throws. *)
Inductive uploadAnswer : Type :=
  | Forbidden (error : string)
  | BadRequest (error : string)
  | Stored (type : string) (stored : nat) (statewide : json)
  | Thrown (e : exn).

Section Handlers.

Variable P : platform.

(** The handler of [POST /api/tdec-upload] from the destructured body on,
    with the upload key in force and the time stamp
    [new Date().toISOString()] of the moment. *)
Definition upload (uploadKey stamp : string) (store : list (string * dataset))
    (body : uploadBody) : uploadAnswer * list (string * dataset) :=
  match key body with
  | Some (JStr k) =>
      if String.eqb k uploadKey then
        match type body with
        | Some (JStr ty) =>
            if existsb (String.eqb ty) validTypes then
              match body_records body with
              | Some (JArr recs) =>
                  let count := JNum (Z.of_nat (List.length recs)) in
                  let store' :=
                    assign ty {| records := recs;
                                 lastUpdated := Some stamp;
                                 statewide := orDefault (body_statewide body) count |}
                      store in
                  match ToString P (orDefault (body_statewide body) (JStr "?")) with
                  | Normal _ =>
                      (Stored ty (List.length recs)
                         (orDefault (body_statewide body) count), store')
                  | Throw e => (Thrown e, store')
                  end
              | _ => (BadRequest "Records must be an array", store)
              end
            else (BadRequest ("Invalid type. Use: " +:+ join ", " validTypes), store)
        | _ => (BadRequest ("Invalid type. Use: " +:+ join ", " validTypes), store)
        end
      else (Forbidden "Invalid upload key", store)
  | _ => (Forbidden "Invalid upload key", store)
  end.

(** A series of uploads, each with its time stamp. *)
Fixpoint uploads (uploadKey : string) (store : list (string * dataset))
    (requests : list (string * uploadBody)) : list uploadAnswer * list (string * dataset) :=
  match requests with
  | [] => ([], store)
  | (stamp, body) :: rest =>
      let '(answer, store') := upload uploadKey stamp store body in
      let '(answers, final) := uploads uploadKey store' rest in
      (answer :: answers, final)
  end.

(** The handler from the request on.  [req.body] is [None] when the
    request reached the handler without a parsed body ([undefined]);
    destructuring it then throws, before anything is looked at. *)
Definition handleUpload (uploadKey stamp : string) (store : list (string * dataset))
    (reqBody : option uploadBody) : uploadAnswer * list (string * dataset) :=
  match reqBody with
  | None => (Thrown TypeError, store)
  | Some body => upload uploadKey stamp store body
  end.

End Handlers.

(** An entry of the [datasets] object of [/api/tdec-stats]. *)
Record datasetStats : Type := {
  local : nat;
  stats_statewide : json;
  stats_lastUpdated : option string
}.

(** The handler of [GET /api/tdec-stats]: [totalLocalRecords] and
    [datasets]. *)
Definition tdecStats (store : list (string * dataset))
  : nat * list (string * datasetStats) :=
  foldl (fun '(total, stats) '(ty, d) =>
           (total + List.length (records d),
            assign ty {| local := List.length (records d);
                         stats_statewide := statewide d;
                         stats_lastUpdated := lastUpdated d |} stats))
        (0, []) store.

(** [tdecTotal] of the health check:
    [Object.values(tdecStore).reduce((s, v) => s + v.records.length, 0)] *)
Definition tdecTotal (store : list (string * dataset)) : nat :=
  foldl (fun s v => s + List.length (records v)) 0 (map snd store).

(** An item of the TDEC feed. *)
Module FeedItem.
Record t : Type := {
  id : string;
  title : string;
  summary : string;
  source : string;
  url : string;
  timestamp : json;
  category : string;
  severity : string;
  location : string;
  verified : bool;
  verificationNote : string;
  dataSource : string;
  rawRecord : json
}.
End FeedItem.

Section Feed.

Variable P : platform.

(** [JSON.stringify] on a value that [JSON.parse] produced, and
    [String.prototype.toLowerCase]. *)
Variable JSON_stringify : json -> string.
Variable toLowerCase : string -> string.

(** [/a|b|c/.test(text)] for words without special characters. *)
Definition testAny (words : list string) (text : string) : bool :=
  existsb (includes text) words.

Definition categoryOf (text : string) : string :=
  if includes text "geothermal" then "geothermal"
  else if testAny ["sinkhole"; "karst"; "subsidence"] text then "karst_sinkholes"
  else if testAny ["well"; "groundwater"; "pump"] text then "water_wells"
  else if testAny ["erosion"; "sediment"; "stormwater"; "construction"] text
  then "construction"
  else if testAny ["sewage"; "overflow"] text then "environment"
  else "environment".

(** [r._priority === 'HIGH'] *)
Definition isHigh (priority : option json) : bool :=
  match priority with
  | Some (JStr s) => String.eqb s "HIGH"
  | _ => false
  end.

(** [cond ? `label${v}` : ''] *)
Definition labelled (label : string) (v : json) : completion string :=
  if truthy v then s ← ToString P v; mret (label +:+ s)
  else mret EmptyString.

(** The callback of [records.map], for the record [r] at index [i].  None
    of the property names it reads is defined on a prototype, so that
    [getProp] reads them as it reads the names of a candidate. *)
Definition feedItem (sourceType : string) (i : nat) (r : json)
  : completion FeedItem.t :=
  let text := toLowerCase (JSON_stringify r) in
  let category := categoryOf text in
  priority ← getProp r "_priority";
  let severity :=
    if isHigh priority then "high"
    else if testAny ["explosion"; "contamination"; "spill"; "illicit"] text
    then "high" else "medium" in
  rID ← getProp r "ID";
  permitNo ← getProp r "Permit No";
  licenseNo ← getProp r "License No";
  let id := orDefault rID (orDefault permitNo
              (orDefault licenseNo (JStr ("tdec_" +:+ pretty i)))) in
  rSite ← getProp r "Site";
  siteName ← getProp r "Site Name";
  siteID ← getProp r "Site ID";
  let site := orDefault rSite (orDefault siteName
                (orDefault siteID (JStr EmptyString))) in
  rCounty ← getProp r "County";
  let county := orDefault rCounty (JStr EmptyString) in
  rConcerning ← getProp r "Concerning";
  rStatus ← getProp r "Status";
  let concerning := orDefault rConcerning (orDefault rStatus (JStr EmptyString)) in
  received ← getProp r "Received";
  inspected ← getProp r "Inspected";
  issuance ← getProp r "Issuance";
  completed ← getProp r "Date Completed";
  let dateStr := orDefault received (orDefault inspected
                   (orDefault issuance (orDefault completed (JStr EmptyString)))) in
  idText ← ToString P id;
  title ←
    (if truthy concerning
     then c ← ToString P concerning; mret ("TDEC: " +:+ c)
     else s ← ToString P (if truthy site then site else id);
          mret ("TDEC " +:+ sourceType +:+ ": " +:+ s));
  siteLine ← labelled "Site: " site;
  countyLine ← labelled "County: " county;
  statusLine ← labelled "Status: " (orDefault rStatus JNull);
  programArea ← getProp r "Program Area";
  programLine ← labelled "Program: " (orDefault programArea JNull);
  permitLine ← labelled "Permit: " (orDefault permitNo JNull);
  location ←
    (if truthy county
     then c ← ToString P county; mret (c +:+ " County, TN")
     else mret "Tennessee");
  mret {| FeedItem.id := "tdec_" +:+ sourceType +:+ "_" +:+ idText;
          FeedItem.title := title;
          FeedItem.summary :=
            join ". " (filter (fun line => line <> EmptyString)
                         [siteLine; countyLine; statusLine; programLine; permitLine])
            +:+ ".";
          FeedItem.source := "TDEC " +:+ sourceType;
          FeedItem.url := "https://dataviewers.tdec.tn.gov/dataviewers/";
          FeedItem.timestamp := dateStr;
          FeedItem.category := category;
          FeedItem.severity := severity;
          FeedItem.location := location;
          FeedItem.verified := true;
          FeedItem.verificationNote :=
            "Official TDEC public record — scraped from government database";
          FeedItem.dataSource := "tdec_scraper";
          FeedItem.rawRecord := r |}.

(** [records.map((r, i) => ...)] *)
Fixpoint feedItemsFrom (sourceType : string) (i : nat) (records : list json)
  : completion (list FeedItem.t) :=
  match records with
  | [] => mret []
  | r :: rest =>
      item ← feedItem sourceType i r;
      items ← feedItemsFrom sourceType (S i) rest;
      mret (item :: items)
  end.

Definition tdecToFeedItems (records : list json) (sourceType : string)
  : completion (list FeedItem.t) :=
  feedItemsFrom sourceType 0 records.

End Feed.

End Tdec.

(** The categories and severities that the TDEC feed uses. *)
Definition feedCategories : list string :=
  ["environment"; "geothermal"; "karst_sinkholes"; "water_wells"; "construction"].

Definition feedSeverities : list string := ["medium"; "high"].

Definition statsOf (d : Tdec.dataset) : Tdec.datasetStats :=
  {| Tdec.local := List.length (Tdec.records d);
     Tdec.stats_statewide := Tdec.statewide d;
     Tdec.stats_lastUpdated := Tdec.lastUpdated d |}.

(** The cases of an upload. *)
Inductive uploadCase (P : platform) (uploadKey stamp : string)
    (store : list (string * Tdec.dataset)) (body : Tdec.uploadBody)
  : Tdec.uploadAnswer -> list (string * Tdec.dataset) -> Prop :=
  | upload_forbidden :
      Tdec.key body <> Some (JStr uploadKey) ->
      uploadCase P uploadKey stamp store body (Tdec.Forbidden "Invalid upload key") store
  | upload_bad_type :
      Tdec.key body = Some (JStr uploadKey) ->
      (forall ty, Tdec.type body = Some (JStr ty) -> ty ∉ Tdec.validTypes) ->
      uploadCase P uploadKey stamp store body
        (Tdec.BadRequest ("Invalid type. Use: " +:+ join ", " Tdec.validTypes)) store
  | upload_bad_records ty :
      Tdec.key body = Some (JStr uploadKey) ->
      Tdec.type body = Some (JStr ty) -> ty ∈ Tdec.validTypes ->
      (forall recs, Tdec.body_records body <> Some (JArr recs)) ->
      uploadCase P uploadKey stamp store body
        (Tdec.BadRequest "Records must be an array") store
  | upload_stored ty recs answer :
      Tdec.key body = Some (JStr uploadKey) ->
      Tdec.type body = Some (JStr ty) -> ty ∈ Tdec.validTypes ->
      Tdec.body_records body = Some (JArr recs) ->
      answer = match ToString P (orDefault (Tdec.body_statewide body) (JStr "?")) with
               | Normal _ =>
                   Tdec.Stored ty (List.length recs)
                     (orDefault (Tdec.body_statewide body)
                        (JNum (Z.of_nat (List.length recs))))
               | Throw e => Tdec.Thrown e
               end ->
      uploadCase P uploadKey stamp store body answer
        (Tdec.assign ty
           {| Tdec.records := recs;
              Tdec.lastUpdated := Some stamp;
              Tdec.statewide :=
                orDefault (Tdec.body_statewide body)
                  (JNum (Z.of_nat (List.length recs))) |} store).

(** ** The content as the API sends it *)

(** [extractCitations] once more, on blocks whose content need not be a
    list: the content of a tool result is absent, or the list of its
    items, or, when the search failed, an error object.  The error object
    is truthy and cannot be iterated, so that the [for...of] over it
    throws. *)
Module Raw.

Inductive toolContent : Type :=
  | NoContent
  | Results (items : list resultItem)
  | ErrorObject.

Inductive rawBlock : Type :=
  | RawText (text : string)
  | RawToolResult (content : toolContent)
  | RawOther.

Section Citations.

Variable P : platform.

(** The outer loop, with [citations] as it stands. *)
Fixpoint extractFrom (citations : list Citation.t) (content : list rawBlock)
  : completion (list Citation.t) :=
  match content with
  | [] => Normal citations
  | RawToolResult (Results inner) :: rest =>
      extractFrom (citations ++ V3.citationsOfItems P inner) rest
  | RawToolResult ErrorObject :: _ => Throw TypeError
  | _ :: rest => extractFrom citations rest
  end.

Definition extractCitations (content : list rawBlock) : completion (list Citation.t) :=
  extractFrom [] content.

End Citations.

(** The block of the pipeline for a block whose content is a list or is
    absent. *)
Definition blockOf (b : rawBlock) : block :=
  match b with
  | RawText text => TextBlock text
  | RawToolResult (Results inner) => WebSearchToolResult inner
  | RawToolResult _ => WebSearchToolResult []
  | RawOther => OtherBlock
  end.

End Raw.

(** ** Auxiliary notions for the statements on the handler *)

(** [rawParts] of the handler at the point where the text is examined. *)
Definition rawPartsOf (P : platform) (allContent : list block) : list string :=
  V3.transcript (filter (fun b => V3.isSearchPart b = true) allContent)
    (V3.extractCitations P allContent) (omap V3.textOf allContent).

(** The search results of the content, in the order of the blocks. *)
Fixpoint resultsOf (content : list block) : list SearchResult.t :=
  match content with
  | [] => []
  | WebSearchToolResult inner :: rest =>
      omap (fun r => match r with WebSearchResult r => Some r | OtherItem => None end) inner
      ++ resultsOf rest
  | _ :: rest => resultsOf rest
  end.

(** The character [c] occurs in [s]. *)
Fixpoint occursIn (c : ascii) (s : string) : bool :=
  match s with
  | EmptyString => false
  | String c' rest => Ascii.eqb c' c || occursIn c rest
  end.

(** The id the loop gives the candidate at index [i], and the id of the
    [i]-th item synthesized from the citations. *)
Definition loopId (P : platform) (i : nat) : string :=
  "l" +:+ pretty (Date_now P i) +:+ "_" +:+ pretty i.
Definition synthesizedId (P : platform) (i : nat) : string :=
  "v" +:+ pretty (Date_now P i) +:+ "_" +:+ pretty i.

(** Two items that differ by the note at most. *)
Definition sameButNote (x y : Item.t) : Prop :=
  sameClaim x y /\ Item.verified x = Item.verified y.

(** Two states of the loop that differ by the notes of the items at most. *)
Definition sameButNotes (st st' : loopState) : Prop :=
  probes st = probes st' /\
  Forall2 sameButNote (verifiedItems st) (verifiedItems st') /\
  Forall2 sameButNote (rejectedItems st) (rejectedItems st').

(** Two runs of the loop that end alike: both complete, in states that
    differ by the notes at most, or both throw the same exception. *)
Definition agree (r r' : completion loopState) : Prop :=
  match r, r' with
  | Normal st, Normal st' => sameButNotes st st'
  | Throw e, Throw e' => e = e'
  | _, _ => False
  end.

(** The rejected section of the transcript for the lines [lines]. *)
Definition rejectedSection (lines : list string) : list string :=
  match lines with
  | [] => []
  | _ => (newline +:+ "--- REJECTED (FAILED VERIFICATION) ---") :: lines
  end.

(** ** Sample data for the limiter, the store and the feed *)

Module Fixture.

(** A client with three calls counted in the window opened at 1000 ms. *)
Definition client : string := "203.0.113.7".

Definition counted : RateLimit.record :=
  {| RateLimit.windowStart := 1000; RateLimit.count := 3 |}.

Definition busy : gmap string RateLimit.record := {[ client := counted ]}.

Definition laterCalls : list Z := [2000; 30000; 61000; 61000]%Z.

Definition burst : list Z := [10; 20; 30; 40; 50; 60000]%Z.

Definition day : list (RateLimit.event (K := string)) :=
  [RateLimit.Call client 1500; RateLimit.Cleanup 130000;
   RateLimit.Call client 130001; RateLimit.Cleanup 300000;
   RateLimit.Call "198.51.100.4" 300001].

(** Two uploads of wells: one with a statewide figure, one whose statewide
    member hides [toString]. *)
Definition stamp : string := "2026-01-15T09:30:00.000Z".

Definition well (id county : string) : json :=
  JObj [("ID", JStr id); ("County", JStr county); ("Status", JStr "Active")].

Definition wells : list json := [well "W-1" "Rutherford"; well "W-2" "Wilson"].

Definition goodUpload : Tdec.uploadBody :=
  {| Tdec.key := Some (JStr "civicsentinel2026");
     Tdec.type := Some (JStr "wells");
     Tdec.body_records := Some (JArr wells);
     Tdec.body_statewide := Some (JNum 1200) |}.

Definition oddUpload : Tdec.uploadBody :=
  {| Tdec.key := Some (JStr "civicsentinel2026");
     Tdec.type := Some (JStr "wells");
     Tdec.body_records := Some (JArr wells);
     Tdec.body_statewide := Some (JObj [("toString", JNum 1)]) |}.

(** [JSON.stringify] for values whose strings hold nothing to escape, and
    [toLowerCase] on ASCII letters. *)
Fixpoint stringify (v : json) : string :=
  match v with
  | JNull => "null"
  | JBool true => "true"
  | JBool false => "false"
  | JNum n => pretty n
  | JStr s => dquote +:+ s +:+ dquote
  | JArr elems => "[" +:+ join "," (map stringify elems) +:+ "]"
  | JObj props =>
      "{" +:+ join "," (map (fun '(k, x) => dquote +:+ k +:+ dquote +:+ ":" +:+ stringify x)
                          props) +:+ "}"
  end.

Definition toLowerCase (s : string) : string := Example.mapChars Example.lower s.

Definition complaint : json :=
  JObj [("ID", JStr "C-17"); ("Concerning", JStr "Sinkhole near a well");
        ("County", JStr "Rutherford"); ("_priority", JStr "HIGH")].

Definition permit : json :=
  JObj [("Permit No", JStr "TNR100"); ("Site Name", JStr "Quarry Road");
        ("Status", JStr "Issued")].

Definition feed : list Tdec.FeedItem.t :=
  Eval vm_compute in
  match Tdec.tdecToFeedItems Example.node stringify toLowerCase [complaint; permit]
          "complaints" with
  | Normal items => items
  | Throw _ => []
  end.

(** An answer of the model whose array holds [null]. *)
Definition nullAnswer : list block :=
  Sample.results ++ [TextBlock "Found: [null]"].

(** The citations of the sample under another domain. *)
Definition relabelled : list Citation.t :=
  map (fun c => {| Citation.title := Citation.title c;
                   Citation.url := Citation.url c;
                   Citation.snippet := Citation.snippet c;
                   Citation.source := "unlisted.example";
                   Citation.publishedDate := Citation.publishedDate c |})
      Sample.citations.

(** An answer whose only candidate has the token of an answer without
    results as its title. *)
Definition tokenInside : list block :=
  Sample.results ++
  [TextBlock ("[{" +:+ Sample.member "title" "no_results" +:+ ", " +:+
              Sample.member "url" "https://www.example.com/news/sinkhole" +:+ "}]")].

(** An answer with a candidate that is confirmed and one without url whose
    title hides [toString]. *)
Definition unprintableText : string :=
  "[{" +:+ Sample.member "url" "https://www.example.com/news/sinkhole" +:+ "}, {" +:+
  Sample.quoted "title" +:+ ": {" +:+ Sample.quoted "toString" +:+ ": 1}}]".

Definition unprintableAnswer : list block :=
  Sample.results ++ [TextBlock unprintableText].

Definition unprintableCandidates : list json :=
  Eval vm_compute in
  match Example.parseArray unprintableText with
  | Some parsedItems => parsedItems
  | None => []
  end.

Definition unprintableFinal : loopState :=
  Eval vm_compute in
  Sample.stateOf (V3.checkItems Example.node Sample.city Sample.citations 0
                    unprintableCandidates V3.initialState).

Definition unprintableItem : Item.t :=
  Eval vm_compute in
  match rejectedItems unprintableFinal with
  | r :: _ => r
  | [] => Sample.linklessItem
  end.

(** Answers whose array stops the loop: a candidate without url followed
    by [null]; a candidate that is confirmed followed by [null]; a
    candidate that is confirmed followed by one whose url is a number. *)
Definition linklessThenNullText : string :=
  "[{" +:+ Sample.member "title" "B" +:+ ", " +:+ Sample.member "url" EmptyString +:+
  "}, null]".

Definition linklessThenNull : list block :=
  Sample.results ++ [TextBlock linklessThenNullText].

Definition linklessB : json := JObj [("title", JStr "B"); ("url", JStr EmptyString)].

Definition rejectedB : Item.t :=
  Item.setNote (Sample.fresh "l1762128000000_0" "B" EmptyString "other" "medium")
    noteNoURL.

Definition confirmedThenNullText : string :=
  "[{" +:+ Sample.member "url" "https://www.example.com/news/sinkhole" +:+ "}, null]".

Definition confirmedThenNull : list block :=
  Sample.results ++ [TextBlock confirmedThenNullText].



Definition bareConfirmed : json :=
  JObj [("url", JStr "https://www.example.com/news/sinkhole")].

Definition acceptedBare : Item.t :=
  Item.setNote
    (Item.setVerified
       (Sample.fresh "l1762128000000_0" EmptyString
          "https://www.example.com/news/sinkhole" "other" "medium"))
    noteConfirmed.

(** A candidate whose url starts with [http] and has another scheme. *)
Definition httpxCandidate : json := JObj [("url", JStr "httpx://example.com/a")].

Definition httpxRejected : Item.t :=
  Item.setNote
    (Sample.fresh "l1762128000000_0" EmptyString "httpx://example.com/a" "other" "medium")
    noteFabricated.

End Fixture.

(** ** Tactics *)

Ltac frame_leaf :=
  unfold accept, reject, probing, appendState; simpl;
  rewrite ?app_nil_r; reflexivity.


Ltac bind_inv H :=
  repeat match type of H with
         | (mbind _ ?c) = Normal _ =>
             let E := fresh "Hbind" in
             destruct c eqn:E; [cbn [mbind completion_bind] in H|discriminate H]
         end.


(** ** The live probe *)

Lemma try_catch_Normal {A} (a : A) h : try_catch (Normal a) h = Normal a.
Proof. reflexivity. Qed.

Lemma bind_Normal {A B} (a : A) (k : A -> completion B) :
  (Normal a ≫= k) = k a.
Proof. reflexivity. Qed.

Lemma bind_Throw {A B} e (k : A -> completion B) :
  (Throw e ≫= k) = Throw e.
Proof. reflexivity. Qed.

Lemma orb3_true (a b c : bool) :
  a || b || c = true <-> a = true \/ b = true \/ c = true.
Proof. destruct a, b, c; simpl; intuition congruence. Qed.

Lemma verifyUrl_spec (net : request -> completion fetchResponse) (u : string) :
  exists alive : bool,
    V3.verifyUrl net u
    = Traced (V3.headRequest u ::
              match net (V3.headRequest u) with
              | Normal _ => []
              | Throw _ => [V3.rangeRequest u]
              end)
             (Normal alive) /\
    (alive = true <->
       (exists r, net (V3.headRequest u) = Normal r /\
                  (ok r = true \/ status r = 403%N \/ status r = 405%N))
       \/ (exists e r2, net (V3.headRequest u) = Throw e /\
                        net (V3.rangeRequest u) = Normal r2 /\
                        (ok r2 = true \/ status r2 = 206%N \/ status r2 = 403%N))).
Proof.
  unfold V3.verifyUrl, await.
  destruct (net (V3.headRequest u)) as [r|e] eqn:Hhead; simpl.
  - eexists; split; [reflexivity|].
    rewrite orb3_true, !N.eqb_eq. split.
    + intros H. left. exists r. auto.
    + intros [(r' & Hr & H)|(e & r2 & He & _)]; [|discriminate].
      injection Hr as <-. exact H.
  - destruct (net (V3.rangeRequest u)) as [r2|e2] eqn:Hrange; simpl.
    + eexists; split; [reflexivity|].
      rewrite orb3_true, !N.eqb_eq. split.
      * intros H. right. exists e, r2. auto.
      * intros [(r' & Hr & _)|(e' & r2' & _ & Hr & H)]; [discriminate|].
        injection Hr as <-. exact H.
    + exists false. split; [reflexivity|].
      split; [discriminate|].
      intros [(r' & Hr & _)|(e' & r2' & _ & Hr & _)]; discriminate.
Qed.

Lemma verifyUrl_total net u : exists alive, result (V3.verifyUrl net u) = Normal alive.
Proof. destruct (verifyUrl_spec net u) as (alive & -> & _). eauto. Qed.

(** C4. The probe always returns, never throws, and returns true exactly
    when the header-only request is answered with a successful, 403 or 405
    response, or that request throws (the abort after five seconds
    included) and the range request for the first byte is answered with a
    successful, 206 or 403 response.  The second request is made only when
    the first one throws: an answer of the first request that does not
    qualify gives false with no second request; a second request that
    throws gives false. *)
Theorem verifyUrl_alive_iff (net : request -> completion fetchResponse) (u : string) :
  (method (V3.headRequest u) = "HEAD" /\ target (V3.headRequest u) = u /\
   abortAfter (V3.headRequest u) = 5000%N /\ redirect (V3.headRequest u) = "follow") /\
  (method (V3.rangeRequest u) = "GET" /\ target (V3.rangeRequest u) = u /\
   abortAfter (V3.rangeRequest u) = 5000%N /\ redirect (V3.rangeRequest u) = "follow" /\
   ("Range", "bytes=0-0") ∈ headers (V3.rangeRequest u)) /\
  exists alive : bool,
    result (V3.verifyUrl net u) = Normal alive /\
    sent (V3.verifyUrl net u)
    = V3.headRequest u ::
      match net (V3.headRequest u) with
      | Normal _ => []
      | Throw _ => [V3.rangeRequest u]
      end /\
    (alive = true <->
       (exists r, net (V3.headRequest u) = Normal r /\
                  (ok r = true \/ status r = 403%N \/ status r = 405%N))
       \/ (exists e r2, net (V3.headRequest u) = Throw e /\
                        net (V3.rangeRequest u) = Normal r2 /\
                        (ok r2 = true \/ status r2 = 206%N \/ status r2 = 403%N))).
Proof.
  split; [repeat split|split; [repeat split; set_solver|]].
  destruct (verifyUrl_spec net u) as (alive & Heq & Hiff).
  exists alive. rewrite Heq. simpl. auto.
Qed.

Section LoopFacts.

Variable P : platform.
Variable city : json.
Variable cs : list Citation.t.

Local Abbreviation turn := (turn P city cs).
Local Abbreviation turns := (turns P city cs).
Local Abbreviation turn_noURL := (turn_noURL P city cs).
Local Abbreviation turn_confirmed := (turn_confirmed P city cs).
Local Abbreviation turn_probed := (turn_probed P city cs).

Lemma newItem_eq i it item :
  V3.newItem P city i it = Normal item ->
  item = {| Item.id := "l" +:+ pretty (Date_now P i) +:+ "_" +:+ pretty i;
            Item.title := orDefault (propOf it "title") (JStr EmptyString);
            Item.summary := orDefault (propOf it "summary") (JStr EmptyString);
            Item.source := orDefault (propOf it "source") (JStr "Unknown");
            Item.url := orDefault (propOf it "url") (JStr EmptyString);
            Item.timestamp := orDefault (propOf it "timestamp") (JStr "Recent");
            Item.category := orDefault (propOf it "category") (JStr "other");
            Item.severity := orDefault (propOf it "severity") (JStr "medium");
            Item.location := orDefault (propOf it "location") city;
            Item.verified := false;
            Item.verificationNote := EmptyString |}.
Proof.
  destruct it; simpl; intros H; try discriminate; injection H as <-; reflexivity.
Qed.

Lemma newItem_total i it : it <> JNull -> exists item, V3.newItem P city i it = Normal item.
Proof. destruct it; intros H; try congruence; eexists; reflexivity. Qed.

Lemma newItem_null i : V3.newItem P city i JNull = Throw TypeError.
Proof. reflexivity. Qed.

Lemma orDefault_falsy v s :
  truthy (orDefault v (JStr s)) = false -> orDefault v (JStr s) = JStr s.
Proof.
  destruct v as [x|]; simpl; [|reflexivity].
  destruct (truthy x) eqn:Hx; [congruence|reflexivity].
Qed.

Lemma startsWith_empty p : p <> EmptyString -> startsWith EmptyString p = false.
Proof. destruct p; [congruence|reflexivity]. Qed.

Lemma appendState_initial_l d : appendState V3.initialState d = d.
Proof. destruct d; reflexivity. Qed.

Lemma appendState_initial_r st : appendState st V3.initialState = st.
Proof. destruct st; unfold appendState; simpl; rewrite !app_nil_r; reflexivity. Qed.

Lemma appendState_assoc a b c :
  appendState (appendState a b) c = appendState a (appendState b c).
Proof. unfold appendState; simpl; rewrite !app_assoc; reflexivity. Qed.

(** A turn only appends: its effect on any state is its effect on the
    empty state, appended. *)
Lemma crossCheck_frame i item u st :
  V3.crossCheck P cs i item u st =
  d ← V3.crossCheck P cs i item u V3.initialState; mret (appendState st d).
Proof.
  unfold V3.crossCheck.
  destruct (bool_decide _ || bool_decide _); [frame_leaf|].
  destruct (bool_decide _);
    (destruct (result (V3.verifyUrl (fetch P i) u)) as [[|]|e];
     [frame_leaf|frame_leaf|reflexivity]).
Qed.

Lemma checkItem_frame i it st :
  V3.checkItem P city cs i it st =
  d ← V3.checkItem P city cs i it V3.initialState; mret (appendState st d).
Proof.
  unfold V3.checkItem.
  destruct (V3.newItem P city i it) as [item|e]; [|reflexivity].
  rewrite !bind_Normal.
  destruct (negb (truthy (Item.url item))); [frame_leaf|].
  destruct (Item.url item); try reflexivity.
  destruct (negb (startsWith s "http")); [frame_leaf|].
  apply crossCheck_frame.
Qed.

Lemma checkItem_turn i it d :
  V3.checkItem P city cs i it V3.initialState = Normal d <-> turn i it d.
Proof.
  split.
  - unfold V3.checkItem.
    destruct (V3.newItem P city i it) as [item|e] eqn:Hnew; [|discriminate].
    rewrite bind_Normal.
    destruct (truthy (Item.url item)) eqn:Htruthy; simpl.
    + destruct (Item.url item) as [| | |u| |] eqn:Hurl; try discriminate.
      destruct (startsWith u "http") eqn:Hhttp; simpl.
      * unfold V3.crossCheck.
        destruct (bool_decide (V3.urlKey P u ∈ V3.realUrlSet P cs)) eqn:Hkey; simpl.
        { intros [= <-]. apply bool_decide_eq_true in Hkey.
          eapply turn_confirmed; eauto. }
        destruct (bool_decide (u ∈ V3.realUrlSet P cs)) eqn:Hraw; simpl.
        { intros [= <-]. apply bool_decide_eq_true in Hraw.
          eapply turn_confirmed; eauto. }
        apply bool_decide_eq_false in Hkey, Hraw.
        destruct (bool_decide (V3.extractDomain P u ∈ V3.realDomainSet cs)) eqn:Hdom;
          (destruct (result (V3.verifyUrl (fetch P i) u)) as [[|]|e] eqn:Hprobe;
           rewrite ?bind_Normal, ?bind_Throw; [| |discriminate];
           intros [= <-];
           exact (turn_probed i it item u _ _ Hnew Hurl Hhttp Hkey Hraw
                    (eq_sym Hdom) Hprobe)).
      * intros [= <-]. eapply turn_noURL; eauto.
    + intros [= <-].
      assert (Hurl : Item.url item = JStr EmptyString).
      { rewrite (newItem_eq _ _ _ Hnew) in Htruthy |- *. simpl in *.
        apply orDefault_falsy, Htruthy. }
      eapply turn_noURL; eauto.
  - intros Hturn. unfold V3.checkItem.
    destruct Hturn as [item s Hnew Hurl Hhttp
                      |item u Hnew Hurl Hhttp Hin
                      |item u alive known Hnew Hurl Hhttp Hkey Hraw Hknown Hprobe];
      rewrite Hnew, bind_Normal, Hurl.
    + destruct (truthy (JStr s)); simpl; [rewrite Hhttp|]; reflexivity.
    + assert (Htruthy : truthy (JStr u) = true) by (destruct u; [discriminate|reflexivity]).
      rewrite Htruthy, Hhttp. simpl. unfold V3.crossCheck.
      destruct Hin as [Hin|Hin].
      * rewrite (bool_decide_eq_true_2 _ Hin). reflexivity.
      * rewrite (bool_decide_eq_true_2 _ Hin), orb_true_r. reflexivity.
    + assert (Htruthy : truthy (JStr u) = true) by (destruct u; [discriminate|reflexivity]).
      rewrite Htruthy, Hhttp. simpl. unfold V3.crossCheck.
      rewrite (bool_decide_eq_false_2 _ Hkey), (bool_decide_eq_false_2 _ Hraw). simpl.
      rewrite <- Hknown, Hprobe.
      destruct known, alive; reflexivity.
Qed.

Lemma checkItems_frame i its st :
  V3.checkItems P city cs i its st =
  d ← V3.checkItems P city cs i its V3.initialState; mret (appendState st d).
Proof.
  revert i st. induction its as [|it rest IH]; intros i st; simpl.
  - change (Normal st = Normal (appendState st V3.initialState)).
    rewrite appendState_initial_r. reflexivity.
  - rewrite (checkItem_frame i it st).
    destruct (V3.checkItem P city cs i it V3.initialState) as [d|e]; [|reflexivity].
    rewrite !bind_Normal.
    rewrite (IH (S i) (appendState st d)), (IH (S i) d).
    destruct (V3.checkItems P city cs (S i) rest V3.initialState) as [d2|e]; [|reflexivity].
    rewrite !bind_Normal. unfold mret, completion_ret.
    rewrite appendState_assoc. reflexivity.
Qed.

Lemma checkItems_turns i its st :
  V3.checkItems P city cs i its V3.initialState = Normal st <->
  exists ds, turns i its ds /\ st = pushedBy ds.
Proof.
  revert i st. induction its as [|it rest IH]; intros i st; simpl.
  - split.
    + intros [= <-]. exists []. split; [constructor|reflexivity].
    + intros (ds & Hts & ->). inversion Hts; subst. reflexivity.
  - split.
    + destruct (V3.checkItem P city cs i it V3.initialState) as [d|e] eqn:Hd;
        [|discriminate].
      rewrite bind_Normal, checkItems_frame.
      destruct (V3.checkItems P city cs (S i) rest V3.initialState) as [d2|e] eqn:Hrest;
        [|discriminate].
      intros [= <-].
      apply IH in Hrest as (ds & Hts & ->).
      exists (d :: ds). split; [|reflexivity].
      constructor; [apply checkItem_turn, Hd|exact Hts].
    + intros (ds & Hts & ->). inversion Hts as [|? ? ? d ds' Hturn Hrest]; subst.
      apply checkItem_turn in Hturn. rewrite Hturn, bind_Normal, checkItems_frame.
      assert (Hrun : V3.checkItems P city cs (S i) rest V3.initialState
                     = Normal (pushedBy ds')) by (apply IH; eauto).
      rewrite Hrun. reflexivity.
Qed.

Lemma verifiedItems_pushedBy ds :
  verifiedItems (pushedBy ds) = List.concat (map verifiedItems ds).
Proof. induction ds as [|d ds IH]; simpl; [reflexivity|]. rewrite IH. reflexivity. Qed.

Lemma rejectedItems_pushedBy ds :
  rejectedItems (pushedBy ds) = List.concat (map rejectedItems ds).
Proof. induction ds as [|d ds IH]; simpl; [reflexivity|]. rewrite IH. reflexivity. Qed.

Lemma probes_pushedBy ds :
  probes (pushedBy ds) = List.concat (map probes ds).
Proof. induction ds as [|d ds IH]; simpl; [reflexivity|]. rewrite IH. reflexivity. Qed.


Lemma turns_lookup i its ds k it :
  turns i its ds -> its !! k = Some it ->
  exists d, ds !! k = Some d /\ turn (i + k) it d.
Proof.
  intros Hts. revert k. induction Hts as [|i it' rest d ds Hturn Hts IH]; intros k Hk.
  - discriminate.
  - destruct k as [|k]; simpl in *.
    + injection Hk as ->. exists d. rewrite Nat.add_0_r. auto.
    + destruct (IH k Hk) as (d' & Hd' & Hturn').
      exists d'. split; [exact Hd'|]. replace (i + S k) with (S i + k) by lia. exact Hturn'.
Qed.

Lemma turns_lookup_inv i its ds k d :
  turns i its ds -> ds !! k = Some d ->
  exists it, its !! k = Some it /\ turn (i + k) it d.
Proof.
  intros Hts. revert k. induction Hts as [|i it' rest d' ds Hturn Hts IH]; intros k Hk.
  - discriminate.
  - destruct k as [|k]; simpl in *.
    + injection Hk as ->. exists it'. rewrite Nat.add_0_r. auto.
    + destruct (IH k Hk) as (it & Hit & Hturn').
      exists it. split; [exact Hit|]. replace (i + S k) with (S i + k) by lia. exact Hturn'.
Qed.

(** A turn pushes exactly one item, to exactly one of the lists. *)
Lemma turn_one i it d :
  turn i it d ->
  exists item x, V3.newItem P city i it = Normal item /\ sameClaim item x /\
    ((verifiedItems d = [x] /\ rejectedItems d = [] /\
      Item.verified x = true /\ Item.verificationNote x <> EmptyString)
     \/ (verifiedItems d = [] /\ rejectedItems d = [x] /\
         Item.verified x = false /\
         startsWith (Item.verificationNote x) "REJECTED" = true)).
Proof.
  intros [item s Hnew Hurl Hhttp
         |item u Hnew Hurl Hhttp Hin
         |item u alive known Hnew Hurl Hhttp Hkey Hraw Hknown Hprobe];
    pose proof (newItem_eq _ _ _ Hnew) as Hitem.
  - exists item, (Item.setNote item noteNoURL). split; [exact Hnew|].
    split; [repeat split|]. right. simpl. rewrite Hitem. auto.
  - exists item, (Item.setNote (Item.setVerified item) noteConfirmed).
    split; [exact Hnew|]. split; [repeat split|]. left. simpl. repeat split. discriminate.
  - destruct alive.
    + exists item, (Item.setNote (Item.setVerified item)
                      (if known then noteLiveKnown else noteLive)).
      split; [exact Hnew|]. split; [repeat split|]. left. simpl. repeat split.
      destruct known; discriminate.
    + exists item, (Item.setNote item (if known then noteDead else noteFabricated)).
      split; [exact Hnew|]. split; [repeat split|]. right. simpl. rewrite Hitem. simpl.
      repeat split. destruct known; reflexivity.
Qed.

Lemma turn_probes i it d p : turn i it d -> p ∈ probes d -> p.1 = i.
Proof.
  intros [| |] Hp; simpl in Hp; try (apply elem_of_nil in Hp; contradiction).
  apply list_elem_of_singleton in Hp. subst. reflexivity.
Qed.

Lemma turn_det i it d d' : turn i it d -> turn i it d' -> d = d'.
Proof. rewrite <- !checkItem_turn. congruence. Qed.

Lemma elem_of_concat_map {A} (f : loopState -> list A) (ds : list loopState) (x : A) :
  x ∈ List.concat (map f ds) <-> exists k d, ds !! k = Some d /\ x ∈ f d.
Proof.
  rewrite list_elem_of_In, in_concat. split.
  - intros (l & Hl & Hx). apply in_map_iff in Hl as (d & <- & Hd).
    apply list_elem_of_In, list_elem_of_lookup in Hd as (k & Hk).
    exists k, d. split; [exact Hk|]. apply list_elem_of_In, Hx.
  - intros (k & d & Hk & Hx). exists (f d). split.
    + apply in_map, list_elem_of_In, list_elem_of_lookup. eauto.
    + apply list_elem_of_In, Hx.
Qed.

(** A completed run, seen from one candidate: what its turn pushed is in
    the final lists, and the probes logged under its index are its own. *)
Lemma run_turn its st k it :
  V3.checkItems P city cs 0 its V3.initialState = Normal st ->
  its !! k = Some it ->
  exists d, turn k it d /\
    (forall x, x ∈ verifiedItems d -> x ∈ verifiedItems st) /\
    (forall x, x ∈ rejectedItems d -> x ∈ rejectedItems st) /\
    (forall p, p ∈ probes st -> p.1 = k -> p ∈ probes d).
Proof.
  intros Hrun Hk. apply checkItems_turns in Hrun as (ds & Hts & ->).
  destruct (turns_lookup _ _ _ _ _ Hts Hk) as (d & Hd & Hturn).
  exists d. split; [exact Hturn|]. repeat split.
  - intros x Hx. rewrite verifiedItems_pushedBy. apply elem_of_concat_map. eauto.
  - intros x Hx. rewrite rejectedItems_pushedBy. apply elem_of_concat_map. eauto.
  - intros p Hp Hidx. rewrite probes_pushedBy in Hp.
    apply elem_of_concat_map in Hp as (k' & d' & Hd' & Hp).
    destruct (turns_lookup_inv _ _ _ _ _ Hts Hd') as (it' & _ & Hturn').
    pose proof (turn_probes _ _ _ _ Hturn' Hp) as Hk'. simpl in Hk'.
    assert (k' = k) as -> by congruence.
    assert (d' = d) as -> by congruence. exact Hp.
Qed.

(** A completed run, seen from an item of one of the final lists. *)
Lemma run_verified_inv its st x :
  V3.checkItems P city cs 0 its V3.initialState = Normal st ->
  x ∈ verifiedItems st ->
  exists k it d, its !! k = Some it /\ turn k it d /\ x ∈ verifiedItems d.
Proof.
  intros Hrun Hx. apply checkItems_turns in Hrun as (ds & Hts & ->).
  rewrite verifiedItems_pushedBy in Hx.
  apply elem_of_concat_map in Hx as (k & d & Hd & Hx).
  destruct (turns_lookup_inv _ _ _ _ _ Hts Hd) as (it & Hit & Hturn).
  exists k, it, d. auto.
Qed.

Lemma run_rejected_inv its st x :
  V3.checkItems P city cs 0 its V3.initialState = Normal st ->
  x ∈ rejectedItems st ->
  exists k it d, its !! k = Some it /\ turn k it d /\ x ∈ rejectedItems d.
Proof.
  intros Hrun Hx. apply checkItems_turns in Hrun as (ds & Hts & ->).
  rewrite rejectedItems_pushedBy in Hx.
  apply elem_of_concat_map in Hx as (k & d & Hd & Hx).
  destruct (turns_lookup_inv _ _ _ _ _ Hts Hd) as (it & Hit & Hturn).
  exists k, it, d. auto.
Qed.

Lemma run_verified_flag its st x :
  V3.checkItems P city cs 0 its V3.initialState = Normal st ->
  x ∈ verifiedItems st ->
  Item.verified x = true /\ Item.verificationNote x <> EmptyString.
Proof.
  intros Hrun Hx.
  destruct (run_verified_inv _ _ _ Hrun Hx) as (k & it & d & _ & Hturn & Hd).
  destruct (turn_one _ _ _ Hturn) as (item & y & _ & _ & [(Hv & _ & H1 & H2)|(Hv & _)]);
    rewrite Hv in Hd.
  - apply list_elem_of_singleton in Hd as ->. auto.
  - apply elem_of_nil in Hd. contradiction.
Qed.

Lemma run_rejected_flag its st x :
  V3.checkItems P city cs 0 its V3.initialState = Normal st ->
  x ∈ rejectedItems st ->
  Item.verified x = false /\ startsWith (Item.verificationNote x) "REJECTED" = true.
Proof.
  intros Hrun Hx.
  destruct (run_rejected_inv _ _ _ Hrun Hx) as (k & it & d & _ & Hturn & Hd).
  destruct (turn_one _ _ _ Hturn) as (item & y & _ & _ & [(_ & Hr & _)|(_ & Hr & H1 & H2)]);
    rewrite Hr in Hd.
  - apply elem_of_nil in Hd. contradiction.
  - apply list_elem_of_singleton in Hd as ->. auto.
Qed.

Lemma run_lengths i its st :
  V3.checkItems P city cs i its V3.initialState = Normal st ->
  List.length (verifiedItems st) + List.length (rejectedItems st) = List.length its.
Proof.
  intros Hrun. apply checkItems_turns in Hrun as (ds & Hts & ->).
  induction Hts as [|i it rest d ds Hturn Hts IH]; [reflexivity|].
  simpl. rewrite !length_app.
  destruct (turn_one _ _ _ Hturn) as (item & y & _ & _ & [(Hv & Hr & _)|(Hv & Hr & _)]);
    rewrite Hv, Hr; simpl; lia.
Qed.

(** The loop completes exactly on the lists of candidates it can check;
    on any other list it throws, and the handler answers with an empty
    list. *)
Lemma checkItem_completes i it st :
  (exists st', V3.checkItem P city cs i it st = Normal st') <-> wellFormed it = true.
Proof.
  unfold V3.checkItem. split.
  - intros (st' & Hst').
    destruct (V3.newItem P city i it) as [item|e] eqn:Hnew; [|discriminate].
    rewrite bind_Normal in Hst'.
    pose proof (newItem_eq _ _ _ Hnew) as Hitem.
    assert (Hurl : Item.url item = orDefault (propOf it "url") (JStr EmptyString))
      by (rewrite Hitem; reflexivity).
    assert (Hnull : it <> JNull) by (intros ->; discriminate).
    unfold wellFormed. rewrite <- Hurl.
    destruct (truthy (Item.url item)) eqn:Htruthy; simpl in Hst'.
    + destruct (Item.url item); try discriminate; destruct it; congruence.
    + rewrite Hurl in Htruthy |- *. rewrite (orDefault_falsy _ _ Htruthy).
      destruct it; congruence.
  - intros Hwf.
    assert (Hnull : it <> JNull) by (intros ->; discriminate).
    destruct (newItem_total i it Hnull) as (item & Hnew).
    rewrite Hnew, bind_Normal.
    pose proof (newItem_eq _ _ _ Hnew) as Hitem.
    assert (Hurl : Item.url item = orDefault (propOf it "url") (JStr EmptyString))
      by (rewrite Hitem; reflexivity).
    assert (Hstr : exists u, Item.url item = JStr u).
    { rewrite Hurl. unfold wellFormed in Hwf.
      destruct (orDefault (propOf it "url") (JStr EmptyString));
        destruct it; try discriminate; eauto. }
    destruct Hstr as (u & Hu). rewrite Hu.
    destruct (negb (truthy (JStr u))); [eauto|].
    destruct (negb (startsWith u "http")); [eauto|].
    unfold V3.crossCheck.
    destruct (bool_decide _ || bool_decide _); [eauto|].
    destruct (verifyUrl_total (fetch P i) u) as (alive & ->).
    destruct (bool_decide _), alive; rewrite bind_Normal; eauto.
Qed.

Lemma checkItems_completes i its st :
  (exists st', V3.checkItems P city cs i its st = Normal st') <->
  Forall (fun it => wellFormed it = true) its.
Proof.
  revert i st. induction its as [|it rest IH]; intros i st; simpl.
  - split; [constructor|eauto].
  - rewrite Forall_cons, <- (checkItem_completes i it st). split.
    + intros (st' & Hst').
      destruct (V3.checkItem P city cs i it st) as [st1|e]; [|discriminate].
      split; [eauto|]. apply (IH (S i) st1). eauto.
    + intros ((st1 & Hst1) & Hrest). rewrite Hst1, bind_Normal.
      apply IH, Hrest.
Qed.

End LoopFacts.

(** ** The answer and its counts *)

Lemma crossReference_answer P city cs rawParts matched rawParts' answer :
  V3.crossReference P city cs rawParts matched = (rawParts', Normal answer) ->
  exists parsedItems st,
    JSON_parse P matched = Some parsedItems /\
    V3.checkItems P city cs 0 parsedItems V3.initialState = Normal st /\
    items answer = verifiedItems st /\
    verifiedSources answer = cs /\
    stats answer = {| Stats.totalFound := List.length parsedItems;
                      Stats.verified := List.length (verifiedItems st);
                      Stats.rejected := List.length (rejectedItems st) |}.
Proof.
  unfold V3.crossReference.
  destruct (JSON_parse P matched) as [parsedItems|]; [|discriminate].
  destruct (V3.checkItems P city cs 0 parsedItems V3.initialState) as [st|e] eqn:Hrun;
    [|discriminate].
  destruct (if bool_decide (0 < List.length (rejectedItems st))
            then _ else _) as [rp pushed].
  destruct pushed; [|discriminate].
  intros [= <- <-]. exists parsedItems, st. auto.
Qed.

(** The shapes an answer of the handler can take: empty (no results, no
    array and no citation, or a throw inside the inner [try]), synthesized
    from the citations, or the outcome of a completed cross-reference. *)
Lemma search_shapes P city allContent :
  let answer := V3.search P city allContent in
  (items answer = [] /\ stats answer = emptyStats)
  \/ (exists n, List.length (items answer) = n /\
                stats answer = {| Stats.totalFound := n; Stats.verified := n;
                                  Stats.rejected := 0 |})
  \/ (exists matched parsedItems st,
        matchArray (V3.cleanedText (omap V3.textOf allContent)) = Some matched /\
        JSON_parse P matched = Some parsedItems /\
        V3.checkItems P city (V3.extractCitations P allContent) 0 parsedItems
          V3.initialState = Normal st /\
        items answer = verifiedItems st /\
        stats answer = {| Stats.totalFound := List.length parsedItems;
                          Stats.verified := List.length (verifiedItems st);
                          Stats.rejected := List.length (rejectedItems st) |}).
Proof.
  unfold V3.search.
  destruct (includes _ _); [left; auto|].
  destruct (matchArray _) as [matched|] eqn:Hmatch.
  - destruct (V3.crossReference _ _ _ _ _) as [rp [answer|e]] eqn:Hcross; [|left; auto].
    right; right.
    apply crossReference_answer in Hcross as (parsedItems & st & H1 & H2 & H3 & _ & H4).
    exists matched, parsedItems, st. auto.
  - destruct (bool_decide _); [|left; auto].
    right; left. eexists; split; reflexivity.
Qed.

(** C1 (amended). Every answer of the handler, whichever branch produced
    it, has [stats.verified + stats.rejected = stats.totalFound], and
    [verified] is the length of [items].  Branch by branch: with the
    no-results token in the text the answer is empty; without the token
    and without an array, [totalFound] and [verified] are the number of
    the citations that have a url and a title, which are the items, and
    [rejected] is zero; with an array, when the [try] block returns its
    answer, [totalFound] is the number of candidates, [verified] the
    length of the accepted list and [rejected] the length of the rejected
    list; and when the block throws, the three counts are zero, whatever
    the number of candidates. *)
Theorem stats_verified_plus_rejected P city allContent :
  let answer := V3.search P city allContent in
  let cleaned := V3.cleanedText (omap V3.textOf allContent) in
  let cs := V3.extractCitations P allContent in
  Stats.verified (stats answer) + Stats.rejected (stats answer)
    = Stats.totalFound (stats answer) /\
  Stats.verified (stats answer) = List.length (items answer) /\
  (includes cleaned V3.noResultsToken = true ->
   items answer = [] /\ stats answer = emptyStats) /\
  (includes cleaned V3.noResultsToken = false -> matchArray cleaned = None ->
   List.length (items answer)
   = List.length (filter (fun c => V3.usable c = true) cs) /\
   stats answer = {| Stats.totalFound := List.length (items answer);
                     Stats.verified := List.length (items answer);
                     Stats.rejected := 0 |}) /\
  (forall matched,
     includes cleaned V3.noResultsToken = false ->
     matchArray cleaned = Some matched ->
     match V3.crossReference P city cs (rawPartsOf P allContent) matched with
     | (_, Normal _) =>
         exists parsedItems st,
           JSON_parse P matched = Some parsedItems /\
           V3.checkItems P city cs 0 parsedItems V3.initialState = Normal st /\
           items answer = verifiedItems st /\
           stats answer = {| Stats.totalFound := List.length parsedItems;
                             Stats.verified := List.length (verifiedItems st);
                             Stats.rejected := List.length (rejectedItems st) |}
     | (_, Throw _) => items answer = [] /\ stats answer = emptyStats
     end).
Proof.
  intros answer cleaned cs.
  split; [|split; [|split; [|split]]].
  - destruct (search_shapes P city allContent)
      as [(Hitems & Hstats)|[(n & Hitems & Hstats)
                            |(m & its & st & Hm & Hparse & Hrun & Hitems & Hstats)]];
      fold answer in Hitems, Hstats; rewrite Hstats; simpl; [reflexivity|lia|].
    eapply run_lengths, Hrun.
  - destruct (search_shapes P city allContent)
      as [(Hitems & Hstats)|[(n & Hitems & Hstats)
                            |(m & its & st & Hm & Hparse & Hrun & Hitems & Hstats)]];
      fold answer in Hitems, Hstats; rewrite Hstats, Hitems; simpl; congruence.
  - intros Htoken. subst answer. unfold V3.search. fold cleaned. rewrite Htoken.
    split; reflexivity.
  - intros Htoken Hnone. subst answer. unfold V3.search. fold cleaned cs.
    rewrite Htoken, Hnone.
    case_bool_decide as Hsome.
    + unfold V3.fromCitations. simpl. rewrite length_imap. split; reflexivity.
    + assert (cs = []) as -> by (destruct cs; [reflexivity|simpl in Hsome; lia]).
      split; reflexivity.
  - intros matched Htoken Hmatch. subst answer. unfold V3.search, rawPartsOf.
    fold cleaned cs. rewrite Htoken, Hmatch.
    destruct (V3.crossReference _ _ _ _ _) as [rp [answer|e]] eqn:Hcross;
      [|split; reflexivity].
    apply crossReference_answer in Hcross as (its & st & Hparse & Hrun & Hitems & _ & Hstats).
    exists its, st. auto.
Qed.

(** ** The lookup structures *)

Lemma elem_of_realUrlSet P (cs : list Citation.t) (k : string) :
  k ∈ V3.realUrlSet P cs <->
  exists c, c ∈ cs /\ (Citation.url c = k \/ V3.hostPath P (Citation.url c) = Some k).
Proof.
  unfold V3.realUrlSet.
  assert (Hgen : forall acc : gset string,
    k ∈ foldl (fun acc c =>
                 let acc' := match V3.hostPath P (Citation.url c) with
                             | Some key => {[ key ]} ∪ acc
                             | None => acc
                             end in
                 {[ Citation.url c ]} ∪ acc') acc cs <->
    k ∈ acc \/ exists c, c ∈ cs /\
      (Citation.url c = k \/ V3.hostPath P (Citation.url c) = Some k)).
  { induction cs as [|c rest IH]; intros acc; simpl.
    - split; [auto|]. intros [H|(c & Hc & _)]; [exact H|]. inversion Hc.
    - rewrite IH. split.
      + intros [Hacc|(c' & Hc' & H)].
        * apply elem_of_union in Hacc as [Hk|Hacc].
          { apply elem_of_singleton in Hk. right. exists c. split; [left|]. auto. }
          destruct (V3.hostPath P (Citation.url c)) as [key|] eqn:Hkey; [|auto].
          apply elem_of_union in Hacc as [Hk|Hacc]; [|auto].
          apply elem_of_singleton in Hk. right. exists c. split; [left|].
          right. congruence.
        * right. exists c'. split; [right; exact Hc'|exact H].
      + intros [Hacc|(c' & Hc' & H)].
        * left. destruct (V3.hostPath P (Citation.url c)); rewrite ?elem_of_union; auto.
        * apply elem_of_cons in Hc' as [->|Hc']; [|right; eauto].
          left. apply elem_of_union. destruct H as [H|H].
          { left. apply elem_of_singleton. auto. }
          right. rewrite H. apply elem_of_union. left. apply elem_of_singleton. reflexivity. }
  rewrite Hgen. split; [|auto]. intros [H|H]; [|exact H].
  apply elem_of_empty in H. contradiction.
Qed.

Lemma elem_of_realDomainSet (cs : list Citation.t) (dom : string) :
  dom ∈ V3.realDomainSet cs <-> exists c, c ∈ cs /\ Citation.source c = dom.
Proof.
  unfold V3.realDomainSet. rewrite elem_of_list_to_set, list_elem_of_In, in_map_iff.
  split; intros (c & H1 & H2); exists c.
  - split; [apply list_elem_of_In, H2|exact H1].
  - split; [exact H2|apply list_elem_of_In, H1].
Qed.

Lemma extractCitations_source P content c :
  c ∈ V3.extractCitations P content ->
  Citation.source c = V3.extractDomain P (Citation.url c).
Proof.
  induction content as [|b rest IH]; simpl; [intros H; inversion H|].
  destruct b as [text|inner|]; auto.
  rewrite elem_of_app. intros [H|H]; [|auto].
  clear IH. induction inner as [|[r|] inner IH]; simpl in H.
  - inversion H.
  - apply elem_of_cons in H as [->|H]; [reflexivity|auto].
  - auto.
Qed.

(** ** Outcome by outcome *)

Lemma newItem_verified P city i it item :
  V3.newItem P city i it = Normal item -> Item.verified item = false.
Proof. intros H. rewrite (newItem_eq _ _ _ _ _ H). reflexivity. Qed.

(** A candidate whose url is empty or does not start with [http], in a
    completed run of the loop. *)
Lemma run_noURL P city cs parsedItems st i it item s :
  V3.checkItems P city cs 0 parsedItems V3.initialState = Normal st ->
  parsedItems !! i = Some it ->
  V3.newItem P city i it = Normal item ->
  Item.url item = JStr s ->
  s = EmptyString \/ startsWith s "http" = false ->
  let r := Item.setNote item noteNoURL in
  r ∈ rejectedItems st /\
  outcomeOf r = Some NoURL /\
  Item.verified r = false /\
  (r ∉ verifiedItems st) /\
  (forall u, (i, u) ∉ probes st) /\
  (forall x, x ∈ verifiedItems st ->
     exists u, Item.url x = JStr u /\ startsWith u "http" = true).
Proof.
  intros Hrun Hi Hnew Hurl Hs r.
  assert (Hhttp : startsWith s "http" = false).
  { destruct Hs as [->|Hs]; [reflexivity|exact Hs]. }
  destruct (run_turn _ _ _ _ _ _ _ Hrun Hi) as (d & Hturn & Hver & Hrej & Hprobes).
  pose proof (turn_noURL P city cs i it item s Hnew Hurl Hhttp) as Hexp.
  rewrite (turn_det _ _ _ _ _ _ _ Hturn Hexp) in *. simpl in *.
  assert (Hflag : Item.verified r = false).
  { simpl. eapply newItem_verified, Hnew. }
  split; [apply Hrej; left|].
  split; [reflexivity|].
  split; [exact Hflag|].
  split.
  { intros Hin. apply (run_verified_flag _ _ _ _ _ _ Hrun) in Hin as [Hin _]. congruence. }
  split.
  { intros u Hin. apply Hprobes in Hin; [|reflexivity]. inversion Hin. }
  intros x Hx.
  destruct (run_verified_inv _ _ _ _ _ _ Hrun Hx) as (k & it' & d' & _ & Hturn' & Hd').
  destruct Hturn' as [item' s' _ _ _
                     |item' u _ Hurl' Hhttp' _
                     |item' u alive known _ Hurl' Hhttp' _ _ _ _]; simpl in Hd'.
  - inversion Hd'.
  - apply list_elem_of_singleton in Hd' as ->. exists u. auto.
  - destruct alive; [|inversion Hd'].
    apply list_elem_of_singleton in Hd' as ->. exists u. auto.
Qed.


(** A candidate that passes the scheme check and matches a citation, in a
    completed run of the loop. *)
Lemma run_confirmed P city cs parsedItems st i it item u :
  V3.checkItems P city cs 0 parsedItems V3.initialState = Normal st ->
  parsedItems !! i = Some it ->
  V3.newItem P city i it = Normal item ->
  Item.url item = JStr u ->
  startsWith u "http" = true ->
  (exists c k, c ∈ cs /\ (k = u \/ k = V3.urlKey P u) /\
               (Citation.url c = k \/ V3.hostPath P (Citation.url c) = Some k)) ->
  let x := Item.setNote (Item.setVerified item) noteConfirmed in
  x ∈ verifiedItems st /\
  outcomeOf x = Some Confirmed /\
  Item.verified x = true /\
  (x ∉ rejectedItems st) /\
  (forall p, (i, p) ∉ probes st).
Proof.
  intros Hrun Hi Hnew Hurl Hhttp (c & k & Hc & Hk & Hmatch) x.
  assert (Hin : V3.urlKey P u ∈ V3.realUrlSet P cs \/ u ∈ V3.realUrlSet P cs).
  { destruct Hk as [->| ->]; [right|left]; apply elem_of_realUrlSet; eauto. }
  destruct (run_turn _ _ _ _ _ _ _ Hrun Hi) as (d & Hturn & Hver & Hrej & Hprobes).
  pose proof (turn_confirmed P city cs i it item u Hnew Hurl Hhttp Hin) as Hexp.
  rewrite (turn_det _ _ _ _ _ _ _ Hturn Hexp) in *. simpl in *.
  split; [apply Hver; left|].
  split; [reflexivity|].
  split; [reflexivity|].
  split.
  { intros Hx. apply (run_rejected_flag _ _ _ _ _ _ Hrun) in Hx as [Hx _]. discriminate. }
  intros p Hin'. apply Hprobes in Hin'; [|reflexivity]. inversion Hin'.
Qed.

(** A candidate whose url passes the scheme check and does not parse, when
    a citation has such a url too. *)
Lemma run_unparsable P city content c parsedItems st i it item u :
  let cs := V3.extractCitations P content in
  c ∈ cs ->
  URL P (Citation.url c) = None ->
  V3.checkItems P city cs 0 parsedItems V3.initialState = Normal st ->
  parsedItems !! i = Some it ->
  V3.newItem P city i it = Normal item ->
  Item.url item = JStr u ->
  startsWith u "http" = true ->
  URL P u = None ->
  (forall c', c' ∈ cs ->
     Citation.url c' <> u /\ V3.hostPath P (Citation.url c') <> Some u) ->
  "Unknown" ∈ V3.realDomainSet cs /\
  V3.extractDomain P u ∈ V3.realDomainSet cs /\
  (i, u) ∈ probes st /\
  exists alive : bool,
    result (V3.verifyUrl (fetch P i) u) = Normal alive /\
    if alive
    then Item.setNote (Item.setVerified item) noteLiveKnown ∈ verifiedItems st
    else Item.setNote item noteDead ∈ rejectedItems st /\
         outcomeOf (Item.setNote item noteDead) = Some RejectedDead.
Proof.
  intros cs Hc Hbad Hrun Hi Hnew Hurl Hhttp Hu Hfresh.
  assert (Hunknown : "Unknown" ∈ V3.realDomainSet cs).
  { apply elem_of_realDomainSet. exists c. split; [exact Hc|].
    rewrite (extractCitations_source _ _ _ Hc). unfold V3.extractDomain.
    rewrite Hbad. reflexivity. }
  assert (Hdom : V3.extractDomain P u = "Unknown").
  { unfold V3.extractDomain. rewrite Hu. reflexivity. }
  assert (Hkey : V3.urlKey P u = u).
  { unfold V3.urlKey, V3.hostPath. rewrite Hu. reflexivity. }
  assert (Hraw : u ∉ V3.realUrlSet P cs).
  { intros Hin. apply elem_of_realUrlSet in Hin as (c' & Hc' & H).
    destruct (Hfresh c' Hc') as [H1 H2]. destruct H; contradiction. }
  split; [exact Hunknown|]. split; [rewrite Hdom; exact Hunknown|].
  destruct (verifyUrl_total (fetch P i) u) as (alive & Hprobe).
  destruct (run_turn _ _ _ _ _ _ _ Hrun Hi) as (d & Hturn & Hver & Hrej & Hprobes).
  assert (Hkey' : V3.urlKey P u ∉ V3.realUrlSet P cs) by (rewrite Hkey; exact Hraw).
  pose proof (turn_probed P city cs i it item u alive _ Hnew Hurl Hhttp Hkey' Hraw
                eq_refl Hprobe) as Hexp.
  rewrite Hdom, (bool_decide_eq_true_2 _ Hunknown) in Hexp.
  assert (Hlog : (i, u) ∈ probes st).
  { apply checkItems_turns in Hrun as (ds & Hts & ->).
    destruct (turns_lookup _ _ _ _ _ _ _ _ Hts Hi) as (d' & Hd' & Hturn').
    rewrite probes_pushedBy. apply elem_of_concat_map. exists i, d'.
    split; [exact Hd'|]. simpl in Hturn'.
    rewrite (turn_det _ _ _ _ _ _ _ Hturn' Hexp). left. }
  split; [exact Hlog|].
  exists alive. split; [exact Hprobe|].
  rewrite (turn_det _ _ _ _ _ _ _ Hturn Hexp) in *.
  destruct alive; simpl in *.
  - apply Hver. left.
  - split; [apply Hrej; left|reflexivity].
Qed.

(** ** The answer of the cross-reference branch *)

Lemma pushRejected_lines P rs rp rp' u :
  V3.pushRejected P rs rp = (rp', Normal u) ->
  exists lines,
    Forall2 (fun r line => V3.rejectedLine P r = Normal line) rs lines /\
    rp' = rp ++ lines.
Proof.
  revert rp. induction rs as [|r rest IH]; intros rp; simpl.
  - intros [= <- _]. exists []. split; [constructor|]. rewrite app_nil_r. reflexivity.
  - destruct (V3.rejectedLine P r) as [line|e] eqn:Hline; [|discriminate].
    intros Hrest. apply IH in Hrest as (lines & Hall & ->).
    exists (line :: lines). split; [constructor; assumption|].
    rewrite <- app_assoc. reflexivity.
Qed.

(** When the body of the inner [try] returns: the items of the answer are
    the accepted list, the counts are the lengths, and every rejected item
    has its line in the transcript. *)
Lemma crossReference_transcript P city cs rawParts matched rawParts' answer parsedItems st :
  V3.crossReference P city cs rawParts matched = (rawParts', Normal answer) ->
  JSON_parse P matched = Some parsedItems ->
  V3.checkItems P city cs 0 parsedItems V3.initialState = Normal st ->
  items answer = verifiedItems st /\
  stats answer = {| Stats.totalFound := List.length parsedItems;
                    Stats.verified := List.length (verifiedItems st);
                    Stats.rejected := List.length (rejectedItems st) |} /\
  rawResponse answer = join (newline +:+ newline) rawParts' /\
  (forall r, r ∈ rejectedItems st ->
     exists line, V3.rejectedLine P r = Normal line /\ line ∈ rawParts').
Proof.
  unfold V3.crossReference. intros Hanswer Hparse Hrun.
  rewrite Hparse, Hrun in Hanswer.
  destruct (bool_decide (0 < List.length (rejectedItems st))) eqn:Hsome.
  - destruct (V3.pushRejected P (rejectedItems st) _) as [rp [u|e]] eqn:Hpush;
      [|discriminate].
    injection Hanswer as <- <-. simpl.
    apply pushRejected_lines in Hpush as (lines & Hall & ->).
    repeat split. intros r Hr.
    apply list_elem_of_lookup in Hr as (k & Hk).
    destruct (Forall2_lookup_l _ _ _ _ _ Hall Hk) as (line & Hline & Hconv).
    exists line. split; [exact Hconv|].
    apply elem_of_app. right. apply list_elem_of_lookup. eauto.
  - injection Hanswer as <- <-. simpl. repeat split.
    intros r Hr. apply bool_decide_eq_false in Hsome.
    destruct (rejectedItems st); [inversion Hr|simpl in Hsome; lia].
Qed.

(** On a list of candidates that the loop gets through, every candidate
    has given an item, and the url of that item is a string. *)
Lemma run_item_url P city cs parsedItems st i it :
  V3.checkItems P city cs 0 parsedItems V3.initialState = Normal st ->
  parsedItems !! i = Some it ->
  exists item s, V3.newItem P city i it = Normal item /\ Item.url item = JStr s.
Proof.
  intros Hrun Hi.
  assert (Hall : Forall (fun it => wellFormed it = true) parsedItems)
    by (eapply checkItems_completes; eauto).
  rewrite Forall_lookup in Hall. specialize (Hall i it Hi).
  destruct (newItem_total P city i it) as (item & Hnew).
  { intros ->. discriminate Hall. }
  assert (Hitem : Item.url item = orDefault (propOf it "url") (JStr EmptyString))
    by (rewrite (newItem_eq _ _ _ _ _ Hnew); reflexivity).
  assert (Hurl : match orDefault (propOf it "url") (JStr EmptyString) with
                 | JStr _ => true
                 | _ => false
                 end = true)
    by (destruct it; [discriminate Hall|exact Hall..]).
  destruct (orDefault (propOf it "url") (JStr EmptyString)) as [| | |url| |];
    try discriminate Hurl.
  exists item, url. split; [exact Hnew|exact Hitem].
Qed.

(** The accepted items have a url that starts with [http]. *)
Lemma run_verified_http P city cs its st x :
  V3.checkItems P city cs 0 its V3.initialState = Normal st ->
  x ∈ verifiedItems st ->
  exists u, Item.url x = JStr u /\ startsWith u "http" = true.
Proof.
  intros Hrun Hx.
  destruct (run_verified_inv _ _ _ _ _ _ Hrun Hx) as (k & it & d & _ & Hturn & Hd).
  destruct Hturn as [item s _ _ _
                    |item u _ Hurl Hhttp _
                    |item u alive known _ Hurl Hhttp _ _ _ _]; simpl in Hd.
  - inversion Hd.
  - apply list_elem_of_singleton in Hd as ->. exists u. auto.
  - destruct alive; [|inversion Hd].
    apply list_elem_of_singleton in Hd as ->. exists u. auto.
Qed.

Lemma pushRejected_returns P rs rp :
  (exists u, (V3.pushRejected P rs rp).2 = Normal u) <->
  Forall (fun r => exists line, V3.rejectedLine P r = Normal line) rs.
Proof.
  revert rp. induction rs as [|r rest IH]; intros rp; simpl.
  - split; [constructor|]. intros _. exists (). reflexivity.
  - destruct (V3.rejectedLine P r) as [line|e] eqn:Hline.
    + rewrite IH. split.
      * intros Hrest. constructor; [eauto|exact Hrest].
      * intros Hall. apply Forall_cons in Hall as [_ Hrest]. exact Hrest.
    + split.
      * intros (u & Hu). discriminate Hu.
      * intros Hall. apply Forall_cons in Hall as [(line & Hr) _]. congruence.
Qed.

(** When the body of the inner [try] returns its answer: the array
    parses, no candidate is [null] or has a truthy url that is not a
    string, and the title and the url of every rejected item can be
    converted to a string. *)
Lemma crossReference_returns P city cs rawParts matched :
  (exists rawParts' answer,
     V3.crossReference P city cs rawParts matched = (rawParts', Normal answer)) <->
  exists parsedItems st,
    JSON_parse P matched = Some parsedItems /\
    Forall (fun it => wellFormed it = true) parsedItems /\
    V3.checkItems P city cs 0 parsedItems V3.initialState = Normal st /\
    Forall (fun r => exists line, V3.rejectedLine P r = Normal line) (rejectedItems st).
Proof.
  split.
  - intros (rawParts' & answer & Hanswer).
    destruct (crossReference_answer _ _ _ _ _ _ _ Hanswer)
      as (parsedItems & st & Hparse & Hrun & _).
    destruct (crossReference_transcript _ _ _ _ _ _ _ _ _ Hanswer Hparse Hrun)
      as (_ & _ & _ & Hlines).
    exists parsedItems, st. split; [exact Hparse|].
    split; [eapply checkItems_completes; eauto|]. split; [exact Hrun|].
    apply Forall_forall. intros r Hr. destruct (Hlines r Hr) as (line & Hline & _). eauto.
  - intros (parsedItems & st & Hparse & _ & Hrun & Hlines).
    unfold V3.crossReference. rewrite Hparse, Hrun.
    case_bool_decide.
    + apply (pushRejected_returns P (rejectedItems st)
               (rawParts ++ [newline +:+ "--- REJECTED (FAILED VERIFICATION) ---"]))
        in Hlines as (u & Hu).
      destruct (V3.pushRejected P _ _) as [rp [u'|e]]; [eauto|discriminate Hu].
    + eauto.
Qed.

(** C2 (amended). When the [try] block of the cross-reference branch
    returns its answer, every candidate has an item whose url is a string,
    and every candidate whose url does not start with [http] (the empty
    url of a candidate without url included) has outcome NoURL: its item
    has [verified] false and the note of that outcome, no probe was made
    for it, it is not among the items of the answer (no item there has
    such a url), and it is on the rejected list, with its line in the
    transcript that the answer returns. *)
Theorem noURL_rejected_unprobed P city cs rawParts matched rawParts' answer :
  V3.crossReference P city cs rawParts matched = (rawParts', Normal answer) ->
  exists parsedItems st,
    JSON_parse P matched = Some parsedItems /\
    V3.checkItems P city cs 0 parsedItems V3.initialState = Normal st /\
    rawResponse answer = join (newline +:+ newline) rawParts' /\
    (forall x, x ∈ items answer ->
       exists u, Item.url x = JStr u /\ startsWith u "http" = true) /\
    forall i it, parsedItems !! i = Some it ->
      exists item s,
        V3.newItem P city i it = Normal item /\ Item.url item = JStr s /\
        (startsWith s "http" = false ->
         let r := Item.setNote item noteNoURL in
         outcomeOf r = Some NoURL /\
         Item.verified r = false /\
         (forall u, (i, u) ∉ probes st) /\
         (r ∉ items answer) /\
         r ∈ rejectedItems st /\
         exists line, V3.rejectedLine P r = Normal line /\ line ∈ rawParts').
Proof.
  intros Hanswer.
  destruct (crossReference_answer _ _ _ _ _ _ _ Hanswer)
    as (parsedItems & st & Hparse & Hrun & _).
  destruct (crossReference_transcript _ _ _ _ _ _ _ _ _ Hanswer Hparse Hrun)
    as (Hitems & _ & Hraw & Hlines).
  exists parsedItems, st.
  split; [exact Hparse|]. split; [exact Hrun|]. split; [exact Hraw|].
  split; [rewrite Hitems; intros x Hx; eapply run_verified_http; eauto|].
  intros i it Hi.
  destruct (run_item_url _ _ _ _ _ _ _ Hrun Hi) as (item & s & Hnew & Hurl).
  exists item, s. split; [exact Hnew|]. split; [exact Hurl|].
  intros Hs r.
  destruct (run_noURL _ _ _ _ _ _ _ _ _ Hrun Hi Hnew Hurl (or_intror Hs))
    as (Hrej & Hout & Hflag & Hnot & Hprobes & _).
  rewrite Hitems.
  split; [exact Hout|]. split; [exact Hflag|]. split; [exact Hprobes|].
  split; [exact Hnot|]. split; [exact Hrej|].
  exact (Hlines _ Hrej).
Qed.


(** C3 (amended). When the [try] block of the cross-reference branch
    returns its answer, every candidate whose url passes the scheme check,
    and whose url or [urlKey] is the url of a citation or the host and
    path of one, has outcome Confirmed: its item is among the items of the
    answer with [verified] true, it is not on the rejected list, and no
    probe was made for it. *)
Theorem confirmed_without_probe P city cs rawParts matched rawParts' answer :
  V3.crossReference P city cs rawParts matched = (rawParts', Normal answer) ->
  exists parsedItems st,
    JSON_parse P matched = Some parsedItems /\
    V3.checkItems P city cs 0 parsedItems V3.initialState = Normal st /\
    forall i it, parsedItems !! i = Some it ->
      exists item u,
        V3.newItem P city i it = Normal item /\ Item.url item = JStr u /\
        (startsWith u "http" = true ->
         (exists c k, c ∈ cs /\ (k = u \/ k = V3.urlKey P u) /\
                      (Citation.url c = k \/ V3.hostPath P (Citation.url c) = Some k)) ->
         let x := Item.setNote (Item.setVerified item) noteConfirmed in
         x ∈ items answer /\
         outcomeOf x = Some Confirmed /\
         Item.verified x = true /\
         (x ∉ rejectedItems st) /\
         (forall p, (i, p) ∉ probes st)).
Proof.
  intros Hanswer.
  destruct (crossReference_answer _ _ _ _ _ _ _ Hanswer)
    as (parsedItems & st & Hparse & Hrun & Hitems & _).
  exists parsedItems, st. split; [exact Hparse|]. split; [exact Hrun|].
  intros i it Hi.
  destruct (run_item_url _ _ _ _ _ _ _ Hrun Hi) as (item & u & Hnew & Hurl).
  exists item, u. split; [exact Hnew|]. split; [exact Hurl|].
  intros Hhttp Hmatch x. rewrite Hitems.
  exact (run_confirmed _ _ _ _ _ _ _ _ _ Hrun Hi Hnew Hurl Hhttp Hmatch).
Qed.

(** C10 (amended). When a citation extracted from the answer has a url that
    does not parse, the sentinel [Unknown] is in the set of source domains.
    When, then, the [try] block of the cross-reference branch returns its
    answer, every candidate whose url passes the scheme check, does not
    parse, and is neither the url nor the host and path of a citation, has
    been probed as a candidate of a known domain: alive, it is among the
    items of the answer with the note of that path; dead, it is on the
    rejected list with the note [URL does not respond]. *)
Theorem unparsable_url_known_domain
    P city content rawParts matched rawParts' answer c :
  let cs := V3.extractCitations P content in
  c ∈ cs ->
  URL P (Citation.url c) = None ->
  "Unknown" ∈ V3.realDomainSet cs /\
  (V3.crossReference P city cs rawParts matched = (rawParts', Normal answer) ->
   exists parsedItems st,
     JSON_parse P matched = Some parsedItems /\
     V3.checkItems P city cs 0 parsedItems V3.initialState = Normal st /\
     forall i it, parsedItems !! i = Some it ->
       exists item u,
         V3.newItem P city i it = Normal item /\ Item.url item = JStr u /\
         (startsWith u "http" = true ->
          URL P u = None ->
          (forall c', c' ∈ cs ->
             Citation.url c' <> u /\ V3.hostPath P (Citation.url c') <> Some u) ->
          V3.extractDomain P u ∈ V3.realDomainSet cs /\
          (i, u) ∈ probes st /\
          exists alive : bool,
            result (V3.verifyUrl (fetch P i) u) = Normal alive /\
            if alive
            then Item.setNote (Item.setVerified item) noteLiveKnown ∈ items answer
            else Item.setNote item noteDead ∈ rejectedItems st /\
                 outcomeOf (Item.setNote item noteDead) = Some RejectedDead)).
Proof.
  intros cs Hc Hbad. split.
  - apply elem_of_realDomainSet. exists c. split; [exact Hc|].
    rewrite (extractCitations_source _ _ _ Hc). unfold V3.extractDomain.
    rewrite Hbad. reflexivity.
  - intros Hanswer.
    destruct (crossReference_answer _ _ _ _ _ _ _ Hanswer)
      as (parsedItems & st & Hparse & Hrun & Hitems & _).
    exists parsedItems, st. split; [exact Hparse|]. split; [exact Hrun|].
    intros i it Hi.
    destruct (run_item_url _ _ _ _ _ _ _ Hrun Hi) as (item & u & Hnew & Hurl).
    exists item, u. split; [exact Hnew|]. split; [exact Hurl|].
    intros Hhttp Hu Hfresh. rewrite Hitems.
    destruct (run_unparsable _ _ _ _ _ _ _ _ _ _ Hc Hbad Hrun Hi Hnew Hurl Hhttp Hu Hfresh)
      as (_ & H). exact H.
Qed.

(** ** Claims synthesized from the citations *)

(** C5 (amended). When the cleaned text holds neither the no-results token
    nor a bracketed array, and at least one citation was extracted, the
    answer holds one claim for every citation whose url and title are both
    non-empty, in order: title and url of the citation, its snippet or the
    placeholder as summary, [verified] true and the note that it comes
    directly from the search results; the counts are [n], [n] and [0] for
    [n] the number of those citations. *)
Theorem synthesized_from_usable_citations P city allContent :
  let textParts := omap V3.textOf allContent in
  let cs := V3.extractCitations P allContent in
  let usable := filter (fun c => V3.usable c = true) cs in
  includes (V3.cleanedText textParts) V3.noResultsToken = false ->
  matchArray (V3.cleanedText textParts) = None ->
  0 < List.length cs ->
  let answer := V3.search P city allContent in
  List.length (items answer) = List.length usable /\
  stats answer = {| Stats.totalFound := List.length usable;
                    Stats.verified := List.length usable;
                    Stats.rejected := 0 |} /\
  verifiedSources answer = cs /\
  (forall i c, usable !! i = Some c ->
     exists x, items answer !! i = Some x /\
       Item.title x = JStr (Citation.title c) /\
       Item.url x = JStr (Citation.url c) /\
       Item.summary x = JStr (strOr (Citation.snippet c)
                                "Click source link to read the original article.") /\
       Item.category x = JStr "other" /\
       Item.severity x = JStr "medium" /\
       Item.location x = city /\
       Item.verified x = true /\
       Item.verificationNote x = noteDirect).
Proof.
  intros textParts cs usable Htoken Hmatch Hcs answer.
  subst answer. unfold V3.search.
  fold textParts. fold cs. rewrite Htoken, Hmatch.
  rewrite (bool_decide_eq_true_2 _ Hcs).
  unfold V3.fromCitations. simpl. fold usable.
  rewrite length_imap.
  split; [reflexivity|]. split; [reflexivity|]. split; [reflexivity|].
  intros i c Hi. exists (V3.synthesized P city i c).
  rewrite list_lookup_imap, Hi. simpl. repeat split.
Qed.

(** ** Category and severity *)

Lemma run_verified_origin P city cs its st x :
  V3.checkItems P city cs 0 its V3.initialState = Normal st ->
  x ∈ verifiedItems st ->
  exists k it item,
    its !! k = Some it /\ V3.newItem P city k it = Normal item /\ sameClaim item x.
Proof.
  intros Hrun Hx.
  destruct (run_verified_inv _ _ _ _ _ _ Hrun Hx) as (k & it & d & Hk & Hturn & Hd).
  destruct (turn_one _ _ _ _ _ _ Hturn)
    as (item & y & Hnew & Hsame & [(Hv & _)|(Hv & _)]); rewrite Hv in Hd.
  - apply list_elem_of_singleton in Hd as ->. exists k, it, item. auto.
  - inversion Hd.
Qed.

Lemma newItem_getProp P city i it item k :
  V3.newItem P city i it = Normal item -> getProp it k = Normal (propOf it k).
Proof. destruct it; simpl; intros H; try discriminate; reflexivity. Qed.

(** C7 (amended). Every claim of an answer either was synthesized from a
    citation, with category [other] and severity [medium], or is the item
    built for one candidate of the parsed array (the candidate at the
    index that the id of the claim ends with: same id, title, summary,
    source, url, timestamp and location) and carries that candidate's own
    category and severity, whatever values they are, [other] and [medium]
    standing in for a value that is absent or falsy. *)
Theorem category_severity_as_given P city allContent x :
  x ∈ items (V3.search P city allContent) ->
  (exists i c,
     filter (fun c => V3.usable c = true) (V3.extractCitations P allContent) !! i
     = Some c /\
     x = V3.synthesized P city i c /\
     Item.category x = JStr "other" /\ Item.severity x = JStr "medium" /\
     Item.verificationNote x = noteDirect)
  \/ (exists matched parsedItems i it item c s,
        matchArray (V3.cleanedText (omap V3.textOf allContent)) = Some matched /\
        JSON_parse P matched = Some parsedItems /\
        parsedItems !! i = Some it /\
        V3.newItem P city i it = Normal item /\
        sameClaim item x /\
        getProp it "category" = Normal c /\
        getProp it "severity" = Normal s /\
        Item.category x = orDefault c (JStr "other") /\
        Item.severity x = orDefault s (JStr "medium")).
Proof.
  unfold V3.search.
  destruct (includes _ _); [intros H; inversion H|].
  destruct (matchArray _) as [matched|] eqn:Hmatch.
  - destruct (V3.crossReference _ _ _ _ _) as [rp [answer|e]] eqn:Hcross;
      [|intros H; inversion H].
    apply crossReference_answer in Hcross as (its & st & Hparse & Hrun & Hitems & _).
    rewrite Hitems. intros Hx. right.
    destruct (run_verified_origin _ _ _ _ _ _ Hrun Hx)
      as (k & it & item & Hk & Hnew & Hsame).
    exists matched, its, k, it, item, (propOf it "category"), (propOf it "severity").
    split; [reflexivity|]. split; [exact Hparse|]. split; [exact Hk|].
    split; [exact Hnew|]. split; [exact Hsame|].
    split; [eapply newItem_getProp, Hnew|].
    split; [eapply newItem_getProp, Hnew|].
    destruct Hsame as (_ & _ & _ & _ & _ & _ & Hcat & Hsev & _).
    rewrite Hcat, Hsev, (newItem_eq _ _ _ _ _ Hnew). split; reflexivity.
  - destruct (bool_decide _); [|intros H; inversion H].
    unfold V3.fromCitations. simpl. intros Hx. left.
    apply list_elem_of_lookup in Hx as (i & Hi).
    rewrite list_lookup_imap in Hi.
    destruct (filter _ _ !! i) as [c|] eqn:Hc; [|discriminate].
    injection Hi as <-. exists i, c. auto.
Qed.

(** ** The two versions *)

Section Versions.

Variable P : platform.

(** The probes of the two versions send different [User-Agent] headers;
    the assumption is that a URL has one probe outcome, whichever version
    asks. *)
Hypothesis same_probe :
  forall i u, result (V2.verifyUrl (fetch P i) u) = result (V3.verifyUrl (fetch P i) u).

Lemma crossCheck_same cs i item u st :
  V2.crossCheck P cs i item u st = V3.crossCheck P cs i item u st.
Proof.
  unfold V2.crossCheck, V3.crossCheck. rewrite same_probe. reflexivity.
Qed.

Lemma checkItem_same city cs i it st :
  V2.checkItem P city cs i it st = V3.checkItem P city cs i it st.
Proof.
  unfold V2.checkItem, V3.checkItem.
  change (V2.newItem P city i it) with (V3.newItem P city i it).
  destruct (V3.newItem P city i it) as [item|e]; [|reflexivity].
  rewrite !bind_Normal.
  destruct (negb (truthy (Item.url item))); [reflexivity|].
  destruct (Item.url item); try reflexivity.
  destruct (negb (startsWith s "http")); [reflexivity|].
  apply crossCheck_same.
Qed.

Lemma checkItems_same city cs i its st :
  V2.checkItems P city cs i its st = V3.checkItems P city cs i its st.
Proof.
  revert i st. induction its as [|it rest IH]; intros i st; simpl; [reflexivity|].
  rewrite checkItem_same.
  destruct (V3.checkItem P city cs i it st) as [st'|e]; [|reflexivity].
  rewrite !bind_Normal. apply IH.
Qed.

(** The lines of the two transcripts differ, but they convert the same
    values, so that one throws exactly when the other does. *)
Lemma pushRejected_same rs rp2 rp3 :
  (V2.pushRejected P rs rp2).2 = (V3.pushRejected P rs rp3).2.
Proof.
  revert rp2 rp3. induction rs as [|r rest IH]; intros rp2 rp3; simpl; [reflexivity|].
  unfold V2.rejectedLine, V3.rejectedLine.
  destruct (ToString P (Item.title r)) as [t|e]; [|reflexivity].
  destruct (ToString P (Item.url r)) as [u|e]; [|reflexivity].
  rewrite !bind_Normal. apply IH.
Qed.

Lemma crossReference_same city cs rp2 rp3 matched :
  match (V2.crossReference P city cs rp2 matched).2,
        (V3.crossReference P city cs rp3 matched).2 with
  | Normal a2, Normal a3 =>
      items a2 = items a3 /\ stats a2 = stats a3 /\
      verifiedSources a2 = verifiedSources a3
  | Throw _, Throw _ => True
  | _, _ => False
  end.
Proof.
  unfold V2.crossReference, V3.crossReference.
  destruct (JSON_parse P matched) as [its|]; [|exact I].
  change V2.initialState with V3.initialState. rewrite checkItems_same.
  destruct (V3.checkItems P city cs 0 its V3.initialState) as [st|e]; [|exact I].
  destruct (bool_decide (0 < List.length (rejectedItems st))).
  - pose proof (pushRejected_same (rejectedItems st)
                  (rp2 ++ [newline +:+ "--- REJECTED (FAILED VERIFICATION) ---"])
                  (rp3 ++ [newline +:+ "--- REJECTED (FAILED VERIFICATION) ---"])) as Hsame.
    destruct (V2.pushRejected _ _ _) as [r2 [u2|e2]],
             (V3.pushRejected _ _ _) as [r3 [u3|e3]];
      simpl in Hsame; try discriminate; simpl; auto.
  - simpl. auto.
Qed.

End Versions.

(** A network that answers the requests of the two versions alike, as one
    that ignores the [User-Agent] header does, gives one probe outcome per
    URL. *)
Lemma same_answers_same_probe (net : request -> completion fetchResponse) :
  (forall u, net (V2.headRequest u) = net (V3.headRequest u)) ->
  (forall u, net (V2.rangeRequest u) = net (V3.rangeRequest u)) ->
  forall u, result (V2.verifyUrl net u) = result (V3.verifyUrl net u).
Proof.
  intros Hhead Hrange u. unfold V2.verifyUrl, V3.verifyUrl, await.
  rewrite Hhead, Hrange.
  destruct (net (V3.headRequest u)) as [r|e]; simpl; [reflexivity|].
  destruct (net (V3.rangeRequest u)) as [r2|e2]; reflexivity.
Qed.

(** C9. Given one probe outcome per URL, the cross-reference loops of v2.0
    and v3.0 agree on every list of citations and of candidates: they
    complete on the same inputs, with the same accepted and rejected lists
    (items, with their notes, in the same order) and the same probes; and
    the answers of the two handlers have the same items, the same counts
    and the same citations. *)
Theorem versions_agree P city :
  (forall i u, result (V2.verifyUrl (fetch P i) u)
               = result (V3.verifyUrl (fetch P i) u)) ->
  (forall cs parsedItems,
     V2.checkItems P city cs 0 parsedItems V2.initialState
     = V3.checkItems P city cs 0 parsedItems V3.initialState) /\
  (forall allContent,
     items (V2.search P city allContent) = items (V3.search P city allContent) /\
     stats (V2.search P city allContent) = stats (V3.search P city allContent) /\
     verifiedSources (V2.search P city allContent)
     = verifiedSources (V3.search P city allContent)).
Proof.
  intros Hprobe. split.
  - intros cs its. apply checkItems_same, Hprobe.
  - intros allContent. unfold V2.search, V3.search.
    change (V2.cleanedText (omap V2.textOf allContent))
      with (V3.cleanedText (omap V3.textOf allContent)).
    change V2.noResultsToken with V3.noResultsToken.
    change (V2.extractCitations P allContent) with (V3.extractCitations P allContent).
    destruct (includes _ _); [auto|].
    destruct (matchArray _) as [matched|].
    + pose proof (crossReference_same P Hprobe city (V3.extractCitations P allContent)
        (V2.transcript (filter (fun b => V2.isSearchPart b = true) allContent)
           (V3.extractCitations P allContent) (omap V2.textOf allContent))
        (V3.transcript (filter (fun b => V3.isSearchPart b = true) allContent)
           (V3.extractCitations P allContent) (omap V3.textOf allContent))
        matched) as Hsame.
      destruct (V2.crossReference _ _ _ _ _) as [r2 [a2|e2]],
               (V3.crossReference _ _ _ _ _) as [r3 [a3|e3]];
        simpl in Hsame; try contradiction; auto.
    + destruct (bool_decide _); auto.
Qed.

(** ** The theorems at work on the sample data *)

Lemma noURL_rejected_unprobed_witness :
  (Item.setNote Sample.linklessItem noteNoURL ∉ items Sample.answer) /\
  Item.setNote Sample.linklessItem noteNoURL ∈ rejectedItems Sample.final /\
  (forall u, (1, u) ∉ probes Sample.final) /\
  exists line,
    V3.rejectedLine Example.node (Item.setNote Sample.linklessItem noteNoURL)
    = Normal line /\ line ∈ Sample.after.
Proof.
  destruct (noURL_rejected_unprobed Example.node Sample.city Sample.citations
              Sample.before Sample.candidatesText Sample.after Sample.answer)
    as (parsedItems & st & Hparse & Hrun & _ & _ & Hall).
  - vm_compute. reflexivity.
  - assert (parsedItems = Sample.candidates) as ->
      by (vm_compute in Hparse; injection Hparse as <-; reflexivity).
    assert (st = Sample.final) as ->
      by (vm_compute in Hrun; injection Hrun as <-; reflexivity).
    destruct (Hall 1 Sample.linklessCandidate eq_refl) as (item & s & Hnew & Hurl & H).
    assert (item = Sample.linklessItem) as ->
      by (vm_compute in Hnew; injection Hnew as <-; reflexivity).
    assert (s = EmptyString) as -> by (injection Hurl as <-; reflexivity).
    destruct (H eq_refl) as (_ & _ & H1 & H2 & H3 & H4).
    split; [exact H2|]. split; [exact H3|]. split; [exact H1|exact H4].
Defined.


Lemma confirmed_without_probe_witness :
  Item.setNote (Item.setVerified Sample.confirmedItem) noteConfirmed
    ∈ items Sample.answer /\
  (forall p, (0, p) ∉ probes Sample.final).
Proof.
  destruct (confirmed_without_probe Example.node Sample.city Sample.citations
              Sample.before Sample.candidatesText Sample.after Sample.answer)
    as (parsedItems & st & Hparse & Hrun & Hall).
  - vm_compute. reflexivity.
  - assert (parsedItems = Sample.candidates) as ->
      by (vm_compute in Hparse; injection Hparse as <-; reflexivity).
    assert (st = Sample.final) as ->
      by (vm_compute in Hrun; injection Hrun as <-; reflexivity).
    destruct (Hall 0 Sample.confirmedCandidate eq_refl) as (item & u & Hnew & Hurl & H).
    assert (item = Sample.confirmedItem) as ->
      by (vm_compute in Hnew; injection Hnew as <-; reflexivity).
    assert (u = "https://www.example.com/news/sinkhole") as ->
      by (injection Hurl as <-; reflexivity).
    destruct H as (H1 & _ & _ & _ & H2).
    + reflexivity.
    + exists (V3.citationOf Example.node Sample.page), "www.example.com/news/sinkhole".
      split; [left|]. split; [right; reflexivity|right; reflexivity].
    + split; [exact H1|exact H2].
Defined.

Lemma unparsable_url_known_domain_witness :
  "Unknown" ∈ V3.realDomainSet Sample.citations /\
  (4, "https://exa mple.com/a") ∈ probes Sample.final /\
  Item.setNote Sample.garbledItem noteDead ∈ rejectedItems Sample.final.
Proof.
  destruct (unparsable_url_known_domain Example.node Sample.city Sample.results
              Sample.before Sample.candidatesText Sample.after Sample.answer
              (V3.citationOf Example.node Sample.broken))
    as (H1 & Hrest).
  - right. left.
  - reflexivity.
  - split; [exact H1|].
    destruct Hrest as (parsedItems & st & Hparse & Hrun & Hall).
    { vm_compute. reflexivity. }
    assert (parsedItems = Sample.candidates) as ->
      by (vm_compute in Hparse; injection Hparse as <-; reflexivity).
    assert (st = Sample.final) as ->
      by (vm_compute in Hrun; injection Hrun as <-; reflexivity).
    destruct (Hall 4 Sample.garbledCandidate eq_refl) as (item & u & Hnew & Hurl & H).
    assert (item = Sample.garbledItem) as ->
      by (vm_compute in Hnew; injection Hnew as <-; reflexivity).
    assert (u = "https://exa mple.com/a") as -> by (injection Hurl as <-; reflexivity).
    destruct H as (_ & H2 & alive & Hprobe & H3).
    + reflexivity.
    + reflexivity.
    + apply Forall_forall. repeat constructor; discriminate.
    + split; [exact H2|].
      assert (alive = false) as -> by (vm_compute in Hprobe; congruence).
      apply H3.
Defined.

Lemma synthesized_from_usable_citations_witness :
  List.length (items (V3.search Example.node Sample.city Sample.proseAnswer)) = 1 /\
  stats (V3.search Example.node Sample.city Sample.proseAnswer)
  = {| Stats.totalFound := 1; Stats.verified := 1; Stats.rejected := 0 |}.
Proof.
  destruct (synthesized_from_usable_citations Example.node Sample.city Sample.proseAnswer)
    as (H1 & H2 & _).
  - reflexivity.
  - reflexivity.
  - vm_compute. lia.
  - split; [exact H1|exact H2].
Defined.

Lemma category_severity_as_given_witness :
  (exists i c,
     filter (fun c => V3.usable c = true)
       (V3.extractCitations Example.node Sample.offVocabularyAnswer) !! i = Some c /\
     Sample.offVocabularyItem = V3.synthesized Example.node Sample.city i c /\
     Item.category Sample.offVocabularyItem = JStr "other" /\
     Item.severity Sample.offVocabularyItem = JStr "medium" /\
     Item.verificationNote Sample.offVocabularyItem = noteDirect)
  \/ (exists matched parsedItems i it item c s,
        matchArray (V3.cleanedText (omap V3.textOf Sample.offVocabularyAnswer))
          = Some matched /\
        JSON_parse Example.node matched = Some parsedItems /\
        parsedItems !! i = Some it /\
        V3.newItem Example.node Sample.city i it = Normal item /\
        sameClaim item Sample.offVocabularyItem /\
        getProp it "category" = Normal c /\
        getProp it "severity" = Normal s /\
        Item.category Sample.offVocabularyItem = orDefault c (JStr "other") /\
        Item.severity Sample.offVocabularyItem = orDefault s (JStr "medium")).
Proof.
  apply (category_severity_as_given Example.node Sample.city Sample.offVocabularyAnswer).
  vm_compute. left.
Defined.

Lemma versions_agree_witness :
  V2.checkItems Example.node Sample.city Sample.citations 0 Sample.candidates
    V2.initialState = Normal Sample.final /\
  stats (V2.search Example.node Sample.city Sample.offVocabularyAnswer)
  = stats (V3.search Example.node Sample.city Sample.offVocabularyAnswer).
Proof.
  destruct (versions_agree Example.node Sample.city) as (H1 & H2).
  - intros i. apply same_answers_same_probe; intros u; reflexivity.
  - split.
    + rewrite H1. vm_compute. reflexivity.
    + apply H2.
Defined.

(** ** Where the code and the specification part *)

Lemma extractDomain_unparsable P u : URL P u = None -> V3.extractDomain P u = "Unknown".
Proof. unfold V3.extractDomain. intros ->. reflexivity. Qed.

Lemma extractDomain_leading_www P u parsed :
  URL P u = Some parsed ->
  String.prefix "www." (hostname parsed) = true ->
  V3.extractDomain P u = stripLeadingWww (hostname parsed).
Proof.
  unfold V3.extractDomain, stripLeadingWww. intros -> Hwww.
  destruct (hostname parsed) as [|c rest]; [discriminate|].
  unfold replaceFirst. rewrite Hwww. reflexivity.
Qed.

(** C6. For the host [dev-www.example.com] the code returns
    [dev-example.com]: the [www.] it removes is the first one anywhere in
    the host, not a leading prefix, whereas the specification leaves this
    host as it is.  A url that does not parse gives [Unknown]. *)
Theorem extractDomain_inner_www :
  URL Example.node "https://dev-www.example.com/news"
  = Some {| hostname := "dev-www.example.com"; pathname := "/news" |} /\
  V3.extractDomain Example.node "https://dev-www.example.com/news" = "dev-example.com" /\
  stripLeadingWww "dev-www.example.com" = "dev-www.example.com" /\
  V3.extractDomain Example.node "https://" = "Unknown".
Proof. repeat split. Qed.

(** C3, as stated, fails: the url of this candidate is the url of a
    citation, and its host and path are the key of that citation, yet the
    candidate is rejected with outcome NoURL, because the url does not
    start with [http]. *)
Lemma confirmed_needs_http_scheme :
  "ftp://ftp.example.com/report.pdf" ∈ V3.realUrlSet Example.node [Sample.ftpCitation] /\
  V3.urlKey Example.node "ftp://ftp.example.com/report.pdf"
    ∈ V3.realUrlSet Example.node [Sample.ftpCitation] /\
  V3.checkItems Example.node Sample.city [Sample.ftpCitation] 0 [Sample.ftpCandidate]
    V3.initialState
  = Normal {| verifiedItems := [];
              rejectedItems := [Sample.ftpRejected];
              probes := [] |} /\
  outcomeOf Sample.ftpRejected = Some NoURL.
Proof.
  split; [apply (bool_decide_unpack _); vm_compute; exact I|].
  split; [apply (bool_decide_unpack _); vm_compute; exact I|].
  split; vm_compute; reflexivity.
Qed.

(** C5, as stated, fails: one citation was extracted and the text has no
    array, yet no claim is synthesized and the counts are zero, because the
    citation has no title.  It fails as well when the text holds the
    no-results token: the citation has a url and a title, and the answer is
    empty all the same. *)
Lemma untitled_citation_not_synthesized :
  (List.length (V3.extractCitations Example.node Sample.proseAnswerUntitled) = 1 /\
   includes (V3.cleanedText (omap V3.textOf Sample.proseAnswerUntitled))
     V3.noResultsToken = false /\
   matchArray (V3.cleanedText (omap V3.textOf Sample.proseAnswerUntitled)) = None /\
   items (V3.search Example.node Sample.city Sample.proseAnswerUntitled) = [] /\
   stats (V3.search Example.node Sample.city Sample.proseAnswerUntitled) = emptyStats) /\
  (List.length (V3.extractCitations Example.node Sample.noResultsAnswer) = 1 /\
   matchArray (V3.cleanedText (omap V3.textOf Sample.noResultsAnswer)) = None /\
   items (V3.search Example.node Sample.city Sample.noResultsAnswer) = [] /\
   stats (V3.search Example.node Sample.city Sample.noResultsAnswer) = emptyStats).
Proof. repeat split. Qed.

(** C7, as stated, fails: the claim of this answer is emitted with a
    category and a severity that are in neither vocabulary. *)
Lemma category_outside_vocabulary :
  items (V3.search Example.node Sample.city Sample.offVocabularyAnswer)
  = [Sample.offVocabularyItem] /\
  Item.category Sample.offVocabularyItem = JStr "ufo_sightings" /\
  Item.severity Sample.offVocabularyItem = JStr "catastrophic" /\
  ("ufo_sightings" ∉ categoryVocabulary) /\
  ("catastrophic" ∉ severityLevels).
Proof.
  split; [vm_compute; reflexivity|].
  split; [reflexivity|]. split; [reflexivity|].
  split; rewrite list_elem_of_In; simpl; intuition discriminate.
Qed.

(** C10, as stated, fails: a citation has a url that does not parse, this
    candidate's url passes the scheme check, does not parse and cannot be
    reached, yet the candidate is not probed and not rejected: its url is
    the url of the citation, and it is confirmed. *)
Lemma unparsable_url_confirmed :
  URL Example.node "https://" = None /\
  "Unknown" ∈ V3.realDomainSet (V3.extractCitations Example.node Sample.brokenResults) /\
  startsWith "https://" "http" = true /\
  result (V3.verifyUrl (fetch Example.node 0) "https://") = Normal false /\
  V3.checkItems Example.node Sample.city
    (V3.extractCitations Example.node Sample.brokenResults) 0 [Sample.brokenCandidate]
    V3.initialState
  = Normal {| verifiedItems := [Sample.brokenConfirmed];
              rejectedItems := [];
              probes := [] |} /\
  outcomeOf Sample.brokenConfirmed = Some Confirmed.
Proof.
  split; [reflexivity|].
  split; [apply (bool_decide_unpack _); vm_compute; exact I|].
  split; [reflexivity|]. split; [reflexivity|].
  split; vm_compute; reflexivity.
Qed.

(** C1, as stated, fails: the array of this answer parses to two
    candidates, the first of which is confirmed when the loop checks it,
    yet [totalFound] is zero, as are the other counts: the second
    candidate is [null], the loop throws on it, and the [catch] answers
    with counts of zero. *)
Lemma totalFound_not_candidate_count :
  includes (V3.cleanedText (omap V3.textOf Fixture.confirmedThenNull))
    V3.noResultsToken = false /\
  matchArray (V3.cleanedText (omap V3.textOf Fixture.confirmedThenNull))
  = Some Fixture.confirmedThenNullText /\
  JSON_parse Example.node Fixture.confirmedThenNullText
  = Some [Fixture.bareConfirmed; JNull] /\
  V3.checkItem Example.node Sample.city Sample.citations 0 Fixture.bareConfirmed
    V3.initialState
  = Normal {| verifiedItems := [Fixture.acceptedBare];
              rejectedItems := [];
              probes := [] |} /\
  V3.checkItems Example.node Sample.city Sample.citations 0
    [Fixture.bareConfirmed; JNull] V3.initialState = Throw TypeError /\
  stats (V3.search Example.node Sample.city Fixture.confirmedThenNull) = emptyStats /\
  Stats.totalFound (stats (V3.search Example.node Sample.city Fixture.confirmedThenNull))
  = 0.
Proof. repeat split; vm_compute; reflexivity. Qed.

(** C2, as stated, fails twice.  The first candidate of this answer has an
    empty url, and the loop rejects it with outcome NoURL; yet it is in no
    rejected list of the answer: the second candidate is [null], the loop
    throws on it, and the answer has no item, counts of zero and a
    transcript without a rejected section.  And a url that starts with
    [http] without having the scheme [http] or [https] passes the check:
    this candidate, checked against no citation, is probed, and rejected
    as fabricated. *)
Lemma noURL_lost_with_null_sibling :
  (JSON_parse Example.node Fixture.linklessThenNullText
   = Some [Fixture.linklessB; JNull] /\
   V3.checkItem Example.node Sample.city Sample.citations 0 Fixture.linklessB
     V3.initialState
   = Normal {| verifiedItems := [];
               rejectedItems := [Fixture.rejectedB];
               probes := [] |} /\
   outcomeOf Fixture.rejectedB = Some NoURL /\
   V3.search Example.node Sample.city Fixture.linklessThenNull
   = V3.emptyResponse (rawPartsOf Example.node Fixture.linklessThenNull)
       Sample.citations /\
   includes (rawResponse (V3.search Example.node Sample.city Fixture.linklessThenNull))
     "REJECTED" = false) /\
  (startsWith "httpx://example.com/a" "http" = true /\
   V3.checkItems Example.node Sample.city [] 0 [Fixture.httpxCandidate]
     V3.initialState
   = Normal {| verifiedItems := [];
               rejectedItems := [Fixture.httpxRejected];
               probes := [(0, "httpx://example.com/a")] |} /\
   outcomeOf Fixture.httpxRejected = Some RejectedFabricated).
Proof. repeat split; vm_compute; reflexivity. Qed.


(** ** The scenarios of the specification *)

Example scenario_A :
  map (fun x => (Item.title x, outcomeOf x))
      (items (V3.search Example.node Sample.city Sample.scenarioA))
  = [(JStr "A", Some Confirmed)] /\
  stats (V3.search Example.node Sample.city Sample.scenarioA)
  = {| Stats.totalFound := 1; Stats.verified := 1; Stats.rejected := 0 |} /\
  V3.checkItems Example.node Sample.city
    (V3.extractCitations Example.node Sample.scenarioResults) 0
    [JObj [("url", JStr "https://example.com/a"); ("title", JStr "A")]]
    V3.initialState
  = Normal {| verifiedItems := items (V3.search Example.node Sample.city Sample.scenarioA);
              rejectedItems := [];
              probes := [] |}.
Proof. repeat split; vm_compute; reflexivity. Qed.

Example scenario_B :
  items (V3.search Example.node Sample.city Sample.scenarioB) = [] /\
  stats (V3.search Example.node Sample.city Sample.scenarioB)
  = {| Stats.totalFound := 1; Stats.verified := 0; Stats.rejected := 1 |} /\
  map (fun x => (Item.title x, outcomeOf x))
      (rejectedItems
         (Sample.stateOf
            (V3.checkItems Example.node Sample.city
               (V3.extractCitations Example.node Sample.scenarioResults) 0
               [JObj [("url", JStr EmptyString); ("title", JStr "B")]]
               V3.initialState)))
  = [(JStr "B", Some NoURL)].
Proof. repeat split; vm_compute; reflexivity. Qed.

Example scenario_C :
  items (V3.search Example.node Sample.city Sample.scenarioC) = [] /\
  stats (V3.search Example.node Sample.city Sample.scenarioC) = emptyStats.
Proof. repeat split. Qed.

Example scenario_D :
  items (V3.search Example.node Sample.city Sample.scenarioD) = [] /\
  stats (V3.search Example.node Sample.city Sample.scenarioD)
  = {| Stats.totalFound := 1; Stats.verified := 0; Stats.rejected := 1 |} /\
  V3.verifyUrl Example.net "https://flaky.example.net/d"
  = Traced [V3.headRequest "https://flaky.example.net/d";
            V3.rangeRequest "https://flaky.example.net/d"] (Normal false) /\
  map (fun x => (Item.title x, outcomeOf x))
      (rejectedItems
         (Sample.stateOf
            (V3.checkItems Example.node Sample.city
               (V3.extractCitations Example.node Sample.scenarioResults) 0
               [JObj [("url", JStr "https://flaky.example.net/d"); ("title", JStr "D")]]
               V3.initialState)))
  = [(JStr "D", Some RejectedFabricated)].
Proof. repeat split; vm_compute; reflexivity. Qed.

(** ** The rate limiter *)

Section LimiterFacts.

Context {K : Type} `{Countable K}.

Implicit Types (m : gmap K RateLimit.record) (ip : K).

Lemma checkRateLimit_other m ip ip' now :
  ip <> ip' -> (RateLimit.checkRateLimit m ip now).2 !! ip' = m !! ip'.
Proof.
  intros Hne. unfold RateLimit.checkRateLimit.
  destruct (m !! ip) as [r|]; repeat case_bool_decide; simpl;
    rewrite ?lookup_insert_ne by done; reflexivity.
Qed.

(** The call looks at the record of its key only. *)
Lemma checkRateLimit_local m1 m2 ip now :
  m1 !! ip = m2 !! ip ->
  (RateLimit.checkRateLimit m1 ip now).1 = (RateLimit.checkRateLimit m2 ip now).1 /\
  (RateLimit.checkRateLimit m1 ip now).2 !! ip
  = (RateLimit.checkRateLimit m2 ip now).2 !! ip.
Proof.
  intros Heq. unfold RateLimit.checkRateLimit. rewrite <- Heq.
  destruct (m1 !! ip) as [r|] eqn:Hr; repeat case_bool_decide; simpl;
    rewrite ?lookup_insert_eq; split; congruence.
Qed.

Lemma serve_cons m ip now rest :
  RateLimit.serve m ((ip, now) :: rest)
  = ((RateLimit.checkRateLimit m ip now).1
       :: (RateLimit.serve (RateLimit.checkRateLimit m ip now).2 rest).1,
     (RateLimit.serve (RateLimit.checkRateLimit m ip now).2 rest).2).
Proof.
  cbn [RateLimit.serve].
  destruct (RateLimit.checkRateLimit m ip now) as [allowed m']. cbn [fst snd].
  destruct (RateLimit.serve m' rest) as [answers final]. reflexivity.
Qed.

(** The three cases of a call. *)
Lemma checkRateLimit_fresh m ip now :
  m !! ip = None \/
  (exists r, m !! ip = Some r /\ (now - RateLimit.windowStart r > 60000)%Z) ->
  RateLimit.checkRateLimit m ip now
  = (true, <[ip := {| RateLimit.windowStart := now; RateLimit.count := 1 |}]> m).
Proof.
  unfold RateLimit.checkRateLimit. intros [->|(r & -> & Hr)]; [reflexivity|].
  rewrite bool_decide_eq_true_2 by exact Hr. reflexivity.
Qed.

Lemma checkRateLimit_full m ip r now :
  m !! ip = Some r -> (now - RateLimit.windowStart r <= 60000)%Z ->
  5 <= RateLimit.count r ->
  RateLimit.checkRateLimit m ip now = (false, m).
Proof.
  unfold RateLimit.checkRateLimit. intros -> Hnow Hfull.
  rewrite bool_decide_eq_false_2 by lia.
  rewrite bool_decide_eq_true_2 by exact Hfull. reflexivity.
Qed.

Lemma checkRateLimit_counted m ip r now :
  m !! ip = Some r -> (now - RateLimit.windowStart r <= 60000)%Z ->
  RateLimit.count r < 5 ->
  RateLimit.checkRateLimit m ip now
  = (true, <[ip := {| RateLimit.windowStart := RateLimit.windowStart r;
                      RateLimit.count := S (RateLimit.count r) |}]> m).
Proof.
  unfold RateLimit.checkRateLimit. intros -> Hnow Hroom.
  rewrite bool_decide_eq_false_2 by lia.
  rewrite bool_decide_eq_false_2 by lia. reflexivity.
Qed.

Lemma serve_window_aux m ip r ts :
  m !! ip = Some r ->
  (forall t, t ∈ ts -> (t - RateLimit.windowStart r <= 60000)%Z) ->
  (RateLimit.serve m (pair ip <$> ts)).1
  = (fun k => bool_decide (RateLimit.count r + k < 5)) <$> seq 0 (List.length ts) /\
  (RateLimit.serve m (pair ip <$> ts)).2 !! ip
  = Some {| RateLimit.windowStart := RateLimit.windowStart r;
            RateLimit.count := RateLimit.count r
                               + Nat.min (List.length ts) (5 - RateLimit.count r) |}.
Proof.
  intros Hr Hts. revert m r Hr Hts.
  induction ts as [|t ts IH]; intros m r Hr Hts.
  - simpl. split; [reflexivity|]. rewrite Hr, Nat.add_0_r. destruct r; reflexivity.
  - assert (Ht : (t - RateLimit.windowStart r <= 60000)%Z) by (apply Hts; left).
    assert (Hrest : forall t', t' ∈ ts -> (t' - RateLimit.windowStart r <= 60000)%Z)
      by (intros t' Ht'; apply Hts; right; exact Ht').
    rewrite fmap_cons, serve_cons.
    destruct (decide (5 <= RateLimit.count r)) as [Hfull|Hroom].
    + rewrite (checkRateLimit_full _ _ _ _ Hr Ht Hfull). cbn [fst snd].
      destruct (IH m r Hr Hrest) as [IH1 IH2]. split.
      * change (List.length (t :: ts)) with (S (List.length ts)).
        cbn [seq fmap list_fmap]. rewrite Nat.add_0_r.
        rewrite bool_decide_eq_false_2 by lia. f_equal.
        rewrite IH1, <- fmap_S_seq, <- list_fmap_compose.
        apply list_fmap_ext. intros _ k _. simpl.
        apply bool_decide_ext. lia.
      * rewrite IH2.
        apply (f_equal Some), (f_equal (RateLimit.Build_record _)).
        change (List.length (t :: ts)) with (S (List.length ts)). lia.
    + rewrite (checkRateLimit_counted _ _ _ _ Hr Ht) by lia. cbn [fst snd].
      set (r' := {| RateLimit.windowStart := RateLimit.windowStart r;
                    RateLimit.count := S (RateLimit.count r) |}).
      assert (Hr' : <[ip := r']> m !! ip = Some r') by apply lookup_insert_eq.
      destruct (IH (<[ip := r']> m) r' Hr' Hrest) as [IH1 IH2]. split.
      * change (List.length (t :: ts)) with (S (List.length ts)).
        cbn [seq fmap list_fmap]. rewrite Nat.add_0_r.
        rewrite bool_decide_eq_true_2 by lia. f_equal.
        rewrite IH1, <- fmap_S_seq, <- list_fmap_compose.
        apply list_fmap_ext. intros _ k _. simpl.
        apply bool_decide_ext. lia.
      * rewrite IH2. unfold r'.
        cbn [RateLimit.windowStart RateLimit.count].
        change (List.length (t :: ts)) with (S (List.length ts)).
        apply (f_equal Some), (f_equal (RateLimit.Build_record _)). lia.
Qed.

Lemma window_answers_step c n :
  (fun k => bool_decide (c + k < 5)) <$> seq 0 (S n)
  = bool_decide (c < 5) :: ((fun k => bool_decide (S c + k < 5)) <$> seq 0 n).
Proof.
  cbn [seq fmap list_fmap]. rewrite Nat.add_0_r. f_equal.
  rewrite <- fmap_S_seq, <- list_fmap_compose.
  apply list_fmap_ext. intros _ k _. simpl. apply bool_decide_ext. lia.
Qed.

Lemma allowedCount_window c n :
  RateLimit.allowedCount ((fun k => bool_decide (c + k < 5)) <$> seq 0 n)
  = Nat.min n (5 - c).
Proof.
  revert c. induction n as [|n IH]; intros c; [reflexivity|].
  rewrite window_answers_step. unfold RateLimit.allowedCount in *.
  rewrite filter_cons.
  destruct (decide (bool_decide (c < 5) = true)) as [Hyes|Hno].
  - apply bool_decide_eq_true in Hyes.
    change (S (List.length (filter (fun a => a = true)
              ((fun k => bool_decide (S c + k < 5)) <$> seq 0 n)))
            = Nat.min (S n) (5 - c)).
    rewrite IH. lia.
  - apply not_true_is_false, bool_decide_eq_false in Hno. rewrite IH. lia.
Qed.

(** X1. While the window of a client is open, the calls of that client are
    let through until its count reaches five and refused from then on:
    with a count of [c] at the start, the first [5 - c] calls pass, and
    the record keeps its window start. *)
Theorem window_lets_five_through m ip r ts :
  m !! ip = Some r ->
  (forall t, t ∈ ts -> (t - RateLimit.windowStart r <= 60000)%Z) ->
  (RateLimit.serve m (pair ip <$> ts)).1
  = (fun k => bool_decide (RateLimit.count r + k < 5)) <$> seq 0 (List.length ts) /\
  RateLimit.allowedCount (RateLimit.serve m (pair ip <$> ts)).1
  = Nat.min (List.length ts) (5 - RateLimit.count r) /\
  (RateLimit.serve m (pair ip <$> ts)).2 !! ip
  = Some {| RateLimit.windowStart := RateLimit.windowStart r;
            RateLimit.count := RateLimit.count r
                               + Nat.min (List.length ts) (5 - RateLimit.count r) |}.
Proof.
  intros Hr Hts. destruct (serve_window_aux m ip r ts Hr Hts) as [H1 H2].
  split; [exact H1|]. split; [|exact H2].
  rewrite H1. apply allowedCount_window.
Qed.

(** X2. A client without a record, or whose window is over, opens a window
    with its call: that call and the next four within 60000 ms of it pass,
    and every further call within those 60000 ms is refused. *)
Theorem fresh_window_five_calls m ip t0 ts :
  m !! ip = None \/
  (exists r, m !! ip = Some r /\ (t0 - RateLimit.windowStart r > 60000)%Z) ->
  (forall t, t ∈ ts -> (t - t0 <= 60000)%Z) ->
  (RateLimit.serve m ((ip, t0) :: (pair ip <$> ts))).1
  = true :: ((fun k => bool_decide (k < 4)) <$> seq 0 (List.length ts)) /\
  RateLimit.allowedCount (RateLimit.serve m ((ip, t0) :: (pair ip <$> ts))).1
  = Nat.min (S (List.length ts)) 5.
Proof.
  intros Hfresh Hts. rewrite serve_cons, (checkRateLimit_fresh _ _ _ Hfresh).
  cbn [fst snd].
  set (r := {| RateLimit.windowStart := t0; RateLimit.count := 1 |}).
  destruct (serve_window_aux (<[ip := r]> m) ip r ts) as [H1 _].
  { apply lookup_insert_eq. }
  { exact Hts. }
  rewrite H1. simpl RateLimit.count.
  assert (Heq : (fun k => bool_decide (1 + k < 5)) <$> seq 0 (List.length ts)
                = (fun k => bool_decide (k < 4)) <$> seq 0 (List.length ts)).
  { apply list_fmap_ext. intros _ k _. apply bool_decide_ext. lia. }
  rewrite Heq. split; [reflexivity|].
  rewrite <- Heq. unfold RateLimit.allowedCount. rewrite filter_cons_True by reflexivity.
  change (List.length (?x :: ?l)) with (S (List.length l)).
  cbn [List.length]. fold (RateLimit.allowedCount
    ((fun k => bool_decide (1 + k < 5)) <$> seq 0 (List.length ts))).
  rewrite allowedCount_window. lia.
Qed.

Lemma serve_answersTo_aux ip calls m1 m2 :
  m1 !! ip = m2 !! ip ->
  RateLimit.answersTo ip calls (RateLimit.serve m1 calls).1
  = (RateLimit.serve m2 (filter (fun c => c.1 = ip) calls)).1 /\
  (RateLimit.serve m1 calls).2 !! ip
  = (RateLimit.serve m2 (filter (fun c => c.1 = ip) calls)).2 !! ip.
Proof.
  revert m1 m2. induction calls as [|[ip' now] calls IH]; intros m1 m2 Heq.
  - simpl. auto.
  - rewrite serve_cons. cbn [RateLimit.answersTo fst].
    rewrite filter_cons. cbn [fst].
    destruct (decide (ip' = ip)) as [->|Hne].
    + rewrite serve_cons. cbn [fst snd].
      destruct (checkRateLimit_local m1 m2 ip now Heq) as [Hans Hmap].
      destruct (IH _ _ Hmap) as [IH1 IH2].
      rewrite Hans, IH1. auto.
    + cbn [snd]. apply IH. rewrite checkRateLimit_other by exact Hne. exact Heq.
Qed.

(** X3. Clients do not interfere: in any series of calls, the answers given
    to one client, and its record at the end, are those the limiter gives
    when it sees the calls of that client alone. *)
Theorem clients_are_independent m ip calls :
  RateLimit.answersTo ip calls (RateLimit.serve m calls).1
  = (RateLimit.serve m (filter (fun c => c.1 = ip) calls)).1 /\
  (RateLimit.serve m calls).2 !! ip
  = (RateLimit.serve m (filter (fun c => c.1 = ip) calls)).2 !! ip.
Proof. apply serve_answersTo_aux. reflexivity. Qed.

Lemma cleaned_later t t' m1 m2 : (t <= t')%Z -> RateLimit.cleaned t m1 m2 -> RateLimit.cleaned t' m1 m2.
Proof.
  intros Hle Hrel ip. destruct (Hrel ip) as [Heq|(Hnone & r & Hr & Hold)]; [auto|].
  right. split; [exact Hnone|]. exists r. split; [exact Hr|lia].
Qed.

Lemma cleaned_prune t m1 m2 : RateLimit.cleaned t m1 m2 -> RateLimit.cleaned t (RateLimit.prune m1 t) m2.
Proof.
  intros Hrel ip. unfold RateLimit.prune.
  destruct (Hrel ip) as [Heq|(Hnone & r & Hr & Hold)].
  - destruct (m1 !! ip) as [r|] eqn:Hm1.
    + destruct (decide (t - RateLimit.windowStart r > 120000)%Z) as [Hold|Hkeep].
      * right. split.
        { apply map_lookup_filter_None. right. intros r' Hr' Hkeep. simpl in Hkeep.
          rewrite Hm1 in Hr'. injection Hr' as <-. contradiction. }
        exists r. split; [auto|lia].
      * left. rewrite <- Heq. apply map_lookup_filter_Some. split; [exact Hm1|exact Hkeep].
    + left. rewrite <- Heq. apply map_lookup_filter_None. left. exact Hm1.
  - right. split; [|eauto]. apply map_lookup_filter_None. left. exact Hnone.
Qed.

Lemma cleaned_call t m1 m2 ip now :
  (t <= now)%Z -> RateLimit.cleaned t m1 m2 ->
  (RateLimit.checkRateLimit m1 ip now).1 = (RateLimit.checkRateLimit m2 ip now).1 /\
  RateLimit.cleaned now (RateLimit.checkRateLimit m1 ip now).2
              (RateLimit.checkRateLimit m2 ip now).2.
Proof.
  intros Hle Hrel. destruct (Hrel ip) as [Heq|(Hnone & r & Hr & Hold)].
  - destruct (checkRateLimit_local m1 m2 ip now Heq) as [Hans Hmap].
    split; [exact Hans|]. intros ip'. destruct (decide (ip = ip')) as [<-|Hne]; [auto|].
    rewrite !checkRateLimit_other by exact Hne.
    apply (cleaned_later t now _ _ Hle Hrel).
  - rewrite (checkRateLimit_fresh m1) by auto.
    rewrite (checkRateLimit_fresh m2) by (right; exists r; split; [exact Hr|lia]).
    split; [reflexivity|]. cbn [snd]. intros ip'.
    destruct (decide (ip = ip')) as [<-|Hne].
    + left. rewrite !lookup_insert_eq. reflexivity.
    + rewrite !lookup_insert_ne by exact Hne.
      apply (cleaned_later t now _ _ Hle Hrel).
Qed.

Lemma run_serve_aux events t m1 m2 :
  RateLimit.cleaned t m1 m2 ->
  RateLimit.clockAdvances t events ->
  (RateLimit.run m1 events).1 = (RateLimit.serve m2 (omap RateLimit.callOf events)).1.
Proof.
  revert t m1 m2. induction events as [|[ip now|now] events IH]; intros t m1 m2 Hrel Hclock.
  - reflexivity.
  - destruct Hclock as [Hle Hclock]. simpl in Hle, Hclock.
    cbn [omap list_omap RateLimit.callOf]. rewrite serve_cons.
    cbn [RateLimit.run].
    destruct (cleaned_call t m1 m2 ip now Hle Hrel) as [Hans Hrel'].
    destruct (RateLimit.checkRateLimit m1 ip now) as [allowed m1'].
    cbn [fst snd] in *.
    pose proof (IH now m1' _ Hrel' Hclock) as Hrest.
    destruct (RateLimit.run m1' events) as [answers final]. cbn [fst] in *.
    rewrite Hans, Hrest. reflexivity.
  - destruct Hclock as [Hle Hclock]. simpl in Hle, Hclock.
    cbn [omap list_omap RateLimit.callOf RateLimit.run].
    apply (IH now); [|exact Hclock].
    apply cleaned_prune, (cleaned_later t now _ _ Hle Hrel).
Qed.

(** X4. The periodic cleanup cannot be observed: as long as the clock does
    not go back, the answers of the limiter to a series of calls are the
    same whether or not the cleanup runs in between, whenever it runs. *)
Theorem cleanup_is_unobservable m start events :
  RateLimit.clockAdvances start events ->
  (RateLimit.run m events).1 = (RateLimit.serve m (omap RateLimit.callOf events)).1.
Proof.
  intros Hclock. apply (run_serve_aux events start m m); [|exact Hclock].
  intros ip. left. reflexivity.
Qed.

Lemma checkRateLimit_countsInRange m ip now :
  RateLimit.countsInRange m -> RateLimit.countsInRange (RateLimit.checkRateLimit m ip now).2.
Proof.
  intros Hm. unfold RateLimit.checkRateLimit.
  destruct (m !! ip) as [r|] eqn:Hr.
  - pose proof (Hm ip r Hr) as Hrange. simpl in Hrange.
    repeat case_bool_decide; cbn [snd]; [| exact Hm |];
      apply map_Forall_insert_2; simpl; auto with lia.
  - cbn [snd]. apply map_Forall_insert_2; simpl; auto with lia.
Qed.

(** X5. The count of a record is never below one nor above five: the
    counts are in that range at the end of every series of calls and
    cleanups that starts from a map with counts in that range; and right
    after a cleanup at the time [now] no record has a window that started
    more than 120000 ms before. *)
Theorem counts_stay_in_range m events :
  RateLimit.countsInRange m ->
  RateLimit.countsInRange (RateLimit.run m events).2 /\
  (forall now, map_Forall (fun _ r => (now - RateLimit.windowStart r <= 120000)%Z)
                 (RateLimit.prune (RateLimit.run m events).2 now)).
Proof.
  intros Hm. split.
  - revert m Hm. induction events as [|[ip now|now] events IH]; intros m Hm.
    + exact Hm.
    + cbn [RateLimit.run].
      pose proof (checkRateLimit_countsInRange m ip now Hm) as Hm'.
      destruct (RateLimit.checkRateLimit m ip now) as [allowed m'].
      pose proof (IH m' Hm') as Hrest.
      destruct (RateLimit.run m' events) as [answers final]. exact Hrest.
    + cbn [RateLimit.run]. apply IH. unfold RateLimit.prune.
      intros ip r Hr. apply map_lookup_filter_Some in Hr as [Hr _]. exact (Hm ip r Hr).
  - intros now ip r Hr. unfold RateLimit.prune in Hr.
    apply map_lookup_filter_Some in Hr as [_ Hkeep]. simpl in *. lia.
Qed.

End LimiterFacts.

Lemma window_lets_five_through_witness :
  (RateLimit.serve Fixture.busy (pair Fixture.client <$> Fixture.laterCalls)).1
  = [true; true; false; false] /\
  RateLimit.allowedCount
    (RateLimit.serve Fixture.busy (pair Fixture.client <$> Fixture.laterCalls)).1 = 2.
Proof.
  destruct (window_lets_five_through Fixture.busy Fixture.client Fixture.counted
              Fixture.laterCalls) as (H1 & H2 & _).
  - reflexivity.
  - apply Forall_forall. repeat constructor; simpl; lia.
  - split; [exact H1|exact H2].
Defined.

Lemma fresh_window_five_calls_witness :
  (RateLimit.serve ∅ ((Fixture.client, 0%Z) :: (pair Fixture.client <$> Fixture.burst))).1
  = [true; true; true; true; true; false; false] /\
  RateLimit.allowedCount
    (RateLimit.serve ∅ ((Fixture.client, 0%Z) :: (pair Fixture.client <$> Fixture.burst))).1
  = 5.
Proof.
  destruct (fresh_window_five_calls ∅ Fixture.client 0 Fixture.burst) as (H1 & H2).
  - left. reflexivity.
  - apply Forall_forall. repeat constructor; simpl; lia.
  - split; [exact H1|exact H2].
Defined.

Lemma cleanup_is_unobservable_witness :
  (RateLimit.run Fixture.busy Fixture.day).1
  = (RateLimit.serve Fixture.busy (omap RateLimit.callOf Fixture.day)).1.
Proof.
  apply (cleanup_is_unobservable Fixture.busy 0 Fixture.day).
  simpl. repeat split; lia.
Defined.

Lemma counts_stay_in_range_witness :
  RateLimit.countsInRange (RateLimit.run Fixture.busy Fixture.day).2.
Proof.
  destruct (counts_stay_in_range Fixture.busy Fixture.day) as (H1 & _).
  - intros ip r Hr. unfold Fixture.busy in Hr.
    apply lookup_singleton_Some in Hr as [_ <-]. simpl. lia.
  - exact H1.
Defined.

(** ** The TDEC data store *)

Lemma assign_keys {A} k (v : A) obj :
  k ∈ map fst obj -> map fst (Tdec.assign k v obj) = map fst obj.
Proof.
  induction obj as [|[k' v'] rest IH]; simpl; [intros Hin; inversion Hin|].
  intros Hin. destruct (String.eqb k k') eqn:Hk.
  - apply String.eqb_eq in Hk as ->. reflexivity.
  - simpl. f_equal. apply IH. apply elem_of_cons in Hin as [->|Hin]; [|exact Hin].
    rewrite String.eqb_refl in Hk. discriminate.
Qed.

Lemma assign_fresh {A} k (v : A) obj :
  k ∉ map fst obj -> Tdec.assign k v obj = obj ++ [(k, v)].
Proof.
  induction obj as [|[k' v'] rest IH]; simpl; [reflexivity|].
  intros Hnot. destruct (String.eqb k k') eqn:Hk.
  - apply String.eqb_eq in Hk as ->. exfalso. apply Hnot. left.
  - f_equal. apply IH. intros Hin. apply Hnot. right. exact Hin.
Qed.

Lemma member_assign_eq {A} k (v : A) obj : Tdec.member k (Tdec.assign k v obj) = Some v.
Proof.
  induction obj as [|[k' v'] rest IH]; simpl.
  - rewrite String.eqb_refl. reflexivity.
  - destruct (String.eqb k k') eqn:Hk; simpl; rewrite ?String.eqb_refl, ?Hk; auto.
Qed.

Lemma member_assign_ne {A} k k' (v : A) obj :
  k <> k' -> Tdec.member k' (Tdec.assign k v obj) = Tdec.member k' obj.
Proof.
  intros Hne. induction obj as [|[k0 v0] rest IH]; simpl.
  - destruct (String.eqb k' k) eqn:Hk; [|reflexivity].
    apply String.eqb_eq in Hk. congruence.
  - destruct (String.eqb k k0) eqn:Hk; simpl.
    + apply String.eqb_eq in Hk as <-.
      destruct (String.eqb k' k) eqn:Hk'; [|reflexivity].
      apply String.eqb_eq in Hk'. congruence.
    + rewrite IH. reflexivity.
Qed.

Lemma existsb_eqb_elem_of ty l : existsb (String.eqb ty) l = true <-> ty ∈ l.
Proof.
  rewrite existsb_exists, list_elem_of_In. split.
  - intros (x & Hx & Heq). apply String.eqb_eq in Heq as ->. exact Hx.
  - intros Hin. exists ty. split; [exact Hin|apply String.eqb_refl].
Qed.

Lemma upload_cases P uploadKey stamp store body :
  uploadCase P uploadKey stamp store body
    (Tdec.upload P uploadKey stamp store body).1
    (Tdec.upload P uploadKey stamp store body).2.
Proof.
  unfold Tdec.upload.
  destruct (Tdec.key body) as [[| | |k| |]|] eqn:Hkey;
    try (apply upload_forbidden; rewrite Hkey; congruence).
  destruct (String.eqb k uploadKey) eqn:Hk.
  2:{ apply upload_forbidden. rewrite Hkey. intros [= ->].
      rewrite String.eqb_refl in Hk. discriminate. }
  apply String.eqb_eq in Hk as ->.
  destruct (Tdec.type body) as [[| | |ty| |]|] eqn:Hty;
    try (apply upload_bad_type; [exact Hkey|intros ty' Hty'; rewrite Hty in Hty'; discriminate]).
  destruct (existsb (String.eqb ty) Tdec.validTypes) eqn:Hvalid.
  2:{ apply upload_bad_type; [exact Hkey|]. intros ty' Hty'. rewrite Hty in Hty'.
      injection Hty' as <-. intros Hin. apply existsb_eqb_elem_of in Hin. congruence. }
  apply existsb_eqb_elem_of in Hvalid.
  destruct (Tdec.body_records body) as [[| | | |recs|]|] eqn:Hrecs;
    try (apply (upload_bad_records _ _ _ _ _ ty); auto; rewrite Hrecs; congruence).
  destruct (ToString P _) as [s|e] eqn:Hlog; simpl;
    apply upload_stored; auto; rewrite Hlog; reflexivity.
Qed.

Lemma tdecStats_fold store total acc :
  NoDup (map fst acc ++ map fst store) ->
  foldl (fun '(total, stats) '(ty, d) =>
           (total + List.length (Tdec.records d),
            Tdec.assign ty {| Tdec.local := List.length (Tdec.records d);
                              Tdec.stats_statewide := Tdec.statewide d;
                              Tdec.stats_lastUpdated := Tdec.lastUpdated d |} stats))
        (total, acc) store
  = (total + Tdec.tdecTotal store,
     acc ++ map (fun entry => (entry.1, statsOf entry.2)) store).
Proof.
  unfold Tdec.tdecTotal.
  assert (Hsum : forall l n, foldl (fun s v => s + List.length (Tdec.records v)) n l
                             = n + foldl (fun s v => s + List.length (Tdec.records v)) 0 l).
  { induction l as [|v l IH]; intros n; simpl; [lia|].
    rewrite IH, (IH (List.length (Tdec.records v))). lia. }
  revert total acc. induction store as [|[ty d] rest IH]; intros total acc Hnodup; simpl.
  - rewrite app_nil_r. f_equal. lia.
  - rewrite assign_fresh.
    2:{ simpl in Hnodup. apply NoDup_app in Hnodup as (_ & Hdisj & _).
        intros Hin. apply (Hdisj ty Hin). left. }
    rewrite IH.
    2:{ rewrite map_app. simpl. rewrite <- app_assoc. exact Hnodup. }
    rewrite (Hsum _ (List.length (Tdec.records d))).
    rewrite <- app_assoc. simpl. f_equal. lia.
Qed.

Lemma tdecStats_spec store :
  NoDup (map fst store) ->
  Tdec.tdecStats store
  = (Tdec.tdecTotal store, map (fun entry => (entry.1, statsOf entry.2)) store).
Proof.
  intros Hnodup. unfold Tdec.tdecStats. rewrite tdecStats_fold; [reflexivity|exact Hnodup].
Qed.

Lemma validTypes_NoDup : NoDup Tdec.validTypes.
Proof. apply (bool_decide_unpack _). vm_compute. exact I. Qed.

Lemma upload_keeps_keys P uploadKey stamp store body :
  map fst store = Tdec.validTypes ->
  map fst (Tdec.upload P uploadKey stamp store body).2 = Tdec.validTypes.
Proof.
  intros Hkeys. destruct (upload_cases P uploadKey stamp store body); try exact Hkeys.
  rewrite assign_keys; [exact Hkeys|]. rewrite Hkeys. assumption.
Qed.

Lemma uploads_cons P uploadKey store stamp body rest :
  Tdec.uploads P uploadKey store ((stamp, body) :: rest)
  = ((Tdec.upload P uploadKey stamp store body).1
       :: (Tdec.uploads P uploadKey (Tdec.upload P uploadKey stamp store body).2 rest).1,
     (Tdec.uploads P uploadKey (Tdec.upload P uploadKey stamp store body).2 rest).2).
Proof.
  cbn [Tdec.uploads].
  destruct (Tdec.upload P uploadKey stamp store body) as [answer store']. cbn [fst snd].
  destruct (Tdec.uploads P uploadKey store' rest). reflexivity.
Qed.

Lemma uploads_keep_keys P uploadKey store requests :
  map fst store = Tdec.validTypes ->
  map fst (Tdec.uploads P uploadKey store requests).2 = Tdec.validTypes.
Proof.
  revert store. induction requests as [|[stamp body] rest IH]; intros store Hkeys.
  - exact Hkeys.
  - rewrite uploads_cons. cbn [snd]. apply IH, upload_keeps_keys, Hkeys.
Qed.

Lemma member_map_stats k store :
  Tdec.member k (map (fun entry => (entry.1, statsOf entry.2)) store)
  = statsOf <$> Tdec.member k store.
Proof.
  induction store as [|[k' d] rest IH]; simpl; [reflexivity|].
  destruct (String.eqb k k'); [reflexivity|exact IH].
Qed.

Lemma tdecTotal_assign ty d store old :
  NoDup (map fst store) ->
  Tdec.member ty store = Some old ->
  Tdec.tdecTotal (Tdec.assign ty d store) + List.length (Tdec.records old)
  = Tdec.tdecTotal store + List.length (Tdec.records d).
Proof.
  unfold Tdec.tdecTotal.
  assert (Hsum : forall l n, foldl (fun s v => s + List.length (Tdec.records v)) n l
                             = n + foldl (fun s v => s + List.length (Tdec.records v)) 0 l).
  { induction l as [|v l IH]; intros n; simpl; [lia|].
    rewrite IH, (IH (List.length (Tdec.records v))). lia. }
  induction store as [|[k' d'] rest IH]; simpl; [discriminate|].
  intros Hnodup Hold. apply NoDup_cons in Hnodup as [Hk' Hnodup].
  destruct (String.eqb ty k') eqn:Hk.
  - injection Hold as ->. simpl.
    rewrite (Hsum _ (List.length (Tdec.records d))),
            (Hsum _ (List.length (Tdec.records old))). lia.
  - simpl. rewrite (Hsum _ (List.length (Tdec.records d'))).
    rewrite (Hsum (map snd rest) (List.length (Tdec.records d'))).
    specialize (IH Hnodup Hold). lia.
Qed.

Lemma member_of_key {A} k (obj : list (string * A)) :
  k ∈ map fst obj -> exists v, Tdec.member k obj = Some v.
Proof.
  induction obj as [|[k' v'] rest IH]; simpl; [intros Hin; inversion Hin|].
  intros Hin. destruct (String.eqb k k') eqn:Hk; [eauto|].
  apply IH. apply elem_of_cons in Hin as [->|Hin]; [|exact Hin].
  rewrite String.eqb_refl in Hk. discriminate.
Qed.

(** X6. The store is replaced only by a request that carries the upload
    key, one of the five types and an array of records: a request without
    a body makes the handler throw and changes nothing; a request with a
    body and without the key is answered 403 and changes nothing; a store
    that has changed, or a success answer, means that the body, the key,
    the type and the array were there; an answer 403 or 400 means that the
    store is as it was. *)
Theorem upload_guarded P uploadKey stamp store reqBody :
  let answer := (Tdec.handleUpload P uploadKey stamp store reqBody).1 in
  let store' := (Tdec.handleUpload P uploadKey stamp store reqBody).2 in
  (reqBody = None -> answer = Tdec.Thrown TypeError /\ store' = store) /\
  (forall body, reqBody = Some body -> Tdec.key body <> Some (JStr uploadKey) ->
   answer = Tdec.Forbidden "Invalid upload key" /\ store' = store) /\
  (store' <> store \/ (exists ty n sw, answer = Tdec.Stored ty n sw) ->
   exists body ty recs,
     reqBody = Some body /\
     Tdec.key body = Some (JStr uploadKey) /\
     Tdec.type body = Some (JStr ty) /\ ty ∈ Tdec.validTypes /\
     Tdec.body_records body = Some (JArr recs)) /\
  ((exists error, answer = Tdec.Forbidden error \/ answer = Tdec.BadRequest error) ->
   store' = store).
Proof.
  intros answer store'. subst answer store'.
  destruct reqBody as [body|]; cbn [Tdec.handleUpload].
  2:{ cbn [fst snd]. split; [auto|]. split; [discriminate|]. split; [|auto].
      intros [Hne|(ty & n & sw & Heq)]; [congruence|discriminate]. }
  split; [discriminate|].
  destruct (upload_cases P uploadKey stamp store body)
    as [Hkey|Hkey Hty|ty Hkey Hty Hvalid Hrecs|ty recs answer Hkey Hty Hvalid Hrecs Hans].
  - split; [auto|]. split; [|auto].
    intros [Hne|(ty & n & sw & Heq)]; [congruence|discriminate].
  - split; [intros b [= <-]; congruence|]. split; [|auto].
    intros [Hne|(ty & n & sw & Heq)]; [congruence|discriminate].
  - split; [intros b [= <-]; congruence|]. split; [|auto].
    intros [Hne|(ty' & n & sw & Heq)]; [congruence|discriminate].
  - split; [intros b [= <-]; congruence|]. split; [eauto 10|].
    intros (error & [Heq|Heq]); rewrite Hans in Heq;
      destruct (ToString P _); discriminate.
Qed.

(** X7. An upload that is answered with success can be read back: the data
    set of its type holds the records sent, the time stamp of the upload
    and the statewide figure of the answer, the other data sets are as they
    were, the statistics list the data set with the number of records sent,
    and the total has moved by the difference between the new and the old
    number of records of that type. *)
Theorem upload_then_stats P uploadKey stamp store body ty n sw :
  map fst store = Tdec.validTypes ->
  (Tdec.upload P uploadKey stamp store body).1 = Tdec.Stored ty n sw ->
  let store' := (Tdec.upload P uploadKey stamp store body).2 in
  exists recs old,
    Tdec.body_records body = Some (JArr recs) /\ n = List.length recs /\
    Tdec.member ty store = Some old /\
    Tdec.member ty store'
    = Some {| Tdec.records := recs; Tdec.lastUpdated := Some stamp;
              Tdec.statewide := sw |} /\
    (forall k, k <> ty -> Tdec.member k store' = Tdec.member k store) /\
    Tdec.member ty (Tdec.tdecStats store').2
    = Some {| Tdec.local := n; Tdec.stats_statewide := sw;
              Tdec.stats_lastUpdated := Some stamp |} /\
    (forall k, k <> ty ->
       Tdec.member k (Tdec.tdecStats store').2 = Tdec.member k (Tdec.tdecStats store).2) /\
    (Tdec.tdecStats store').1 + List.length (Tdec.records old)
    = (Tdec.tdecStats store).1 + n.
Proof.
  intros Hkeys Hans store'. subst store'.
  assert (Hnodup : NoDup (map fst store)) by (rewrite Hkeys; apply validTypes_NoDup).
  pose proof (upload_keeps_keys P uploadKey stamp store body Hkeys) as Hkeys'.
  assert (Hnodup' : NoDup (map fst (Tdec.upload P uploadKey stamp store body).2))
    by (rewrite Hkeys'; apply validTypes_NoDup).
  rewrite (tdecStats_spec _ Hnodup), (tdecStats_spec _ Hnodup'). cbn [fst snd].
  destruct (upload_cases P uploadKey stamp store body)
    as [Hkey|Hkey Hty|ty' Hkey Hty Hvalid Hrecs|ty' recs answer Hkey Hty Hvalid Hrecs Heq];
    try discriminate.
  rewrite Heq in Hans. destruct (ToString P _); [|discriminate].
  injection Hans as -> <- <-.
  destruct (member_of_key ty store) as (old & Hold); [rewrite Hkeys; exact Hvalid|].
  exists recs, old.
  split; [exact Hrecs|]. split; [reflexivity|]. split; [exact Hold|].
  split; [apply member_assign_eq|].
  split; [intros k Hk; apply member_assign_ne; congruence|].
  split; [rewrite member_map_stats, member_assign_eq; reflexivity|].
  split; [intros k Hk; rewrite !member_map_stats, member_assign_ne by congruence;
          reflexivity|].
  match goal with
  | |- Tdec.tdecTotal (Tdec.assign ty ?d store) + _ = _ =>
      exact (tdecTotal_assign ty d store old Hnodup Hold)
  end.
Qed.

(** X8. A request with the key, a valid type and an array of records whose
    [statewide] member cannot be converted to a string makes the handler
    throw at its log line, after the assignment: the client is answered
    with a failure, and the data set has been replaced all the same. *)
Theorem upload_thrown_after_store P uploadKey stamp store body ty recs e :
  Tdec.key body = Some (JStr uploadKey) ->
  Tdec.type body = Some (JStr ty) -> ty ∈ Tdec.validTypes ->
  Tdec.body_records body = Some (JArr recs) ->
  ToString P (orDefault (Tdec.body_statewide body) (JStr "?")) = Throw e ->
  (Tdec.upload P uploadKey stamp store body).1 = Tdec.Thrown e /\
  Tdec.member ty (Tdec.upload P uploadKey stamp store body).2
  = Some {| Tdec.records := recs; Tdec.lastUpdated := Some stamp;
            Tdec.statewide := orDefault (Tdec.body_statewide body)
                                (JNum (Z.of_nat (List.length recs))) |}.
Proof.
  intros Hkey Hty Hvalid Hrecs Hlog. unfold Tdec.upload.
  rewrite Hkey, String.eqb_refl, Hty, (proj2 (existsb_eqb_elem_of _ _) Hvalid), Hrecs, Hlog.
  split; [reflexivity|]. apply member_assign_eq.
Qed.

(** X9. Whatever is uploaded, in whatever order, the store keeps its five
    data sets in the order of their declaration; the statistics list
    exactly those five, each with the number of its records, and their
    total is the sum of those numbers, which is also the figure of the
    health check. *)
Theorem store_keeps_five_datasets P uploadKey requests :
  let store := (Tdec.uploads P uploadKey Tdec.tdecStore requests).2 in
  map fst store = Tdec.validTypes /\
  (Tdec.tdecStats store).2 = map (fun entry => (entry.1, statsOf entry.2)) store /\
  map fst (Tdec.tdecStats store).2 = Tdec.validTypes /\
  (Tdec.tdecStats store).1 = Tdec.tdecTotal store /\
  (Tdec.tdecStats store).1
  = foldr Nat.add 0 (map (fun entry => Tdec.local entry.2) (Tdec.tdecStats store).2).
Proof.
  intros store.
  assert (Hkeys : map fst store = Tdec.validTypes)
    by (apply uploads_keep_keys; reflexivity).
  assert (Hnodup : NoDup (map fst store)) by (rewrite Hkeys; apply validTypes_NoDup).
  rewrite (tdecStats_spec _ Hnodup). cbn [fst snd].
  split; [exact Hkeys|]. split; [reflexivity|].
  split; [rewrite map_map; exact Hkeys|]. split; [reflexivity|].
  rewrite map_map. cbn [snd statsOf Tdec.local]. unfold Tdec.tdecTotal.
  clear. generalize store. intros l.
  assert (Hsum : forall l n, foldl (fun s v => s + List.length (Tdec.records v)) n l
                             = n + foldl (fun s v => s + List.length (Tdec.records v)) 0 l).
  { clear. induction l as [|v l IH]; intros n; simpl; [lia|].
    rewrite IH, (IH (List.length (Tdec.records v))). lia. }
  induction l as [|[k d] rest IH]; simpl; [reflexivity|].
  rewrite Hsum, IH. reflexivity.
Qed.

Lemma prefix_append a b c : String.prefix (a +:+ b) (a +:+ c) = String.prefix b c.
Proof.
  induction a as [|ch a IH]; simpl; [reflexivity|].
  destruct (ascii_dec ch ch); [exact IH|congruence].
Qed.

Lemma prefix_append_self a b : String.prefix a (a +:+ b) = true.
Proof.
  induction a as [|ch a IH]; simpl; [destruct b; reflexivity|].
  destruct (ascii_dec ch ch); [exact IH|congruence].
Qed.

Section FeedFacts.

Variable P : platform.
Variable JSON_stringify : json -> string.
Variable toLowerCase : string -> string.

Lemma categoryOf_in text : Tdec.categoryOf text ∈ feedCategories.
Proof.
  unfold Tdec.categoryOf, feedCategories.
  repeat match goal with |- context [if ?c then _ else _] => destruct c end;
    apply list_elem_of_In; simpl; auto 10.
Qed.

Lemma feedItem_shape sourceType i r item :
  Tdec.feedItem P JSON_stringify toLowerCase sourceType i r = Normal item ->
  Tdec.FeedItem.rawRecord item = r /\
  Tdec.FeedItem.verified item = true /\
  Tdec.FeedItem.category item ∈ feedCategories /\
  Tdec.FeedItem.severity item ∈ feedSeverities /\
  (getProp r "_priority" = Normal (Some (JStr "HIGH")) ->
   Tdec.FeedItem.severity item = "high") /\
  Tdec.FeedItem.source item = "TDEC " +:+ sourceType /\
  Tdec.FeedItem.url item = "https://dataviewers.tdec.tn.gov/dataviewers/" /\
  String.prefix ("tdec_" +:+ sourceType +:+ "_") (Tdec.FeedItem.id item) = true.
Proof.
  unfold Tdec.feedItem. intros Hitem. bind_inv Hitem.
  injection Hitem as <-.
  cbn [Tdec.FeedItem.rawRecord Tdec.FeedItem.verified Tdec.FeedItem.category
       Tdec.FeedItem.severity Tdec.FeedItem.source Tdec.FeedItem.url Tdec.FeedItem.id].
  split; [reflexivity|]. split; [reflexivity|].
  split; [apply categoryOf_in|].
  split.
  { unfold feedSeverities.
    repeat match goal with |- context [if ?c then _ else _] => destruct c end;
      apply list_elem_of_In; simpl; auto. }
  split.
  { intros [= ->]. reflexivity. }
  split; [reflexivity|]. split; [reflexivity|].
  rewrite !prefix_append. apply prefix_append_self.
Qed.

Lemma feedItemsFrom_shape sourceType i records items :
  Tdec.feedItemsFrom P JSON_stringify toLowerCase sourceType i records = Normal items ->
  List.length items = List.length records /\
  forall k item, items !! k = Some item ->
    exists r, records !! k = Some r /\
      Tdec.feedItem P JSON_stringify toLowerCase sourceType (i + k) r = Normal item.
Proof.
  revert i items. induction records as [|r rest IH]; intros i items; simpl.
  - intros [= <-]. split; [reflexivity|]. intros k item Hk. discriminate.
  - intros Hitems. bind_inv Hitems. injection Hitems as <-.
    destruct (IH _ _ Hbind0) as [Hlen Hall]. split; [simpl; congruence|].
    intros [|k] item Hk; simpl in Hk.
    + injection Hk as <-. exists r. rewrite Nat.add_0_r. auto.
    + destruct (Hall k item Hk) as (r' & Hr' & Hitem).
      exists r'. split; [exact Hr'|]. replace (i + S k) with (S i + k) by lia. exact Hitem.
Qed.

End FeedFacts.

(** X10. When the conversion of a data set to feed items returns, it has
    one item per record, in order, each holding its record; every item is
    marked verified, points to the TDEC data viewer, names its data set as
    source and in its id, has one of five categories and a severity that is
    medium or high, high whenever the record has the priority [HIGH]. *)
Theorem feed_items_shape P JSON_stringify toLowerCase records sourceType items :
  Tdec.tdecToFeedItems P JSON_stringify toLowerCase records sourceType = Normal items ->
  List.length items = List.length records /\
  forall k item, items !! k = Some item ->
    records !! k = Some (Tdec.FeedItem.rawRecord item) /\
    Tdec.FeedItem.verified item = true /\
    Tdec.FeedItem.category item ∈ feedCategories /\
    Tdec.FeedItem.severity item ∈ feedSeverities /\
    (getProp (Tdec.FeedItem.rawRecord item) "_priority" = Normal (Some (JStr "HIGH")) ->
     Tdec.FeedItem.severity item = "high") /\
    Tdec.FeedItem.source item = "TDEC " +:+ sourceType /\
    Tdec.FeedItem.url item = "https://dataviewers.tdec.tn.gov/dataviewers/" /\
    String.prefix ("tdec_" +:+ sourceType +:+ "_") (Tdec.FeedItem.id item) = true.
Proof.
  unfold Tdec.tdecToFeedItems. intros Hitems.
  destruct (feedItemsFrom_shape _ _ _ _ _ _ _ Hitems) as [Hlen Hall].
  split; [exact Hlen|]. intros k item Hk.
  destruct (Hall k item Hk) as (r & Hr & Hitem).
  destruct (feedItem_shape _ _ _ _ _ _ _ Hitem) as (Hraw & H).
  rewrite Hraw. split; [exact Hr|exact H].
Qed.

Lemma upload_then_stats_witness :
  Tdec.member "wells"
    (Tdec.upload Example.node (Tdec.UPLOAD_KEY None) Fixture.stamp Tdec.tdecStore
       Fixture.goodUpload).2
  = Some {| Tdec.records := Fixture.wells; Tdec.lastUpdated := Some Fixture.stamp;
            Tdec.statewide := JNum 1200 |} /\
  (Tdec.tdecStats
     (Tdec.upload Example.node (Tdec.UPLOAD_KEY None) Fixture.stamp Tdec.tdecStore
        Fixture.goodUpload).2).1 = 2.
Proof.
  destruct (upload_then_stats Example.node (Tdec.UPLOAD_KEY None) Fixture.stamp
              Tdec.tdecStore Fixture.goodUpload "wells" 2 (JNum 1200))
    as (recs & old & Hrecs & _ & Hold & Hnew & _ & _ & _ & Htotal).
  - reflexivity.
  - vm_compute. reflexivity.
  - injection Hrecs as <-. injection Hold as <-. split; [exact Hnew|].
    change (List.length (Tdec.records Tdec.emptyDataset)) with 0 in Htotal.
    change ((Tdec.tdecStats Tdec.tdecStore).1) with 0 in Htotal. lia.
Defined.

Lemma upload_thrown_after_store_witness :
  (Tdec.upload Example.node (Tdec.UPLOAD_KEY None) Fixture.stamp Tdec.tdecStore
     Fixture.oddUpload).1 = Tdec.Thrown TypeError /\
  Tdec.member "wells"
    (Tdec.upload Example.node (Tdec.UPLOAD_KEY None) Fixture.stamp Tdec.tdecStore
       Fixture.oddUpload).2
  = Some {| Tdec.records := Fixture.wells; Tdec.lastUpdated := Some Fixture.stamp;
            Tdec.statewide := JObj [("toString", JNum 1)] |}.
Proof.
  apply (upload_thrown_after_store Example.node (Tdec.UPLOAD_KEY None) Fixture.stamp
           Tdec.tdecStore Fixture.oddUpload "wells" Fixture.wells TypeError).
  - reflexivity.
  - reflexivity.
  - apply (bool_decide_unpack _). vm_compute. exact I.
  - reflexivity.
  - reflexivity.
Defined.

Lemma feed_items_shape_witness :
  List.length Fixture.feed = 2 /\
  forall k item, Fixture.feed !! k = Some item ->
    Tdec.FeedItem.verified item = true /\
    Tdec.FeedItem.category item ∈ feedCategories /\
    Tdec.FeedItem.source item = "TDEC complaints".
Proof.
  destruct (feed_items_shape Example.node Fixture.stringify Fixture.toLowerCase
              [Fixture.complaint; Fixture.permit] "complaints" Fixture.feed)
    as (Hlen & Hall).
  - vm_compute. reflexivity.
  - split; [exact Hlen|]. intros k item Hk.
    destruct (Hall k item Hk) as (_ & Hv & Hc & _ & _ & Hs & _). auto.
Defined.

(** ** The answers of the handler *)

Lemma startsWith_http_nonempty u : startsWith u "http" = true -> u <> EmptyString.
Proof. intros H ->. discriminate. Qed.

(** X11. Whatever the branch, the answer lists the citations extracted from
    the content as its sources, and every item of the answer is marked
    verified, has a note, and has a url that is a string and is not
    empty. *)
Theorem every_item_verified P city allContent :
  verifiedSources (V3.search P city allContent) = V3.extractCitations P allContent /\
  forall x, x ∈ items (V3.search P city allContent) ->
    Item.verified x = true /\
    Item.verificationNote x <> EmptyString /\
    exists u, Item.url x = JStr u /\ u <> EmptyString.
Proof.
  unfold V3.search.
  destruct (includes _ _); [split; [reflexivity|intros x Hx; inversion Hx]|].
  destruct (matchArray _) as [matched|].
  - destruct (V3.crossReference _ _ _ _ _) as [rp [answer|e]] eqn:Hcross;
      [|split; [reflexivity|intros x Hx; inversion Hx]].
    apply crossReference_answer in Hcross
      as (its & st & Hparse & Hrun & Hitems & Hsources & _).
    split; [exact Hsources|]. rewrite Hitems. intros x Hx.
    destruct (run_verified_flag _ _ _ _ _ _ Hrun Hx) as [Hflag Hnote].
    destruct (run_verified_http _ _ _ _ _ _ Hrun Hx) as (u & Hu & Hhttp).
    split; [exact Hflag|]. split; [exact Hnote|].
    exists u. split; [exact Hu|apply startsWith_http_nonempty, Hhttp].
  - destruct (bool_decide _); [|split; [reflexivity|intros x Hx; inversion Hx]].
    split; [reflexivity|]. unfold V3.fromCitations. simpl. intros x Hx.
    apply list_elem_of_lookup in Hx as (i & Hi).
    rewrite list_lookup_imap in Hi.
    destruct (filter _ _ !! i) as [c|] eqn:Hc; [|discriminate].
    injection Hi as <-. simpl.
    split; [reflexivity|]. split; [discriminate|].
    exists (Citation.url c). split; [reflexivity|].
    assert (Hin : c ∈ filter (fun c => V3.usable c = true) (V3.extractCitations P allContent))
      by (apply list_elem_of_lookup; eauto).
    apply list_elem_of_filter in Hin as [Husable _]. unfold V3.usable in Husable.
    intros Hempty. rewrite Hempty in Husable. discriminate.
Qed.





(** X13. One candidate that is [null], or whose url is truthy and not a
    string, voids the whole answer: when the text holds an array that
    parses, the answer is the empty one (no item, counts of zero, the
    transcript without a section of rejected items) as soon as such a
    candidate is in the array, whatever the other candidates are; the same
    holds when the array does not parse. *)
Theorem malformed_candidate_voids_answer P city allContent matched :
  includes (V3.cleanedText (omap V3.textOf allContent)) V3.noResultsToken = false ->
  matchArray (V3.cleanedText (omap V3.textOf allContent)) = Some matched ->
  JSON_parse P matched = None \/
  (exists parsedItems,
     JSON_parse P matched = Some parsedItems /\
     exists it, it ∈ parsedItems /\ wellFormed it = false) ->
  V3.search P city allContent
  = V3.emptyResponse (rawPartsOf P allContent) (V3.extractCitations P allContent).
Proof.
  intros Htoken Hmatch Hbad. unfold V3.search. fold (rawPartsOf P allContent).
  rewrite Htoken, Hmatch. unfold V3.crossReference.
  destruct Hbad as [->|(its & -> & it & Hin & Hwf)]; [reflexivity|].
  destruct (V3.checkItems P city (V3.extractCitations P allContent) 0 its V3.initialState)
    as [st|e] eqn:Hrun; [|reflexivity].
  exfalso.
  assert (Hall : Forall (fun it => wellFormed it = true) its)
    by (eapply checkItems_completes; eauto).
  rewrite Forall_forall in Hall. specialize (Hall it Hin). congruence.
Qed.

Lemma malformed_candidate_voids_answer_witness :
  V3.search Example.node Sample.city Fixture.nullAnswer
  = V3.emptyResponse (rawPartsOf Example.node Fixture.nullAnswer)
      (V3.extractCitations Example.node Fixture.nullAnswer).
Proof.
  apply (malformed_candidate_voids_answer Example.node Sample.city Fixture.nullAnswer
           "[null]").
  - vm_compute. reflexivity.
  - vm_compute. reflexivity.
  - right. exists [JNull]. split; [vm_compute; reflexivity|].
    exists JNull. split; [left|reflexivity].
Defined.

Lemma includes_cons c s x : includes s x = true -> includes (String c s) x = true.
Proof.
  intros H. change (String.prefix x (String c s) || includes s x = true).
  rewrite H. apply orb_true_r.
Qed.

Lemma includes_prefix s x : String.prefix x s = true -> includes s x = true.
Proof.
  intros H. destruct s as [|c s].
  - change (String.prefix x EmptyString || false = true). rewrite H. reflexivity.
  - change (String.prefix x (String c s) || includes s x = true). rewrite H. reflexivity.
Qed.

Lemma includes_middle pre x post : includes (pre +:+ x +:+ post) x = true.
Proof.
  induction pre as [|c pre IH].
  - apply includes_prefix. change (EmptyString +:+ x +:+ post) with (x +:+ post).
    apply prefix_append_self.
  - change (String c pre +:+ x +:+ post) with (String c (pre +:+ x +:+ post)).
    apply includes_cons, IH.
Qed.

(** X14. The token of an answer without results wins over everything
    else: when the cleaned text holds it anywhere, be it inside a
    candidate of an array that parses, the answer has no item and counts
    of zero, and its transcript is the one gathered before the text was
    examined. *)
Theorem no_results_token_wins P city allContent pre post :
  V3.cleanedText (omap V3.textOf allContent) = pre +:+ V3.noResultsToken +:+ post ->
  V3.search P city allContent
  = V3.emptyResponse (rawPartsOf P allContent) (V3.extractCitations P allContent).
Proof.
  intros Htext. unfold V3.search. rewrite Htext, includes_middle. reflexivity.
Qed.

Lemma pushRejected_throws P rs rp r e :
  r ∈ rs -> V3.rejectedLine P r = Throw e ->
  exists e', (V3.pushRejected P rs rp).2 = Throw e'.
Proof.
  intros Hin Hline. revert rp. induction rs as [|r0 rest IH]; intros rp.
  - inversion Hin.
  - simpl. destruct (V3.rejectedLine P r0) as [line|e0] eqn:Hr0; [|eauto].
    apply elem_of_cons in Hin as [->|Hin]; [congruence|]. apply IH, Hin.
Qed.

(** X15. The section of the rejected items is exact: when the
    cross-reference answers, the transcript it leaves is the one it found
    followed, if an item was rejected, by the heading of the section and
    one line per rejected item, in the order of the rejections. *)
Theorem rejected_section_exact P city cs rawParts matched rawParts' answer parsedItems st :
  V3.crossReference P city cs rawParts matched = (rawParts', Normal answer) ->
  JSON_parse P matched = Some parsedItems ->
  V3.checkItems P city cs 0 parsedItems V3.initialState = Normal st ->
  exists lines,
    Forall2 (fun r line => V3.rejectedLine P r = Normal line) (rejectedItems st) lines /\
    rawParts' = rawParts ++ rejectedSection lines /\
    rawResponse answer = join (newline +:+ newline) (rawParts ++ rejectedSection lines).
Proof.
  unfold V3.crossReference. intros Hcross Hparse Hrun. rewrite Hparse, Hrun in Hcross.
  case_bool_decide as Hany.
  - destruct (V3.pushRejected P _ _) as [rp [u|e]] eqn:Hpush; [|discriminate].
    injection Hcross as <- <-.
    apply pushRejected_lines in Hpush as (lines & Hlines & ->).
    exists lines. split; [exact Hlines|].
    assert (Hsection : rejectedSection lines
                       = (newline +:+ "--- REJECTED (FAILED VERIFICATION) ---") :: lines).
    { destruct Hlines; [simpl in Hany; lia|reflexivity]. }
    rewrite Hsection, <- app_assoc. simpl. auto.
  - injection Hcross as <- <-. exists [].
    assert (rejectedItems st = []) as -> by (destruct (rejectedItems st); [reflexivity|simpl in Hany; lia]).
    split; [constructor|]. simpl. rewrite app_nil_r. auto.
Qed.

(** X16. One rejected item that cannot be written voids the answer: when
    the loop has completed and the title or the url of a rejected item
    cannot be converted to a string, the handler answers with no item and
    counts of zero, whatever the loop had verified. *)
Theorem unprintable_rejection_voids_answer P city allContent matched parsedItems st r e :
  includes (V3.cleanedText (omap V3.textOf allContent)) V3.noResultsToken = false ->
  matchArray (V3.cleanedText (omap V3.textOf allContent)) = Some matched ->
  JSON_parse P matched = Some parsedItems ->
  V3.checkItems P city (V3.extractCitations P allContent) 0 parsedItems V3.initialState
  = Normal st ->
  r ∈ rejectedItems st ->
  V3.rejectedLine P r = Throw e ->
  items (V3.search P city allContent) = [] /\
  stats (V3.search P city allContent) = emptyStats.
Proof.
  intros Htoken Hmatch Hparse Hrun Hin Hline.
  unfold V3.search. rewrite Htoken, Hmatch. unfold V3.crossReference.
  rewrite Hparse, Hrun.
  rewrite bool_decide_eq_true_2
    by (destruct (rejectedItems st); [inversion Hin|simpl; lia]).
  destruct (pushRejected_throws P (rejectedItems st)
              (rawPartsOf P allContent
                 ++ [newline +:+ "--- REJECTED (FAILED VERIFICATION) ---"])
              r e Hin Hline) as (e' & Hthrow).
  fold (rawPartsOf P allContent).
  destruct (V3.pushRejected P _ _) as [rp [u|e0]]; simpl in Hthrow; [discriminate|].
  split; reflexivity.
Qed.

Lemma no_results_token_wins_witness :
  items (V3.search Example.node Sample.city Fixture.tokenInside) = [] /\
  stats (V3.search Example.node Sample.city Fixture.tokenInside) = emptyStats.
Proof.
  rewrite (no_results_token_wins Example.node Sample.city Fixture.tokenInside
             ("[{" +:+ Sample.quoted "title" +:+ ": ")
             (", " +:+ Sample.member "url" "https://www.example.com/news/sinkhole"
              +:+ "}]")).
  - split; reflexivity.
  - vm_compute. reflexivity.
Defined.

Lemma rejected_section_exact_witness :
  exists lines,
    List.length lines = List.length (rejectedItems Sample.final) /\
    Sample.after = Sample.before ++ rejectedSection lines.
Proof.
  destruct (rejected_section_exact Example.node Sample.city Sample.citations
              Sample.before Sample.candidatesText Sample.after Sample.answer
              Sample.candidates Sample.final) as (lines & Hlines & Hafter & _).
  - vm_compute. reflexivity.
  - vm_compute. reflexivity.
  - vm_compute. reflexivity.
  - exists lines. split; [symmetry; exact (Forall2_length _ _ _ Hlines)|exact Hafter].
Defined.

Lemma unprintable_rejection_voids_answer_witness :
  List.length (verifiedItems Fixture.unprintableFinal) = 1 /\
  items (V3.search Example.node Sample.city Fixture.unprintableAnswer) = [] /\
  stats (V3.search Example.node Sample.city Fixture.unprintableAnswer) = emptyStats.
Proof.
  split; [reflexivity|].
  apply (unprintable_rejection_voids_answer Example.node Sample.city
           Fixture.unprintableAnswer Fixture.unprintableText
           Fixture.unprintableCandidates Fixture.unprintableFinal
           Fixture.unprintableItem TypeError).
  - vm_compute. reflexivity.
  - vm_compute. reflexivity.
  - vm_compute. reflexivity.
  - vm_compute. reflexivity.
  - left.
  - vm_compute. reflexivity.
Defined.

(** ** Citations, the array of the text and its cleaning *)

Lemma citationsOfItems_omap P inner :
  V3.citationsOfItems P inner
  = V3.citationOf P <$>
      omap (fun r => match r with WebSearchResult r => Some r | OtherItem => None end) inner.
Proof.
  induction inner as [|[r|] rest IH]; simpl; [reflexivity| |exact IH].
  rewrite IH. reflexivity.
Qed.

Lemma extractCitations_app P a b :
  V3.extractCitations P (a ++ b) = V3.extractCitations P a ++ V3.extractCitations P b.
Proof.
  induction a as [|[text|inner|] rest IH]; simpl; [reflexivity|exact IH| |exact IH].
  rewrite IH, app_assoc. reflexivity.
Qed.

Lemma extractFrom_spec P acc raw :
  (Raw.RawToolResult Raw.ErrorObject ∈ raw ->
   Raw.extractFrom P acc raw = Throw TypeError) /\
  (Raw.RawToolResult Raw.ErrorObject ∉ raw ->
   Raw.extractFrom P acc raw
   = Normal (acc ++ V3.extractCitations P (Raw.blockOf <$> raw))).
Proof.
  revert acc. induction raw as [|b rest IH]; intros acc.
  - split; [intros H; inversion H|]. intros _. simpl. rewrite app_nil_r. reflexivity.
  - destruct (IH acc) as [IHthrow IHok]. split.
    + intros Hin. apply elem_of_cons in Hin as [<-|Hin]; [reflexivity|].
      destruct b as [text|[|inner|]|]; simpl; try (apply IHthrow, Hin); [|reflexivity].
      apply (IH (acc ++ V3.citationsOfItems P inner)), Hin.
    + intros Hnot. apply not_elem_of_cons in Hnot as [Hb Hnot].
      destruct b as [text|[|inner|]|]; simpl; try (apply IHok, Hnot); [|congruence].
      destruct (IH (acc ++ V3.citationsOfItems P inner)) as [_ IHok'].
      rewrite (IHok' Hnot), app_assoc. reflexivity.
Qed.

(** X17. When the content of every tool result is a list or is absent, the
    citations are the search results of the content, one citation per
    result, in the order of the content and with no result merged or left
    out; blocks of text and items of another type give none; and the
    citations of two contents put end to end are the citations of the
    first followed by those of the second.  A tool result whose content
    is an error object makes [extractCitations] throw. *)
Theorem one_citation_per_result P content :
  (V3.extractCitations P content = V3.citationOf P <$> resultsOf content /\
   List.length (V3.extractCitations P content) = List.length (resultsOf content) /\
   forall more,
     V3.extractCitations P (content ++ more)
     = V3.extractCitations P content ++ V3.extractCitations P more) /\
  forall raw,
    (Raw.RawToolResult Raw.ErrorObject ∈ raw ->
     Raw.extractCitations P raw = Throw TypeError) /\
    (Raw.RawToolResult Raw.ErrorObject ∉ raw ->
     Raw.extractCitations P raw
     = Normal (V3.citationOf P <$> resultsOf (Raw.blockOf <$> raw))).
Proof.
  assert (Hmap : forall content,
             V3.extractCitations P content = V3.citationOf P <$> resultsOf content).
  { clear content. induction content as [|[text|inner|] rest IH]; simpl;
      [reflexivity|exact IH| |exact IH].
    rewrite fmap_app, IH, citationsOfItems_omap. reflexivity. }
  split.
  - split; [apply Hmap|]. split.
    + rewrite Hmap. apply length_fmap.
    + intros more. apply extractCitations_app.
  - intros raw. destruct (extractFrom_spec P [] raw) as [Hthrow Hok].
    split; [exact Hthrow|]. intros Hnot.
    unfold Raw.extractCitations. rewrite (Hok Hnot), Hmap. reflexivity.
Qed.

Lemma throughLastBracket_None s :
  throughLastBracket s = None -> occursIn "]" s = false.
Proof.
  induction s as [|c rest IH]; simpl; [reflexivity|].
  destruct (throughLastBracket rest) as [p|]; [discriminate|].
  destruct (Ascii.eqb c "]"); [discriminate|]. intros _. apply IH. reflexivity.
Qed.

Lemma throughLastBracket_Some s p :
  throughLastBracket s = Some p ->
  exists q post, p = q +:+ "]" /\ s = p +:+ post /\ occursIn "]" post = false.
Proof.
  revert p. induction s as [|c rest IH]; simpl; intros p; [discriminate|].
  destruct (throughLastBracket rest) as [p'|] eqn:Hrest.
  - intros [= <-]. destruct (IH p' eq_refl) as (q & post & -> & Hs & Hpost).
    exists (String c q), post. simpl. rewrite Hs at 1. auto.
  - destruct (Ascii.eqb c "]") eqn:Hc; [|discriminate].
    intros [= <-]. apply Ascii.eqb_eq in Hc as ->.
    exists EmptyString, rest. simpl. split; [reflexivity|]. split; [reflexivity|].
    apply throughLastBracket_None, Hrest.
Qed.

Lemma occursIn_app c a b : occursIn c (a +:+ b) = occursIn c a || occursIn c b.
Proof.
  induction a as [|c' rest IH]; simpl; [reflexivity|].
  rewrite IH, orb_assoc. reflexivity.
Qed.

(** X18. What the pattern of the handler matches: the match starts at the
    first opening bracket of the text and ends at its last closing
    bracket, so that no opening bracket stands before it and no closing
    bracket after it; and there is no match exactly when the text has no
    opening bracket with a closing bracket somewhere after it. *)
Theorem matchArray_first_to_last s :
  match matchArray s with
  | Some matched =>
      exists pre inner post,
        s = pre +:+ matched +:+ post /\
        matched = "[" +:+ inner +:+ "]" /\
        occursIn "[" pre = false /\
        occursIn "]" post = false
  | None =>
      forall pre post, s = pre +:+ "[" +:+ post -> occursIn "]" post = false
  end.
Proof.
  induction s as [|c rest IH]; simpl.
  - intros [|c pre] post; discriminate.
  - destruct (Ascii.eqb c "[") eqn:Hc.
    + apply Ascii.eqb_eq in Hc as ->.
      destruct (throughLastBracket rest) as [p|] eqn:Hrest.
      * destruct (throughLastBracket_Some _ _ Hrest) as (q & post & -> & Hs & Hpost).
        exists EmptyString, q, post. simpl. rewrite Hs at 1. auto.
      * intros pre post Hs.
        apply throughLastBracket_None in Hrest.
        destruct pre as [|c pre]; simpl in Hs; injection Hs as Hs.
        -- subst. exact Hrest.
        -- subst rest. rewrite occursIn_app in Hrest. simpl in Hrest.
           apply orb_false_elim in Hrest as [_ Hrest]. exact Hrest.
    + destruct (matchArray rest) as [matched|].
      * destruct IH as (pre & inner & post & -> & -> & Hpre & Hpost).
        exists (String c pre), inner, post. simpl. rewrite Hc. auto.
      * intros pre post Hs.
        destruct pre as [|c' pre]; simpl in Hs; injection Hs as Hc' Hs.
        -- subst c. discriminate.
        -- eapply IH, Hs.
Qed.







(** ** Ids and probes *)

Lemma pretty_N_go_underscore x s :
  occursIn "_" s = false -> occursIn "_" (pretty_N_go x s) = false.
Proof.
  revert s. induction (N.lt_wf_0 x) as [x _ IH]; intros s Hs.
  assert (x = 0 \/ 0 < x)%N as [->|Hpos] by lia.
  - rewrite pretty_N_go_0. exact Hs.
  - rewrite pretty_N_go_step by exact Hpos. apply IH.
    + apply N.div_lt; [exact Hpos|reflexivity].
    + simpl. rewrite Hs. unfold pretty_N_char. repeat case_match; reflexivity.
Qed.

Lemma pretty_N_underscore (x : N) : occursIn "_" (pretty x) = false.
Proof.
  unfold pretty, pretty_N. destruct (decide (x = 0%N)); [reflexivity|].
  apply pretty_N_go_underscore. reflexivity.
Qed.

Lemma split_at_underscore a a' b b' :
  occursIn "_" a = false -> occursIn "_" a' = false ->
  a +:+ "_" +:+ b = a' +:+ "_" +:+ b' -> a = a' /\ b = b'.
Proof.
  revert a'. induction a as [|c a IH]; intros [|c' a']; simpl.
  - intros _ _ Heq. injection Heq as Heq. auto.
  - intros _ H Heq. injection Heq as Hc _. subst c'. discriminate.
  - intros H _ Heq. injection Heq as Hc _. subst c. discriminate.
  - intros H H' Heq. injection Heq as Hc Heq. subst c'.
    apply orb_false_elim in H as [_ H]. apply orb_false_elim in H' as [_ H'].
    destruct (IH a' H H' Heq) as [Ha Hb]. subst. auto.
Qed.

Lemma loopId_inj P i j : loopId P i = loopId P j -> i = j.
Proof.
  unfold loopId. intros [= Heq].
  apply split_at_underscore in Heq as [_ Heq]; try apply pretty_N_underscore.
  apply (inj pretty) in Heq. exact Heq.
Qed.

Lemma synthesizedId_inj P i j : synthesizedId P i = synthesizedId P j -> i = j.
Proof.
  unfold synthesizedId. intros [= Heq].
  apply split_at_underscore in Heq as [_ Heq]; try apply pretty_N_underscore.
  apply (inj pretty) in Heq. exact Heq.
Qed.

Lemma turn_verified_id P city cs i it d x :
  turn P city cs i it d -> x ∈ verifiedItems d -> Item.id x = loopId P i.
Proof.
  intros Hturn Hx.
  destruct (turn_one P city cs _ _ _ Hturn) as (item & x' & Hnew & Hsame & Hcase).
  assert (x = x') as ->.
  { destruct Hcase as [(Hv & _)|(Hv & _)]; rewrite Hv in Hx.
    - apply list_elem_of_singleton in Hx. exact Hx.
    - inversion Hx. }
  destruct Hsame as (-> & _).
  rewrite (newItem_eq P city _ _ _ Hnew). reflexivity.
Qed.

Lemma turn_verified_short P city cs i it d :
  turn P city cs i it d -> List.length (verifiedItems d) <= 1.
Proof.
  intros Hturn.
  destruct (turn_one P city cs _ _ _ Hturn) as (item & x' & _ & _ & [(-> & _)|(-> & _)]);
    simpl; lia.
Qed.

Lemma turns_verified_ids P city cs i its ds :
  turns P city cs i its ds ->
  Forall (fun x => exists k, i <= k /\ Item.id x = loopId P k)
         (List.concat (map verifiedItems ds)) /\
  NoDup (Item.id <$> List.concat (map verifiedItems ds)).
Proof.
  induction 1 as [i|i it rest d ds Hturn Hturns [IHids IHnodup]]; simpl.
  - split; [constructor|constructor].
  - assert (Hhere : Forall (fun x => Item.id x = loopId P i) (verifiedItems d)).
    { apply Forall_forall. intros x Hx. eapply turn_verified_id; eauto. }
    split.
    + apply Forall_app. split.
      * eapply Forall_impl; [exact Hhere|]. intros x Hx. exists i. split; [lia|exact Hx].
      * eapply Forall_impl; [exact IHids|]. intros x (k & Hk & Hx). exists k.
        split; [lia|exact Hx].
    + rewrite fmap_app. apply NoDup_app. split; [|split; [|exact IHnodup]].
      * pose proof (turn_verified_short _ _ _ _ _ _ Hturn) as Hshort.
        destruct (verifiedItems d) as [|x [|y l]]; simpl in *;
          [constructor|apply NoDup_singleton|lia].
      * intros s Hs Hs'.
        apply list_elem_of_fmap in Hs as (x & -> & Hx).
        apply list_elem_of_fmap in Hs' as (y & Heq & Hy).
        rewrite Forall_forall in Hhere, IHids.
        destruct (IHids y Hy) as (k & Hk & Hidy).
        rewrite (Hhere x Hx), Hidy in Heq. apply loopId_inj in Heq. lia.
Qed.

(** X21. The ids of the items of an answer are pairwise distinct, whatever
    the clock gives at each item: the id ends with the position of the
    candidate, or of the citation, it was built from. *)
Theorem ids_unique_in_answer P city allContent :
  NoDup (Item.id <$> items (V3.search P city allContent)).
Proof.
  unfold V3.search.
  destruct (includes _ _); [constructor|].
  destruct (matchArray _) as [matched|].
  - destruct (V3.crossReference _ _ _ _ _) as [rp [answer|e]] eqn:Hcross; [|constructor].
    apply crossReference_answer in Hcross as (its & st & _ & Hrun & -> & _).
    apply checkItems_turns in Hrun as (ds & Hturns & ->).
    rewrite verifiedItems_pushedBy.
    eapply turns_verified_ids, Hturns.
  - destruct (bool_decide _); [|constructor].
    unfold V3.fromCitations. simpl. apply NoDup_alt. intros i j s Hi Hj.
    rewrite list_lookup_fmap, list_lookup_imap in Hi, Hj.
    destruct (filter _ _ !! i) as [c|]; [|discriminate].
    destruct (filter _ _ !! j) as [c'|]; [|discriminate].
    apply (synthesizedId_inj P), (inj Some). exact (eq_trans Hi (eq_sym Hj)).
Qed.

Lemma turn_probed_url P city cs i it d p :
  turn P city cs i it d -> p ∈ probes d ->
  fst p = i /\
  exists item,
    V3.newItem P city i it = Normal item /\ Item.url item = JStr (snd p) /\
    startsWith (snd p) "http" = true /\
    (V3.urlKey P (snd p) ∉ V3.realUrlSet P cs) /\ (snd p ∉ V3.realUrlSet P cs).
Proof.
  intros [item s _ _ _|item u _ _ _ _|item u alive known Hnew Hurl Hhttp Hkey Hraw _ _];
    simpl; intros Hp; try (inversion Hp; fail).
  apply list_elem_of_singleton in Hp as ->. simpl. eauto 10.
Qed.

Lemma turn_probes_short P city cs i it d :
  turn P city cs i it d -> List.length (probes d) <= 1.
Proof. intros [| |]; simpl; lia. Qed.

Lemma turns_probes_sorted P city cs i its ds :
  turns P city cs i its ds ->
  Forall (fun p => i <= fst p) (List.concat (map probes ds)) /\
  StronglySorted (fun p q => fst p < fst q) (List.concat (map probes ds)) /\
  List.length (List.concat (map probes ds)) <= List.length its.
Proof.
  induction 1 as [i|i it rest d ds Hturn Hturns (IHlow & IHsorted & IHlen)]; simpl.
  - split; [constructor|]. split; [constructor|]. simpl. lia.
  - assert (Hhere : Forall (fun p => fst p = i) (probes d)).
    { apply Forall_forall. intros p Hp. eapply turn_probes; eauto. }
    pose proof (turn_probes_short _ _ _ _ _ _ Hturn) as Hshort.
    split.
    + apply Forall_app. split.
      * eapply Forall_impl; [exact Hhere|]. simpl. intros p ->. lia.
      * eapply Forall_impl; [exact IHlow|]. simpl. intros p Hp. lia.
    + split.
      * destruct (probes d) as [|p [|q l]]; simpl in *; [exact IHsorted| |lia].
        constructor; [exact IHsorted|].
        apply Forall_inv in Hhere.
        eapply Forall_impl; [exact IHlow|]. simpl. intros q Hq. lia.
      * rewrite length_app. lia.
Qed.

(** X22. The calls of [verifyUrl] follow the candidates: in a run of the
    loop the candidate indices of the calls increase strictly, so that no
    candidate is probed twice and there are at most as many calls as
    candidates; and the url of each call is the url of its candidate,
    which starts with [http] and is not in the set of the urls of the
    citations, neither itself nor by its key. *)
Theorem probes_follow_candidates P city cs parsedItems st :
  V3.checkItems P city cs 0 parsedItems V3.initialState = Normal st ->
  StronglySorted (fun p q => fst p < fst q) (probes st) /\
  List.length (probes st) <= List.length parsedItems /\
  forall i u, (i, u) ∈ probes st ->
    exists it item,
      parsedItems !! i = Some it /\
      V3.newItem P city i it = Normal item /\
      Item.url item = JStr u /\
      startsWith u "http" = true /\
      (V3.urlKey P u ∉ V3.realUrlSet P cs) /\ (u ∉ V3.realUrlSet P cs).
Proof.
  intros Hrun.
  apply checkItems_turns in Hrun as (ds & Hturns & ->).
  rewrite probes_pushedBy.
  destruct (turns_probes_sorted _ _ _ _ _ _ Hturns) as (_ & Hsorted & Hlen).
  split; [exact Hsorted|]. split; [exact Hlen|].
  - intros i u Hp.
    apply elem_of_concat_map in Hp as (k & d & Hd & Hp).
    destruct (turns_lookup_inv _ _ _ _ _ _ _ _ Hturns Hd) as (it & Hit & Hturn).
    simpl in Hturn.
    destruct (turn_probed_url _ _ _ _ _ _ _ Hturn Hp) as (Hk & item & H).
    simpl in Hk, H. subst i. eauto.
Qed.

Lemma probes_follow_candidates_witness :
  StronglySorted (fun p q => fst p < fst q) (probes Sample.final) /\
  List.length (probes Sample.final) <= List.length Sample.candidates.
Proof.
  destruct (probes_follow_candidates Example.node Sample.city Sample.citations
              Sample.candidates Sample.final) as (H1 & H2 & _).
  - vm_compute. reflexivity.
  - split; [exact H1|exact H2].
Defined.

(** ** The domains of the citations *)

Lemma sameButNote_setNote item n n' :
  sameButNote (Item.setNote item n) (Item.setNote item n').
Proof. destruct item. repeat split. Qed.

Lemma sameButNotes_accept st st' x x' :
  sameButNotes st st' -> sameButNote x x' -> sameButNotes (accept st x) (accept st' x').
Proof.
  intros (Hp & Hv & Hr) Hx. repeat split; simpl; auto.
  apply Forall2_app; auto.
Qed.

Lemma sameButNotes_reject st st' x x' :
  sameButNotes st st' -> sameButNote x x' -> sameButNotes (reject st x) (reject st' x').
Proof.
  intros (Hp & Hv & Hr) Hx. repeat split; simpl; auto.
  apply Forall2_app; auto.
Qed.

Lemma sameButNotes_probing st st' i u :
  sameButNotes st st' -> sameButNotes (probing st i u) (probing st' i u).
Proof. intros (Hp & Hv & Hr). repeat split; simpl; auto. rewrite Hp. reflexivity. Qed.

Section Domains.

Variable P : platform.
Variable city : json.
Variables cs cs' : list Citation.t.
Hypothesis same_urls : V3.realUrlSet P cs = V3.realUrlSet P cs'.

Lemma crossCheck_agree i item u st st' :
  sameButNotes st st' ->
  agree (V3.crossCheck P cs i item u st) (V3.crossCheck P cs' i item u st').
Proof.
  intros Hst. unfold V3.crossCheck. rewrite same_urls.
  destruct (_ || _).
  - simpl. apply sameButNotes_accept; [exact Hst|apply sameButNote_setNote].
  - destruct (verifyUrl_total (fetch P i) u) as (alive & Halive).
    destruct (bool_decide (_ ∈ V3.realDomainSet cs)),
             (bool_decide (_ ∈ V3.realDomainSet cs'));
      rewrite Halive, !bind_Normal; destruct alive; simpl;
      (apply sameButNotes_accept || apply sameButNotes_reject);
      try apply sameButNotes_probing; try exact Hst; apply sameButNote_setNote.
Qed.

Lemma checkItem_agree i it st st' :
  sameButNotes st st' ->
  agree (V3.checkItem P city cs i it st) (V3.checkItem P city cs' i it st').
Proof.
  intros Hst. unfold V3.checkItem.
  destruct (V3.newItem P city i it) as [item|e]; [|reflexivity].
  rewrite !bind_Normal.
  destruct (negb (truthy (Item.url item))).
  { simpl. apply sameButNotes_reject; [exact Hst|apply sameButNote_setNote]. }
  destruct (Item.url item) as [| | |u| |]; try reflexivity.
  destruct (negb (startsWith u "http")).
  { simpl. apply sameButNotes_reject; [exact Hst|apply sameButNote_setNote]. }
  apply crossCheck_agree, Hst.
Qed.

Lemma checkItems_agree i its st st' :
  sameButNotes st st' ->
  agree (V3.checkItems P city cs i its st) (V3.checkItems P city cs' i its st').
Proof.
  revert i st st'. induction its as [|it rest IH]; intros i st st' Hst; simpl.
  - exact Hst.
  - pose proof (checkItem_agree i it st st' Hst) as Hone.
    destruct (V3.checkItem P city cs i it st) as [a|e],
             (V3.checkItem P city cs' i it st') as [a'|e']; simpl in Hone;
      try contradiction.
    + rewrite !bind_Normal. apply IH, Hone.
    + subst e'. reflexivity.
Qed.

End Domains.

Lemma realUrlSet_urls P cs cs' :
  map Citation.url cs = map Citation.url cs' ->
  V3.realUrlSet P cs = V3.realUrlSet P cs'.
Proof.
  unfold V3.realUrlSet. generalize (∅ : gset string).
  revert cs'. induction cs as [|c cs IH]; intros [|c' cs'] acc Hurls;
    try discriminate Hurls; [reflexivity|].
  simpl in Hurls. injection Hurls as Hurl Hrest.
  simpl. rewrite Hurl. apply IH, Hrest.
Qed.

(** X23. The domains of the citations decide the wording of a note and
    nothing else: two lists of citations that give the same set of urls
    make the loop complete on the same candidates, probe the same urls,
    and accept and reject the same candidates in the same order, the items
    being equal but for their notes. *)
Theorem domains_only_change_notes P city cs cs' parsedItems :
  V3.realUrlSet P cs = V3.realUrlSet P cs' ->
  match V3.checkItems P city cs 0 parsedItems V3.initialState,
        V3.checkItems P city cs' 0 parsedItems V3.initialState with
  | Normal st, Normal st' =>
      probes st = probes st' /\
      Forall2 sameButNote (verifiedItems st) (verifiedItems st') /\
      Forall2 sameButNote (rejectedItems st) (rejectedItems st')
  | Throw e, Throw e' => e = e'
  | _, _ => False
  end.
Proof.
  intros Hurls.
  apply (checkItems_agree P city cs cs' Hurls 0 parsedItems).
  repeat split; constructor.
Qed.

Lemma domains_only_change_notes_witness :
  match V3.checkItems Example.node Sample.city Sample.citations 0 Sample.candidates
          V3.initialState,
        V3.checkItems Example.node Sample.city Fixture.relabelled 0 Sample.candidates
          V3.initialState with
  | Normal st, Normal st' =>
      probes st = probes st' /\
      Forall2 sameButNote (verifiedItems st) (verifiedItems st') /\
      Forall2 sameButNote (rejectedItems st) (rejectedItems st')
  | Throw e, Throw e' => e = e'
  | _, _ => False
  end.
Proof.
  assert (Hurls : V3.realUrlSet Example.node Sample.citations
                  = V3.realUrlSet Example.node Fixture.relabelled)
    by (apply realUrlSet_urls; reflexivity).
  exact (domains_only_change_notes Example.node Sample.city Sample.citations
           Fixture.relabelled Sample.candidates Hurls).
Defined.
